(** * execute_commands.py: command execution and the dataset loop

    A shallow embedding of [execute_command] and [process_conversations]
    of [src/execute_commands.py], and the properties of the batch
    contract proved on it.

    Modelling decisions, all taken from the source:
    - a Python [str] is a sequence of Unicode code points ([list N]), so
      that [str.strip] removes exactly the characters Python calls
      whitespace, also the ones outside ASCII;
    - the value returned by [json.load] is a tree ([json]); objects are
      association lists in insertion order, because [json.dump] writes the
      keys in that order;
    - [subprocess.run] is the one call into the environment: it is a
      parameter [run] of the development that maps a world, the command
      and the timeout to what Python observes (a completed process, a
      [TimeoutExpired], or another [Exception] with its [str(e)]) and to
      the next world;
    - exceptions that the loop does not catch end the run: they are the
      [Raised] results;
    - the console is the list of the lines printed, without their
      timestamps;
    - [json.dump] writes to a file opened with [encoding='utf-8'] and with
      [ensure_ascii=False]: a string that holds a surrogate code point,
      which [json.load] accepts, makes it raise [UnicodeEncodeError] and
      leaves on the output path the text written up to that string.
    Interrupts from the operator, a console that cannot encode a line,
    the limits of the interpreter (recursion depth, memory) and failures
    of the file system are outside of the model. *)

From Stdlib Require Import ZArith Lia String Ascii.
From stdpp Require Import base tactics option list list_numbers pretty.

Set Warnings "-register-all".
Local Open Scope Z_scope.

(** ** Python strings *)

Abbreviation pystr := (list N).

(** An ASCII literal of the source as code points. *)
Definition lit (s : string) : pystr :=
  N_of_ascii <$> list_ascii_of_string s.

(** [str(n)] for an [int]. *)
Definition str_of_int (n : Z) : pystr := lit (pretty n).

(** [Py_UNICODE_ISSPACE]: the characters removed by [str.strip()]. *)
Definition py_isspace (c : N) : bool :=
  ((9 <=? c) && (c <=? 13) || (28 <=? c) && (c <=? 32)
   || (c =? 133) || (c =? 160) || (c =? 5760)
   || (8192 <=? c) && (c <=? 8202)
   || (c =? 8232) || (c =? 8233) || (c =? 8239) || (c =? 8287)
   || (c =? 12288))%N.

Fixpoint lstrip (s : pystr) : pystr :=
  match s with
  | [] => []
  | c :: s' => if py_isspace c then lstrip s' else s
  end.

Definition rstrip (s : pystr) : pystr := reverse (lstrip (reverse s)).

(** [s.strip()] *)
Definition strip (s : pystr) : pystr := rstrip (lstrip s).

(** The truth value of a [str]: non-empty. *)
Definition truthy (s : pystr) : bool :=
  match s with [] => false | _ => true end.

(** [s.replace('\n', '\\n')] *)
Definition escape_newlines (s : pystr) : pystr :=
  s ≫= (λ c, if (c =? 10)%N then [92; 110]%N else [c]).

(** ** JSON values as [json.load] builds them *)

Inductive json : Type :=
  | JNull
  | JBool (b : bool)
  | JNumber (lexeme : pystr)
  | JStr (s : pystr)
  | JArr (items : list json)
  | JObj (fields : list (pystr * json)).

Abbreviation dict := (list (pystr * json)).

(** [d.get(key)], as an option: the first binding of [key]. *)
Fixpoint dict_lookup (key : pystr) (d : dict) : option json :=
  match d with
  | [] => None
  | (k, v) :: d' => if decide (k = key) then Some v else dict_lookup key d'
  end.

(** [d[key] = v]: an existing key keeps its place, a new one goes last. *)
Fixpoint dict_set (key : pystr) (v : json) (d : dict) : dict :=
  match d with
  | [] => [(key, v)]
  | (k, v') :: d' =>
      if decide (k = key) then (k, v) :: d' else (k, v') :: dict_set key v d'
  end.

(** [x != s] for a string literal [s]: only a [str] with the same
    characters is equal to it. *)
Definition differs_from (x : json) (s : pystr) : bool :=
  match x with
  | JStr s' => negb (bool_decide (s' = s))
  | _ => true
  end.

(** ** Exceptions and results *)

Inductive exn : Type :=
  | TypeError
  | AttributeError
  | IndexError
  | KeyError
  | UnicodeEncodeError.

(** A computation either finishes or raises; both leave a state. *)
Inductive result (A : Type) : Type :=
  | Normal (a : A)
  | Raised (e : exn) (a : A).
Arguments Normal {A} a.
Arguments Raised {A} e a.

Definition is_normal {A} (r : result A) : bool :=
  match r with Normal _ => true | Raised _ _ => false end.

Definition final {A} (r : result A) : A :=
  match r with Normal a => a | Raised _ a => a end.

(** [len(x)] *)
Definition py_len (x : json) : option Z :=
  match x with
  | JArr l => Some (Z.of_nat (length l))
  | JObj d => Some (Z.of_nat (length d))
  | JStr s => Some (Z.of_nat (length s))
  | _ => None
  end.

(** The position a Python index denotes in a sequence of length [n]:
    negative indices count from the end. *)
Definition norm_index (n i : Z) : option nat :=
  if decide (0 <= i < n) then Some (Z.to_nat i)
  else if decide (- n <= i < 0) then Some (Z.to_nat (n + i))
  else None.

(** [x[i]] for an [int] index. *)
Definition py_getitem (x : json) (i : Z) : exn + json :=
  match x with
  | JArr l =>
      match norm_index (Z.of_nat (length l)) i ≫= (l !!.) with
      | Some v => inr v
      | None => inl IndexError
      end
  | JStr s =>
      match norm_index (Z.of_nat (length s)) i ≫= (s !!.) with
      | Some c => inr (JStr [c])
      | None => inl IndexError
      end
  | JObj _ => inl KeyError
  | _ => inl TypeError
  end.

(** [range(start, stop, step)] for a positive step. *)
Definition py_range (start stop step : Z) : list Z :=
  (λ k, start + k * step) <$> seqZ 0 ((stop - start + step - 1) `div` step).

(** ** Text that UTF-8 can encode *)

(** The code points U+D800 to U+DFFF. *)
Definition is_surrogate (c : N) : bool := ((55296 <=? c) && (c <=? 57343))%N.

Definition str_encodable (s : pystr) : bool :=
  forallb (λ c, negb (is_surrogate c)) s.

(** No string of the value, key or text, holds a surrogate. Numbers,
    [true], [false] and [null] are written in ASCII. *)
Fixpoint encodable (x : json) : bool :=
  match x with
  | JNull | JBool _ | JNumber _ => true
  | JStr s => str_encodable s
  | JArr items => forallb encodable items
  | JObj fields =>
      forallb (λ '(key, v), str_encodable key && encodable v) fields
  end.

(** What the output path holds: the text of a dataset, or the beginning
    of the text of a dataset, up to the first string that cannot be
    encoded. *)
Inductive file : Type :=
  | Dumped (d : json)
  | Truncated (d : json).

(** ** Command execution *)

(** What [subprocess.run] gives back to [execute_command]. *)
Inductive run_result : Type :=
  | Completed (stdout stderr : pystr) (returncode : Z)
  | TimeoutExpired
  | OtherException (message : pystr).

(** The text of line 58: an opening bracket, the characters U+547D U+4EE4
    U+6267 U+884C U+8D85 U+65F6, a colon, a space, [str(timeout)], the
    character U+79D2 and a closing bracket. *)
Definition timeout_marker (timeout : Z) : pystr :=
  [91; 21629; 20196; 25191; 34892; 36229; 26102; 58; 32]%N
  ++ str_of_int timeout ++ [31186; 93]%N.

(** The text of line 60: an opening bracket, the characters U+547D U+4EE4
    U+6267 U+884C U+9519 U+8BEF, a colon, a space, [str(e)] and a closing
    bracket. *)
Definition error_marker (message : pystr) : pystr :=
  [91; 21629; 20196; 25191; 34892; 38169; 35823; 58; 32]%N
  ++ message ++ [93]%N.

(** Lines 48 to 55: the text returned for a completed process. *)
Definition combine_output (stdout stderr : pystr) : pystr :=
  let output := stdout in
  let output :=
    if truthy stderr then
      if truthy output then output ++ [10]%N ++ stderr
      else stderr
    else output in
  if truthy output then strip output else [].

Section Environment.

Variable World : Type.
Variable run : World → json → Z → run_result * World.

Definition execute_command (w : World) (command : json) (timeout : Z)
  : pystr * World :=
  match run w command timeout with
  | (Completed stdout stderr _, w') => (combine_output stdout stderr, w')
  | (TimeoutExpired, w') => (timeout_marker timeout, w')
  | (OtherException message, w') => (error_marker message, w')
  end.

End Environment.

Arguments execute_command {World} run w command timeout.

(** ** The dataset loop *)

(** The lines written to the console, without their timestamps. *)
Inductive event : Type :=
  | PrintReading
  | PrintTotal (total_conversations : Z)
  | PrintRange (first last count : Z)
  | PrintRule
  | PrintConversation (position bound : Z)
  | PrintWarning (i : Z)
  | PrintCommand (round_num : Z) (command : json)
  | PrintPreview (round_num : Z) (preview : pystr)
  | PrintAutoSave
  | PrintFinished
  | PrintProcessed (count : Z).

Section Io.

Variable World : Type.

(** What the run shares with its surroundings. *)
Record io : Type := { world : World; console : list event }.

Definition print (ev : event) (s : io) : io :=
  {| world := world s; console := console s ++ [ev] |}.

(** The variables of the loop over the turns of one conversation. *)
Record turns_state : Type :=
  { conversations_list : json; round_num : Z; turns_io : io }.

(** The variables of the loop over the dataset, and the output path. *)
Record state : Type :=
  { data : json; output_file : option file; run_io : io }.

End Io.

Arguments world {World} _.
Arguments console {World} _.
Arguments print {World} _ _.
Arguments conversations_list {World} _.
Arguments round_num {World} _.
Arguments turns_io {World} _.
Arguments data {World} _.
Arguments output_file {World} _.
Arguments run_io {World} _.

Inductive control (A : Type) : Type :=
  | Next (a : A)
  | Break (a : A)
  | Throw (e : exn) (a : A).
Arguments Next {A} a.
Arguments Break {A} a.
Arguments Throw {A} e a.

(** [x.get(key, default)]: only a [dict] has the method. *)
Definition py_get (x : json) (key : pystr) (dflt : json) : exn + json :=
  match x with
  | JObj d => inr (default dflt (dict_lookup key d))
  | _ => inl AttributeError
  end.

(** [gpt_entry["value"] = output], where [gpt_entry] is the object
    [conversations_list[j]]: the store is seen through the list. *)
Definition store_value (cl : json) (j : Z) (output : pystr) : json :=
  match cl with
  | JArr l =>
      match l !! Z.to_nat j with
      | Some (JObj g) =>
          JArr (<[Z.to_nat j := JObj (dict_set (lit "value") (JStr output) g)]> l)
      | _ => cl
      end
  | _ => cl
  end.

(** Lines 123 and 124. *)
Definition preview_of (output : pystr) : pystr :=
  escape_newlines
    (if decide (200 < length output)%nat then take 200 output ++ lit "..."
     else output).

Section Loop.

Context {World : Type} (run : World → json → Z → run_result * World).

Local Notation "'do' x <- e 'or' st ; k" :=
  (match e with inl err => Throw err st | inr x => k end)
  (at level 10, x name, e at level 100, st at level 9, k at level 200,
   only parsing).

(** Lines 100 to 125: one iteration of the loop over the turns. *)
Definition pair_body (timeout i : Z) (st : turns_state World)
  : control (turns_state World) :=
  match py_len (conversations_list st) with
  | None => Throw TypeError st
  | Some n =>
      if decide (i + 1 >= n) then Break st else
      do human_entry <- py_getitem (conversations_list st) i or st;
      do gpt_entry <- py_getitem (conversations_list st) (i + 1) or st;
      let skip :=
        Next {| conversations_list := conversations_list st;
                round_num := round_num st;
                turns_io := print (PrintWarning i) (turns_io st) |} in
      do human_from <- py_get human_entry (lit "from") JNull or st;
      if differs_from human_from (lit "human") then skip else
      do gpt_from <- py_get gpt_entry (lit "from") JNull or st;
      if differs_from gpt_from (lit "gpt") then skip else
      let round_num := round_num st + 1 in
      do command <- py_get human_entry (lit "value") (JStr []) or st;
      let s1 := print (PrintCommand round_num command) (turns_io st) in
      let '(output, w) := execute_command run (world s1) command timeout in
      let s2 := {| world := w; console := console s1 |} in
      Next {| conversations_list :=
                store_value (conversations_list st) (i + 1) output;
              round_num := round_num;
              turns_io := print (PrintPreview round_num (preview_of output)) s2 |}
  end.

(** Line 99: the iterations in order, until a [break] or an exception. *)
Fixpoint pair_loop (timeout : Z) (indices : list Z) (st : turns_state World)
  : result (turns_state World) :=
  match indices with
  | [] => Normal st
  | i :: indices' =>
      match pair_body timeout i st with
      | Next st' => pair_loop timeout indices' st'
      | Break st' => Normal st'
      | Throw e st' => Raised e st'
      end
  end.

(** The list that the loop over the turns has mutated is the one held by
    [data[conv_idx]] under ["conversations"]; when the key is missing the
    list was the fresh default and no object of the dataset refers to it. *)
Definition write_back (d : json) (conv_idx : Z) (cl : json) : json :=
  match d with
  | JArr l =>
      match norm_index (Z.of_nat (length l)) conv_idx with
      | Some p =>
          match l !! p with
          | Some (JObj c) =>
              match dict_lookup (lit "conversations") c with
              | Some _ =>
                  JArr (<[p := JObj (dict_set (lit "conversations") cl c)]> l)
              | None => d
              end
          | _ => d
          end
      | None => d
      end
  | _ => d
  end.

(** Lines 130 and 131, 135 and 136: [open] empties the output path and
    [json.dump(data, f, ensure_ascii=False, indent=2)] writes the text
    piece by piece; the first string that UTF-8 cannot encode raises. *)
Definition save (st : state World) : result (state World) :=
  if encodable (data st)
  then Normal {| data := data st; output_file := Some (Dumped (data st));
                 run_io := run_io st |}
  else Raised UnicodeEncodeError
         {| data := data st; output_file := Some (Truncated (data st));
            run_io := run_io st |}.

Definition say (ev : event) (st : state World) : state World :=
  {| data := data st; output_file := output_file st;
     run_io := print ev (run_io st) |}.

(** Lines 92 to 131: one iteration of the loop over the dataset. *)
Definition conversation_body (timeout end_index conv_idx : Z)
  (st : state World) : result (state World) :=
  match py_getitem (data st) conv_idx with
  | inl e => Raised e st
  | inr conversation =>
  match py_get conversation (lit "conversations") (JArr []) with
  | inl e => Raised e st
  | inr cl =>
      let st := say (PrintConversation (conv_idx + 1) end_index) st in
      match py_len cl with
      | None => Raised TypeError st
      | Some n =>
          let r :=
            pair_loop timeout (py_range 0 n 2)
              {| conversations_list := cl; round_num := 0;
                 turns_io := run_io st |} in
          let st :=
            {| data := write_back (data st) conv_idx
                         (conversations_list (final r));
               output_file := output_file st;
               run_io := turns_io (final r) |} in
          match r with
          | Raised e _ => Raised e st
          | Normal _ =>
              if decide ((conv_idx + 1) `mod` 10 = 0)
              then save (say PrintAutoSave st)
              else Normal st
          end
      end
  end
  end.

(** Line 91. *)
Fixpoint conversation_loop (timeout end_index : Z) (indices : list Z)
  (st : state World) : result (state World) :=
  match indices with
  | [] => Normal st
  | conv_idx :: indices' =>
      match conversation_body timeout end_index conv_idx st with
      | Normal st' => conversation_loop timeout end_index indices' st'
      | Raised e st' => Raised e st'
      end
  end.

(** Lines 84 and 85. *)
Definition effective_end (total_conversations : Z) (end_index : option Z) : Z :=
  match end_index with
  | None => total_conversations
  | Some e => if decide (e > total_conversations) then total_conversations else e
  end.

(** Lines 76 to 88, after [json.load]: the state in which the loop over
    the dataset starts. *)
Definition begin_run (input : json) (total_conversations start_index end_index : Z)
  (w : World) : state World :=
  let st :=
    {| data := input; output_file := None;
       run_io := print PrintReading {| world := w; console := [] |} |} in
  let st := say (PrintTotal total_conversations) st in
  say PrintRule
    (say (PrintRange start_index (end_index - 1) (end_index - start_index)) st).

(** Lines 134 to 138. *)
Definition finish_run (start_index end_index : Z) (st : state World)
  : result (state World) :=
  match save (say PrintFinished st) with
  | Normal st => Normal (say (PrintProcessed (end_index - start_index)) st)
  | Raised e st => Raised e st
  end.

(** [process_conversations], from the dataset that [json.load] returned. *)
Definition process_conversations (input : json) (timeout start_index : Z)
  (end_index : option Z) (w : World) : result (state World) :=
  match py_len input with
  | None =>
      Raised TypeError
        {| data := input; output_file := None;
           run_io := print PrintReading {| world := w; console := [] |} |}
  | Some total_conversations =>
      let end_index := effective_end total_conversations end_index in
      match
        conversation_loop timeout end_index
          (py_range start_index end_index 1)
          (begin_run input total_conversations start_index end_index w)
      with
      | Raised e st => Raised e st
      | Normal st => finish_run start_index end_index st
      end
  end.

End Loop.

(** ** A small environment to run the model on *)

(** A shell that knows three commands: [echo hi] prints, [sleep 5] runs
    past any timeout below 5 seconds, [false] fails silently; everything
    else is reported by the shell on standard error with status 127. A
    command that is not text makes [subprocess.run] raise. The world
    counts the processes started. *)
Definition demo_run (w : nat) (command : json) (timeout : Z)
  : run_result * nat :=
  match command with
  | JStr c =>
      if decide (c = lit "echo hi") then (Completed (lit "hi" ++ [10]%N) [] 0, S w)
      else if decide (c = lit "sleep 5") then
        if decide (timeout < 5) then (TimeoutExpired, S w)
        else (Completed [] [] 0, S w)
      else if decide (c = lit "false") then (Completed [] [] 1, S w)
      else (Completed [] (lit "sh: 1: " ++ c ++ lit ": not found" ++ [10]%N) 127, S w)
  | _ => (OtherException (lit "expected str"), w)
  end.

Definition turn_fields (from value : string) : dict :=
  [(lit "from", JStr (lit from)); (lit "value", JStr (lit value))].

Definition turn (from value : string) : json := JObj (turn_fields from value).

Definition conversation (turns : list json) : json :=
  JObj [(lit "id", JNumber (lit "7")); (lit "conversations", JArr turns)].

(** Two pairs, the first with its tags the wrong way round. *)
Definition demo_turns : list json :=
  [turn "gpt" "a"; turn "human" "echo hi"; turn "human" "echo hi"; turn "gpt" ""].

(** Three conversations: one pair; a pair, a pair out of order and a turn
    alone; one pair whose gpt turn already has a value. *)
Definition demo_dataset : list json :=
  [conversation [turn "human" "echo hi"; turn "gpt" ""];
   conversation [turn "human" "false"; turn "gpt" "old";
                 turn "gpt" "x"; turn "human" "echo hi";
                 turn "human" "echo hi"];
   conversation [turn "human" "echo hi"; turn "gpt" "old"]].

(** Eleven conversations, for a run that reaches its first checkpoint. *)
Definition demo_long : list json :=
  replicate 10 (conversation [turn "human" "echo hi"; turn "gpt" ""])
  ++ [conversation [turn "human" "sleep 5"; turn "gpt" ""]].

Definition demo_io : io nat := {| world := 0%nat; console := [] |}.

(** What [demo_run] gives, as a function of the command alone. *)
Definition demo_outcome (command : json) (timeout : Z) : run_result :=
  (demo_run 0%nat command timeout).1.


(** * Vocabulary of the properties *)

Definition is_space (c : N) : Prop := py_isspace c = true.

(** [r] is [s] without its leading and trailing whitespace. *)
Definition trimmed_of (s r : pystr) : Prop :=
  ∃ l t, s = l ++ r ++ t ∧ Forall is_space l ∧ Forall is_space t
         ∧ (∀ c, head r = Some c → ¬ is_space c)
         ∧ (∀ c, last r = Some c → ¬ is_space c).

(** The streams of a completed process put together, in the spec's words:
    standard error after standard output with a newline between them when
    both are present, otherwise the one that is present. *)
Definition joined_streams (stdout stderr : pystr) : pystr :=
  match stdout, stderr with
  | _, [] => stdout
  | [], _ => stderr
  | _, _ => stdout ++ [10]%N ++ stderr
  end.

(** ** The loop over the turns, seen on the turns themselves

    [pair_loop] addresses the turns through indices into the list held in
    its state. [walk_pairs] is the same computation by recursion on the
    list, two turns at a time; the two are proved equal below, and the
    properties of the loop are then proved on the recursive form. *)

Definition set_value (gpt_entry : json) (output : pystr) : json :=
  match gpt_entry with
  | JObj g => JObj (dict_set (lit "value") (JStr output) g)
  | _ => gpt_entry
  end.

Definition pair_step {World} (run : World → json → Z → run_result * World)
  (timeout i : Z) (human_entry gpt_entry : json) (rn : Z) (s : io World)
  : exn + (json * Z * io World) :=
  match py_get human_entry (lit "from") JNull with
  | inl e => inl e
  | inr human_from =>
  if differs_from human_from (lit "human")
  then inr (gpt_entry, rn, print (PrintWarning i) s) else
  match py_get gpt_entry (lit "from") JNull with
  | inl e => inl e
  | inr gpt_from =>
  if differs_from gpt_from (lit "gpt")
  then inr (gpt_entry, rn, print (PrintWarning i) s) else
  match py_get human_entry (lit "value") (JStr []) with
  | inl e => inl e
  | inr command =>
      let s1 := print (PrintCommand (rn + 1) command) s in
      let '(output, w) := execute_command run (world s1) command timeout in
      inr (set_value gpt_entry output, rn + 1,
           print (PrintPreview (rn + 1) (preview_of output))
             {| world := w; console := console s1 |})
  end
  end
  end.

Definition map_result {A B} (f : A → B) (r : result A) : result B :=
  match r with
  | Normal a => Normal (f a)
  | Raised e a => Raised e (f a)
  end.

Definition prepend_pair {X Y} (h g : json) (r : list json * X * Y)
  : list json * X * Y :=
  let '(ts, x, y) := r in (h :: g :: ts, x, y).

Fixpoint walk_pairs {World} (run : World → json → Z → run_result * World)
  (timeout i : Z) (turns : list json) (rn : Z) (s : io World)
  : result (list json * Z * io World) :=
  match turns with
  | human_entry :: gpt_entry :: rest =>
      match pair_step run timeout i human_entry gpt_entry rn s with
      | inl e => Raised e (turns, rn, s)
      | inr (gpt_entry', rn', s') =>
          map_result (prepend_pair human_entry gpt_entry')
            (walk_pairs run timeout (i + 2) rest rn' s')
      end
  | _ => Normal (turns, rn, s)
  end.

Definition with_prefix {World} (pre : list json)
  (r : list json * Z * io World) : turns_state World :=
  let '(ts, rn, s) := r in
  {| conversations_list := JArr (pre ++ ts); round_num := rn; turns_io := s |}.

(** What [subprocess.run] gave back, without the exit status. *)
Definition forget_returncode (r : run_result) : run_result :=
  match r with
  | Completed stdout stderr _ => Completed stdout stderr 0
  | _ => r
  end.

(** The command of a human turn: [human_entry.get("value", "")]. *)
Definition command_of (h : dict) : json :=
  default (JStr []) (dict_lookup (lit "value") h).

(** The state after a valid pair [(h, g)] standing behind [pre] has been
    given [output] by a command that left the world [w]. *)
Definition after_pair {World} (pre : list json) (h g : dict) (rest : list json)
  (rn : Z) (s : io World) (output : pystr) (w : World) : turns_state World :=
  {| conversations_list :=
       JArr (pre ++ JObj h
                 :: JObj (dict_set (lit "value") (JStr output) g) :: rest);
     round_num := rn + 1;
     turns_io :=
       {| world := w;
          console := console s ++ [PrintCommand (rn + 1) (command_of h);
                                   PrintPreview (rn + 1) (preview_of output)] |} |}.

(** A turn pair that the loop executes: the first turn is tagged
    ["human"] and the second ["gpt"]. *)
Definition valid_pair (h g : dict) : Prop :=
  dict_lookup (lit "from") h = Some (JStr (lit "human"))
  ∧ dict_lookup (lit "from") g = Some (JStr (lit "gpt")).

(** The state in which [conversation_body] starts the loop over the turns. *)
Definition turns_start {World} (turns : list json) (s : io World)
  : turns_state World :=
  {| conversations_list := JArr turns; round_num := 0; turns_io := s |}.

(** ** What a run may change *)

(** The turns of a conversation after the loop: pair by pair, either both
    turns are what they were, or the pair is tagged human and gpt and the
    [value] of the gpt turn has been overwritten by a text. *)
Inductive turns_frame : list json → list json → Prop :=
  | frame_same turns : turns_frame turns turns
  | frame_skip h g rest rest' :
      turns_frame rest rest' →
      turns_frame (h :: g :: rest) (h :: g :: rest')
  | frame_exec (h g : dict) output rest rest' :
      valid_pair h g →
      turns_frame rest rest' →
      turns_frame (JObj h :: JObj g :: rest)
        (JObj h :: JObj (dict_set (lit "value") (JStr output) g) :: rest').

(** A conversation after the loop: untouched, or the same object with the
    list under [conversations] changed as [turns_frame] allows. *)
Definition conversation_frame (c c' : json) : Prop :=
  c' = c
  ∨ ∃ (d : dict) turns turns',
      c = JObj d
      ∧ dict_lookup (lit "conversations") d = Some (JArr turns)
      ∧ turns_frame turns turns'
      ∧ c' = JObj (dict_set (lit "conversations") (JArr turns') d).

(** The dataset: the conversations at the positions from [lo] to [hi - 1]
    may have changed as [conversation_frame] allows, all the others are
    what they were. *)
Definition dataset_frame (lo hi : Z) (convs convs' : list json) : Prop :=
  length convs' = length convs
  ∧ ∀ (p : nat) c, convs !! p = Some c →
      ∃ c', convs' !! p = Some c'
            ∧ (lo <= Z.of_nat p < hi → conversation_frame c c')
            ∧ (¬ lo <= Z.of_nat p < hi → c' = c).

(** The same, read field by field: every conversation keeps its keys in
    their order and all its fields but [conversations]; the list of turns
    keeps its length; every turn keeps all its fields but [value], its
    [from] in particular, and a turn that is not tagged gpt is what it
    was. *)
Definition turn_kept (t t' : dict) : Prop :=
  (∀ key, key ≠ lit "value" → dict_lookup key t' = dict_lookup key t)
  ∧ (dict_lookup (lit "from") t ≠ Some (JStr (lit "gpt")) → t' = t).

Definition turns_kept (turns turns' : list json) : Prop :=
  length turns' = length turns
  ∧ ∀ (j : nat) t, turns !! j = Some t →
      ∃ t', turns' !! j = Some t'
            ∧ (t' = t ∨ ∃ td td', t = JObj td ∧ t' = JObj td' ∧ turn_kept td td').

Definition fields_kept (convs convs' : list json) : Prop :=
  ∀ (p : nat) c, convs !! p = Some c →
    ∃ c', convs' !! p = Some c'
      ∧ (c' = c
         ∨ ∃ (d d' : dict) turns turns',
             c = JObj d ∧ c' = JObj d'
             ∧ d'.*1 = d.*1
             ∧ (∀ key, key ≠ lit "conversations" →
                       dict_lookup key d' = dict_lookup key d)
             ∧ dict_lookup (lit "conversations") d = Some (JArr turns)
             ∧ dict_lookup (lit "conversations") d' = Some (JArr turns')
             ∧ turns_kept turns turns').

(** The state a loop iteration ends in, however it ends. *)
Definition control_state {A} (c : control A) : A :=
  match c with
  | Next a | Break a | Throw _ a => a
  end.

(** The end of [process_conversations] after the loop over the dataset. *)
Definition and_finish {World} (start_index end_index : Z)
  (r : result (state World)) : result (state World) :=
  match r with
  | Raised e st => Raised e st
  | Normal st => finish_run start_index end_index st
  end.

(** Every dataset written to the output path is within the frame. *)
Definition file_within {World} (lo hi : Z) (convs : list json)
  (st : state World) : Prop :=
  ∀ out, output_file st = Some (Dumped out) →
    ∃ convs', out = JArr convs' ∧ dataset_frame lo hi convs convs'.

(** ** Datasets of the documented shape *)

Definition is_dict (x : json) : bool :=
  match x with JObj _ => true | _ => false end.

(** A conversation is an object whose [conversations], when present, is a
    list of objects. *)
Definition well_formed_conversation (c : json) : bool :=
  match c with
  | JObj d =>
      match dict_lookup (lit "conversations") d with
      | None => true
      | Some (JArr turns) => forallb is_dict turns
      | Some _ => false
      end
  | _ => false
  end.

Definition well_formed (convs : list json) : bool :=
  forallb well_formed_conversation convs.

(** ** Runs seen from outside *)

(** An environment without state: what a command gives depends on the
    command and the timeout only. *)
Definition pure_run (f : json → Z → run_result)
  : unit → json → Z → run_result * unit :=
  λ _ command timeout, (f command timeout, tt).

Definition forget_io {World} (s : io World) : io unit :=
  {| world := tt; console := console s |}.

Definition forget_turns {World} (st : turns_state World) : turns_state unit :=
  {| conversations_list := conversations_list st;
     round_num := round_num st;
     turns_io := forget_io (turns_io st) |}.

Definition forget_state {World} (st : state World) : state unit :=
  {| data := data st; output_file := output_file st;
     run_io := forget_io (run_io st) |}.

Definition map_control {A B} (f : A → B) (c : control A) : control B :=
  match c with
  | Next a => Next (f a)
  | Break a => Break (f a)
  | Throw e a => Throw e (f a)
  end.

(** What a run leaves behind: the exception if any, the dataset in memory,
    what is on the output path and the console. *)
Definition observation {World} (r : result (state World))
  : option exn * json * option file * list event :=
  (match r with Normal _ => None | Raised e _ => Some e end,
   data (final r), output_file (final r), console (run_io (final r))).

(** A conversation [c'] holds the results of the commands of [c]: in
    every pair of [c] tagged human and gpt, the value of the gpt turn is
    the output of the command of the human turn. *)
Definition pairs_executed {World} (run : World → json → Z → run_result * World)
  (timeout : Z) (c c' : json) : Prop :=
  ∀ (d : dict) turns (j : nat) (h g : dict),
    c = JObj d →
    dict_lookup (lit "conversations") d = Some (JArr turns) →
    turns !! (2 * j)%nat = Some (JObj h) →
    turns !! (2 * j + 1)%nat = Some (JObj g) →
    valid_pair h g →
    ∃ (d' : dict) turns' w output,
      c' = JObj d'
      ∧ dict_lookup (lit "conversations") d' = Some (JArr turns')
      ∧ output = (execute_command run w (command_of h) timeout).1
      ∧ turns' !! (2 * j + 1)%nat
        = Some (JObj (dict_set (lit "value") (JStr output) g)).

(** ** Further vocabulary *)

(** A text without whitespace at either end. *)
Definition trimmed (r : pystr) : Prop :=
  (∀ c, head r = Some c → ¬ is_space c) ∧ (∀ c, last r = Some c → ¬ is_space c).

(** [d] carries the tag [s] in its field [from]. *)
Definition tagged (d : dict) (s : string) : bool :=
  negb (differs_from (default JNull (dict_lookup (lit "from") d)) (lit s)).

(** The command that the loop runs for the pair [(h, g)], if it runs
    one: the [value] of an object tagged human in front of an object
    tagged gpt. *)
Definition pair_command (h g : json) : option json :=
  match h, g with
  | JObj hd, JObj gd =>
      if tagged hd "human" && tagged gd "gpt" then Some (command_of hd) else None
  | _, _ => None
  end.

(** The commands of a list of turns, pair by pair. *)
Fixpoint commands_of (turns : list json) : list json :=
  match turns with
  | h :: g :: rest =>
      match pair_command h g with
      | Some c => c :: commands_of rest
      | None => commands_of rest
      end
  | _ => []
  end.

Definition is_error {A B} (x : A + B) : bool :=
  match x with inl _ => true | inr _ => false end.

(** A pair that the loop can handle: the first turn is an object and,
    when it is tagged human, the second is an object too. *)
Definition pair_safe (h g : json) : bool :=
  match h with
  | JObj hd => if tagged hd "human" then is_dict g else true
  | _ => false
  end.

Fixpoint pairs_safe (turns : list json) : bool :=
  match turns with
  | h :: g :: rest => pair_safe h g && pairs_safe rest
  | _ => true
  end.

Definition is_warning (ev : event) : bool :=
  match ev with PrintWarning _ => true | _ => false end.

Definition is_command (ev : event) : bool :=
  match ev with PrintCommand _ _ => true | _ => false end.

Definition is_preview (ev : event) : bool :=
  match ev with PrintPreview _ _ => true | _ => false end.

(** The lines that announce the commands [cs], numbered after round [rn]. *)
Fixpoint command_lines (rn : Z) (cs : list json) : list event :=
  match cs with
  | [] => []
  | c :: cs' => PrintCommand (rn + 1) c :: command_lines (rn + 1) cs'
  end.

(** An environment that also records the calls it receives. *)
Definition traced {World} (run : World → json → Z → run_result * World)
  : World * list (json * Z) → json → Z → run_result * (World * list (json * Z)) :=
  λ '(w, calls) command timeout,
    let '(r, w') := run w command timeout in
    (r, (w', calls ++ [(command, timeout)])).

(** The commands of a conversation: those of the list under
    [conversations] when there is one. *)
Definition conversation_commands (c : json) : list json :=
  match c with
  | JObj d =>
      match dict_lookup (lit "conversations") d with
      | Some (JArr turns) => commands_of turns
      | _ => []
      end
  | _ => []
  end.

(** The conversation that [data[conv_idx]] denotes. *)
Definition conversation_at (convs : list json) (conv_idx : Z) : option json :=
  norm_index (Z.of_nat (length convs)) conv_idx ≫= (convs !!.).

(** The commands of the conversations that the indices denote, in the
    order of the indices. *)
Definition expected_commands (convs : list json) (indices : list Z) : list json :=
  indices ≫= (λ conv_idx,
    match conversation_at convs conv_idx with
    | Some c => conversation_commands c
    | None => []
    end).

Definition count_events (p : event → bool) (evs : list event) : nat :=
  length (List.filter p evs).

(** ** Two environments side by side *)

(** Two runs are alike when they have printed the same lines, hold the
    same data and are in worlds that [R] relates. *)
Definition io_alike {W1 W2} (R : W1 → W2 → Prop) (s1 : io W1) (s2 : io W2)
  : Prop :=
  console s1 = console s2 ∧ R (world s1) (world s2).

Definition turns_alike {W1 W2} (R : W1 → W2 → Prop)
  (st1 : turns_state W1) (st2 : turns_state W2) : Prop :=
  conversations_list st1 = conversations_list st2
  ∧ round_num st1 = round_num st2
  ∧ io_alike R (turns_io st1) (turns_io st2).

Definition state_alike {W1 W2} (R : W1 → W2 → Prop)
  (st1 : state W1) (st2 : state W2) : Prop :=
  data st1 = data st2
  ∧ output_file st1 = output_file st2
  ∧ io_alike R (run_io st1) (run_io st2).

Definition control_alike {A B} (P : A → B → Prop)
  (c1 : control A) (c2 : control B) : Prop :=
  match c1, c2 with
  | Next a, Next b | Break a, Break b => P a b
  | Throw e1 a, Throw e2 b => e1 = e2 ∧ P a b
  | _, _ => False
  end.

Definition result_alike {A B} (P : A → B → Prop)
  (r1 : result A) (r2 : result B) : Prop :=
  match r1, r2 with
  | Normal a, Normal b => P a b
  | Raised e1 a, Raised e2 b => e1 = e2 ∧ P a b
  | _, _ => False
  end.

(** Two datasets in which the conversations have the same commands. *)
Definition same_commands (convs convs' : list json) : Prop :=
  length convs' = length convs
  ∧ ∀ (p : nat) c, convs !! p = Some c →
      ∃ c', convs' !! p = Some c'
            ∧ conversation_commands c' = conversation_commands c.

(** ** Conversations on which the loop changes nothing *)

(** The text that a command gives in an environment without state. *)
Definition answer (f : json → Z → run_result) (command : json) (timeout : Z)
  : pystr :=
  (execute_command (pure_run f) tt command timeout).1.

(** Turns that hold the answers to their commands already. *)
Fixpoint turns_settled (f : json → Z → run_result) (timeout : Z)
  (turns : list json) : Prop :=
  match turns with
  | h :: g :: rest =>
      pair_safe h g = true
      ∧ (∀ c, pair_command h g = Some c → set_value g (answer f c timeout) = g)
      ∧ turns_settled f timeout rest
  | _ => True
  end.

Definition conversation_settled (f : json → Z → run_result) (timeout : Z)
  (c : json) : Prop :=
  match c with
  | JObj d =>
      match dict_lookup (lit "conversations") d with
      | None => True
      | Some (JArr turns) => turns_settled f timeout turns
      | Some cl =>
          match py_len cl with
          | Some n => n < 2
          | None => False
          end
      end
  | _ => False
  end.

Definition settled_at (f : json → Z → run_result) (timeout : Z)
  (convs : list json) (conv_idx : Z) : Prop :=
  ∃ p c, norm_index (Z.of_nat (length convs)) conv_idx = Some p
         ∧ convs !! p = Some c
         ∧ conversation_settled f timeout c.

(** ** The command line: [main]

    [argparse] is not modelled: [main] starts from the values that
    [parse_args] returns. The host tells whether the input path exists,
    what the operator does at the prompt and what [json.load] reads from
    the input path. [str.lower] is a parameter. *)

Record arguments : Type :=
  { arg_input : pystr; arg_output : pystr;
    arg_timeout : Z; arg_start : Z; arg_end : option Z }.

(** Lines 145 to 174: the values of the options that are not given. *)
Definition default_arguments : arguments :=
  {| arg_input := lit "conversations.json";
     arg_output := lit "conversations_with_output.json";
     arg_timeout := 30; arg_start := 0; arg_end := None |}.

(** What [input] gives: a line, a [KeyboardInterrupt], or an [EOFError]
    when the standard input has ended. *)
Inductive reply : Type :=
  | Answer (confirm : pystr)
  | KeyboardInterrupt
  | EndOfFile.

Record host (World : Type) : Type :=
  { input_exists : bool; operator : reply; loaded : json; host_world : World }.
Arguments input_exists {World} _.
Arguments operator {World} _.
Arguments loaded {World} _.
Arguments host_world {World} _.

(** The lines that [main] prints itself. *)
Inductive main_event : Type :=
  | PrintMissing (path : pystr)
  | PrintBanner (input output : pystr) (timeout : Z)
  | AskConfirmation
  | PrintCancelled (after_newline : bool).

(** How [main] ends: with [sys.exit], with the [EOFError] of the prompt,
    or with what [process_conversations] did. *)
Inductive ending (World : Type) : Type :=
  | Exit (status : Z) (shown : list main_event)
  | Unanswered (shown : list main_event)
  | Processed (shown : list main_event) (r : result (state World)).
Arguments Exit {World} status shown.
Arguments Unanswered {World} shown.
Arguments Processed {World} shown r.

(** Line 194: [confirm.lower() in ['yes', 'y']]. *)
Definition accepted (py_lower : pystr → pystr) (confirm : pystr) : bool :=
  bool_decide (py_lower confirm ∈ [lit "yes"; lit "y"]).

(** Lines 176 to 208. *)
Definition main {World} (run : World → json → Z → run_result * World)
  (py_lower : pystr → pystr) (args : arguments) (h : host World)
  : ending World :=
  if negb (input_exists h) then Exit 1 [PrintMissing (arg_input args)]
  else
    let shown :=
      [PrintBanner (arg_input args) (arg_output args) (arg_timeout args);
       AskConfirmation] in
    match operator h with
    | Answer confirm =>
        if accepted py_lower confirm
        then Processed shown
               (process_conversations run (loaded h) (arg_timeout args)
                  (arg_start args) (arg_end args) (host_world h))
        else Exit 0 (shown ++ [PrintCancelled false])
    | KeyboardInterrupt => Exit 0 (shown ++ [PrintCancelled true])
    | EndOfFile => Unanswered shown
    end.

(** The exit status of the process: an exception that nothing catches
    ends Python with status 1. *)
Definition exit_status {World} (x : ending World) : Z :=
  match x with
  | Exit status _ => status
  | Unanswered _ => 1
  | Processed _ (Normal _) => 0
  | Processed _ (Raised _ _) => 1
  end.

(** What [main] has left on the output path when it has ended, if it
    opened it. *)
Definition written {World} (x : ending World) : option file :=
  match x with
  | Processed _ r => output_file (final r)
  | _ => None
  end.

(** The calls that a recording environment has received when [main] has
    ended. *)
Definition calls_of {World} (w0 : World * list (json * Z))
  (x : ending (World * list (json * Z))) : list (json * Z) :=
  match x with
  | Processed _ r => (world (run_io (final r))).2
  | _ => w0.2
  end.

Definition confirmed {World} (py_lower : pystr → pystr) (h : host World) : bool :=
  input_exists h
  && match operator h with
     | Answer confirm => accepted py_lower confirm
     | _ => false
     end.

(** ** Instances for the properties above *)

(** A dataset whose second conversation is not an object. *)
Definition demo_broken : list json :=
  [conversation [turn "human" "echo hi"; turn "gpt" ""]; JNull].

Definition demo_host (confirm : string) : host nat :=
  {| input_exists := true; operator := Answer (lit confirm);
     loaded := JArr demo_dataset; host_world := 0%nat |}.

Definition demo_traced_host (confirm : string) : host (nat * list (json * Z)) :=
  {| input_exists := true; operator := Answer (lit confirm);
     loaded := JArr demo_dataset; host_world := (0%nat, []) |}.

(** A dataset written by a run, compared with the input field by field. *)
Definition kept (convs : list json) (x : json) : Prop :=
  ∃ convs', x = JArr convs'
            ∧ length convs' = length convs
            ∧ fields_kept convs convs'.

(** ** Text from the environment *)

(** What [subprocess.run] gave holds only text that UTF-8 can encode, as
    the text that a decoder produces does. *)
Definition outcome_encodable (r : run_result) : bool :=
  match r with
  | Completed stdout stderr _ => str_encodable stdout && str_encodable stderr
  | TimeoutExpired => true
  | OtherException message => str_encodable message
  end.

(** ** One conversation, from its turns *)

(** Lines 127 to 131 after the loop over the turns of the conversation
    [d] at position [p]: [r] is how the walk over the turns ended and
    [tail] the turns behind those it has walked. *)
Definition after_turns {World} (end_index conv_idx : Z) (st : state World)
  (convs : list json) (p : nat) (d : dict) (tail : list json)
  (r : result (list json * Z * io World)) : result (state World) :=
  let '(turns', _, s') := final r in
  let st2 :=
    {| data :=
         JArr (<[p := JObj (dict_set (lit "conversations")
                              (JArr (turns' ++ tail)) d)]> convs);
       output_file := output_file st;
       run_io := s' |} in
  match r with
  | Raised err _ => Raised err st2
  | Normal _ =>
      if decide ((conv_idx + 1) `mod` 10 = 0)
      then save (say PrintAutoSave st2)
      else Normal st2
  end.

(** The loop over the turns has ended, by itself or with a [break]: the
    iteration of the loop over the dataset ends without an exception or
    with the one of a checkpoint. *)
Definition turns_finished {World} (r : result (state World)) : Prop :=
  match r with
  | Normal _ | Raised UnicodeEncodeError _ => True
  | Raised _ _ => False
  end.

(** ** Datasets with a lone surrogate *)

(** A conversation whose [id] is the text that [json.load] reads from the
    escape for U+D800. *)
Definition surrogate_conversation : json :=
  JObj [(lit "id", JStr [55296]%N);
        (lit "conversations", JArr [turn "human" "echo hi"; turn "gpt" ""])].

(** Ten conversations of the documented shape, the first with that [id]. *)
Definition demo_surrogate : list json :=
  surrogate_conversation
  :: replicate 9 (conversation [turn "human" "echo hi"; turn "gpt" ""]).

(** A shell in which every command prints a line and succeeds. *)
Definition demo_ok (w : nat) (command : json) (timeout : Z) : run_result * nat :=
  (Completed (lit "ok" ++ [10]%N) [] 0, S w).

(** * Properties *)

(** ** Ranges *)

Lemma py_range_nil start stop step :
  0 < step → stop <= start → py_range start stop step = [].
Proof.
  intros Hstep Hle. unfold py_range. rewrite seqZ_nil; [done|].
  apply Z.lt_succ_r, Z.div_lt_upper_bound; lia.
Qed.

Lemma py_range_cons start stop step :
  0 < step → start < stop →
  py_range start stop step = start :: py_range (start + step) stop step.
Proof.
  intros Hstep Hlt. unfold py_range.
  replace (stop - start + step - 1) with ((stop - (start + step) + step - 1) + 1 * step) by lia.
  rewrite Z.div_add by lia.
  set (n := (stop - (start + step) + step - 1) `div` step).
  assert (0 <= n) by (apply Z.div_pos; lia).
  rewrite seqZ_cons by lia. rewrite fmap_cons. f_equal; [lia|].
  replace (Z.pred (n + 1)) with n by lia.
  rewrite <- (fmap_add_seqZ 1 0). rewrite <- list_fmap_compose.
  apply list_fmap_ext. intros _ k _. simpl. lia.
Qed.

Lemma elem_of_py_range_1 i start stop :
  i ∈ py_range start stop 1 → start <= i < stop.
Proof.
  unfold py_range. intros (k & -> & Hk)%list_elem_of_fmap.
  apply elem_of_seqZ in Hk. rewrite Z.div_1_r in Hk. lia.
Qed.

(** ** Trimming *)



Lemma lstrip_spec s :
  ∃ l, s = l ++ lstrip s ∧ Forall is_space l
       ∧ ∀ c, head (lstrip s) = Some c → ¬ is_space c.
Proof.
  induction s as [|c s (l & Hs & Hl & Hh)]; simpl.
  - exists []. repeat split; [constructor | discriminate].
  - destruct (py_isspace c) eqn:Hc.
    + exists (c :: l). split; [simpl; congruence|]. split; [by constructor|done].
    + exists []. repeat split; [constructor|].
      intros c' [= <-]. unfold is_space. congruence.
Qed.

Lemma rstrip_spec s :
  ∃ t, s = rstrip s ++ t ∧ Forall is_space t
       ∧ ∀ c, last (rstrip s) = Some c → ¬ is_space c.
Proof.
  destruct (lstrip_spec (reverse s)) as (l & Hs & Hl & Hh).
  exists (reverse l). unfold rstrip. split; [|split].
  - rewrite <- reverse_app, <- Hs. by rewrite reverse_involutive.
  - by apply Forall_reverse.
  - intros c. rewrite last_reverse. apply Hh.
Qed.

Lemma strip_trimmed s : trimmed_of s (strip s).
Proof.
  destruct (lstrip_spec s) as (l & Hs & Hl & Hh).
  destruct (rstrip_spec (lstrip s)) as (t & Hr & Ht & Hlast).
  exists l, t. unfold strip. repeat split; try done.
  - by rewrite <- Hr.
  - intros c Hc. apply Hh. rewrite Hr.
    destruct (rstrip (lstrip s)); [discriminate|done].
Qed.

Lemma lstrip_all_space s : Forall is_space s → lstrip s = [].
Proof. induction 1 as [|c s Hc _ IH]; simpl; [done|]. by rewrite Hc. Qed.

Lemma strip_all_space s : Forall is_space s → strip s = [].
Proof. intros H. unfold strip, rstrip. by rewrite (lstrip_all_space s H). Qed.


Lemma combine_output_joined stdout stderr :
  combine_output stdout stderr = strip (joined_streams stdout stderr).
Proof. by destruct stdout, stderr. Qed.

(** ** Dictionaries *)

Lemma dict_lookup_set key v d : dict_lookup key (dict_set key v d) = Some v.
Proof.
  induction d as [|[k v'] d IH]; simpl.
  - by rewrite decide_True.
  - destruct (decide (k = key)) as [->|Hne]; simpl.
    + by rewrite decide_True.
    + by rewrite decide_False.
Qed.

Lemma dict_lookup_set_ne key key' v d :
  key' ≠ key → dict_lookup key' (dict_set key v d) = dict_lookup key' d.
Proof.
  intros Hne. induction d as [|[k v'] d IH]; simpl.
  - case_decide; congruence.
  - destruct (decide (k = key)) as [->|Hk]; simpl.
    + case_decide; congruence.
    + by rewrite IH.
Qed.

Lemma dict_set_lookup_id key v d :
  dict_lookup key d = Some v → dict_set key v d = d.
Proof.
  induction d as [|[k v'] d IH]; simpl; [done|].
  destruct (decide (k = key)); [by intros [= ->]|].
  intros H. by rewrite IH.
Qed.

Lemma dict_set_keys key v d :
  is_Some (dict_lookup key d) → (dict_set key v d).*1 = d.*1.
Proof.
  induction d as [|[k v'] d IH]; [by intros [? [=]]|].
  cbn [dict_lookup dict_set]. destruct (decide (k = key)); [done|].
  intros H. rewrite !fmap_cons. f_equal. by apply IH.
Qed.

(** ** Results *)

Lemma map_result_compose {A B C} (f : A → B) (g : B → C) (r : result A) :
  map_result g (map_result f r) = map_result (g ∘ f) r.
Proof. by destruct r. Qed.

Lemma map_result_ext {A B} (f g : A → B) (r : result A) :
  (∀ a, f a = g a) → map_result f r = map_result g r.
Proof. intros H. destruct r; simpl; by rewrite H. Qed.

Lemma final_map_result {A B} (f : A → B) (r : result A) :
  final (map_result f r) = f (final r).
Proof. by destruct r. Qed.

(** ** Indexing *)

Lemma norm_index_nonneg n i :
  0 <= i < n → norm_index n i = Some (Z.to_nat i).
Proof. intros H. unfold norm_index. by rewrite decide_True. Qed.

Lemma py_getitem_app (pre : list json) x rest :
  py_getitem (JArr (pre ++ x :: rest)) (Z.of_nat (length pre)) = inr x.
Proof.
  simpl. rewrite norm_index_nonneg by (rewrite length_app; simpl; lia).
  simpl. rewrite Nat2Z.id. by rewrite list_lookup_middle.
Qed.

Lemma py_getitem_next (pre : list json) x y rest :
  py_getitem (JArr (pre ++ x :: y :: rest)) (Z.of_nat (length pre) + 1) = inr y.
Proof.
  replace (Z.of_nat (length pre) + 1) with (Z.of_nat (length (pre ++ [x])))
    by (rewrite length_app; simpl; lia).
  replace (pre ++ x :: y :: rest) with ((pre ++ [x]) ++ y :: rest)
    by (by rewrite <- app_assoc).
  apply py_getitem_app.
Qed.

(** ** The loop over the turns is the walk over the pairs *)

Section Turns.

Context {World : Type} (run : World → json → Z → run_result * World).

Lemma pair_body_at timeout (pre : list json) h g rest rn (s : io World) :
  pair_body run timeout (Z.of_nat (length pre))
    {| conversations_list := JArr (pre ++ h :: g :: rest);
       round_num := rn; turns_io := s |}
  = match pair_step run timeout (Z.of_nat (length pre)) h g rn s with
    | inl e =>
        Throw e {| conversations_list := JArr (pre ++ h :: g :: rest);
                   round_num := rn; turns_io := s |}
    | inr (g', rn', s') =>
        Next {| conversations_list := JArr (pre ++ h :: g' :: rest);
                round_num := rn'; turns_io := s' |}
    end.
Proof.
  unfold pair_body, pair_step.
  cbn [conversations_list round_num turns_io py_len].
  rewrite decide_False by (rewrite length_app; simpl; lia).
  rewrite py_getitem_app.
  rewrite (py_getitem_next pre h g rest).
  destruct (py_get h (lit "from") JNull) as [e|human_from]; [done|].
  destruct (differs_from human_from (lit "human")); [done|].
  destruct (py_get g (lit "from") JNull) as [e|gpt_from] eqn:Hg; [done|].
  destruct (differs_from gpt_from (lit "gpt")); [done|].
  destruct (py_get h (lit "value") (JStr [])) as [e|command]; [done|].
  destruct (execute_command run _ command timeout) as [output w].
  f_equal. f_equal.
  destruct g as [| | | | |gd]; try discriminate Hg.
  unfold store_value, set_value.
  replace (Z.to_nat (Z.of_nat (length pre) + 1)) with (length pre + 1)%nat by lia.
  rewrite lookup_app_r by lia.
  replace (length pre + 1 - length pre)%nat with 1%nat by lia.
  cbn [lookup list_lookup]. rewrite insert_app_r_alt by lia.
  by replace (length pre + 1 - length pre)%nat with 1%nat by lia.
Qed.

Lemma pair_loop_walk timeout (turns : list json) :
  ∀ (pre : list json) rn (s : io World),
    pair_loop run timeout
      (py_range (Z.of_nat (length pre))
         (Z.of_nat (length pre) + Z.of_nat (length turns)) 2)
      {| conversations_list := JArr (pre ++ turns);
         round_num := rn; turns_io := s |}
    = map_result (with_prefix pre)
        (walk_pairs run timeout (Z.of_nat (length pre)) turns rn s).
Proof.
  induction turns as [turns IH] using (induction_ltof1 _ (@length json)).
  unfold ltof in IH. intros pre rn s.
  destruct turns as [|h [|g rest]].
  - rewrite py_range_nil by (simpl; lia). done.
  - rewrite py_range_cons, py_range_nil by (simpl; lia).
    cbn [pair_loop walk_pairs map_result with_prefix].
    unfold pair_body. cbn [conversations_list py_len].
    by rewrite decide_True by (rewrite length_app; simpl; lia).
  - rewrite py_range_cons by (simpl; lia).
    cbn [pair_loop walk_pairs]. rewrite pair_body_at.
    destruct (pair_step run timeout _ h g rn s) as [e|[[g' rn'] s']]; [done|].
    specialize (IH rest ltac:(simpl; lia) (pre ++ [h; g']) rn' s').
    rewrite length_app in IH. simpl length in IH.
    replace (Z.of_nat (length pre + 2)) with (Z.of_nat (length pre) + 2) in IH by lia.
    rewrite <- app_assoc in IH. simpl app in IH.
    replace (Z.of_nat (length pre) + Z.of_nat (length (h :: g :: rest)))
      with (Z.of_nat (length pre) + 2 + Z.of_nat (length rest)) by (simpl; lia).
    rewrite IH, map_result_compose. apply map_result_ext.
    intros [[ts x] y]. simpl. by rewrite <- app_assoc.
Qed.

(** The loop as [conversation_body] starts it. *)
Lemma pair_loop_whole timeout (turns : list json) (s : io World) :
  pair_loop run timeout (py_range 0 (Z.of_nat (length turns)) 2)
    (turns_start turns s)
  = map_result (with_prefix []) (walk_pairs run timeout 0 turns 0 s).
Proof. apply (pair_loop_walk timeout turns [] 0 s). Qed.

End Turns.

(** ** Command execution *)

Lemma trimmed_of_unique s r : trimmed_of s r → r = strip s.
Proof.
  intros (l & t & -> & Hl & Ht & Hh & Hlast).
  assert (Hdrop : ∀ l x, Forall is_space l → lstrip (l ++ x) = lstrip x).
  { clear. intros l x. induction 1 as [|c l Hc _ IH]; simpl; [done|].
    by rewrite Hc. }
  assert (Hkeep : ∀ x, (∀ c, head x = Some c → ¬ is_space c) → lstrip x = x).
  { clear. intros [|c x] H; simpl; [done|].
    destruct (py_isspace c) eqn:Hc; [|done]. by destruct (H c). }
  unfold strip, rstrip. rewrite Hdrop by done.
  destruct r as [|c r].
  - simpl. rewrite (lstrip_all_space t Ht). done.
  - rewrite (Hkeep ((c :: r) ++ t)) by (simpl; intros c' [= <-]; by apply Hh).
    rewrite reverse_app, Hdrop by (by apply Forall_reverse).
    rewrite Hkeep; [by rewrite reverse_involutive|].
    intros c'. rewrite head_reverse. apply Hlast.
Qed.

Section Command.

Context {World : Type} (run : World → json → Z → run_result * World).

(** C1: when the subprocess completes within the timeout,
    [execute_command] returns the text of standard output and standard
    error put together (standard error after standard output and a
    newline, or alone when standard output is empty) without its leading
    and trailing whitespace; when nothing but whitespace was captured the
    result is the empty string. *)
Theorem execute_command_completed w command timeout stdout stderr returncode w' :
  run w command timeout = (Completed stdout stderr returncode, w') →
  ∃ r, execute_command run w command timeout = (r, w')
       ∧ trimmed_of (joined_streams stdout stderr) r
       ∧ (Forall is_space (joined_streams stdout stderr) → r = []).
Proof.
  intros Hrun. exists (strip (joined_streams stdout stderr)).
  unfold execute_command. rewrite Hrun, combine_output_joined.
  split; [done|]. split; [apply strip_trimmed | apply strip_all_space].
Qed.

Lemma pair_step_valid timeout i (h g : dict) rn (s : io World) output w :
  dict_lookup (lit "from") h = Some (JStr (lit "human")) →
  dict_lookup (lit "from") g = Some (JStr (lit "gpt")) →
  execute_command run (world s) (command_of h) timeout = (output, w) →
  pair_step run timeout i (JObj h) (JObj g) rn s
  = inr (JObj (dict_set (lit "value") (JStr output) g), rn + 1,
         turns_io (after_pair [] h g [] rn s output w)).
Proof.
  intros Hh Hg Hrun. unfold pair_step, py_get. rewrite Hh, Hg.
  cbn [default from_option id differs_from].
  rewrite !bool_decide_eq_true_2 by done. cbn [negb].
  fold (command_of h). unfold print. cbn [world console]. rewrite Hrun.
  unfold after_pair. cbn [set_value turns_io].
  by rewrite <- app_assoc.
Qed.

Lemma pair_body_valid timeout pre (h g : dict) rest rn (s : io World) output w :
  dict_lookup (lit "from") h = Some (JStr (lit "human")) →
  dict_lookup (lit "from") g = Some (JStr (lit "gpt")) →
  execute_command run (world s) (command_of h) timeout = (output, w) →
  pair_body run timeout (Z.of_nat (length pre))
    {| conversations_list := JArr (pre ++ JObj h :: JObj g :: rest);
       round_num := rn; turns_io := s |}
  = Next (after_pair pre h g rest rn s output w).
Proof.
  intros Hh Hg Hrun. rewrite pair_body_at.
  by rewrite (pair_step_valid _ _ _ _ _ _ _ _ Hh Hg Hrun).
Qed.


(** C6: when [subprocess.run] fails with an exception other than the
    timeout, [execute_command] returns the text made of an opening
    bracket, the six characters U+547D U+4EE4 U+6267 U+884C U+9519 U+8BEF,
    a colon, a space, the description of the exception and a closing
    bracket, and the loop stores that text in the gpt turn and goes on to
    the next pair; the exit status of a process that ran is not looked at:
    two outcomes that differ in the exit status only give the same text,
    which for a completed process is the trimmed text of its streams. *)
Theorem failure_is_reported timeout :
  (∀ w command message w',
     run w command timeout = (OtherException message, w') →
     execute_command run w command timeout
     = ([91; 21629; 20196; 25191; 34892; 38169; 35823; 58; 32]%N
        ++ message ++ [93]%N, w'))
  ∧ (∀ pre (h g : dict) rest rn (s : io World) message w',
       dict_lookup (lit "from") h = Some (JStr (lit "human")) →
       dict_lookup (lit "from") g = Some (JStr (lit "gpt")) →
       run (world s) (command_of h) timeout = (OtherException message, w') →
       pair_body run timeout (Z.of_nat (length pre))
         {| conversations_list := JArr (pre ++ JObj h :: JObj g :: rest);
            round_num := rn; turns_io := s |}
       = Next (after_pair pre h g rest rn s
                 ([91; 21629; 20196; 25191; 34892; 38169; 35823; 58; 32]%N
                  ++ message ++ [93]%N) w'))
  ∧ (∀ (run' : World → json → Z → run_result * World) w command,
       forget_returncode (run w command timeout).1
       = forget_returncode (run' w command timeout).1 →
       (execute_command run w command timeout).1
       = (execute_command run' w command timeout).1)
  ∧ (∀ w command stdout stderr returncode w',
       run w command timeout = (Completed stdout stderr returncode, w') →
       execute_command run w command timeout
       = (strip (joined_streams stdout stderr), w')).
Proof.
  assert (Hexec : ∀ w command message w',
    run w command timeout = (OtherException message, w') →
    execute_command run w command timeout
    = ([91; 21629; 20196; 25191; 34892; 38169; 35823; 58; 32]%N
       ++ message ++ [93]%N, w')).
  { intros w command message w' Hrun. unfold execute_command. by rewrite Hrun. }
  split; [done|]. split; [|split].
  - intros pre h g rest rn s message w' Hh Hg Hrun.
    apply pair_body_valid; auto.
  - intros run' w command. unfold execute_command.
    destruct (run w command timeout) as [[o e rc| |m] w1],
      (run' w command timeout) as [[o' e' rc'| |m'] w2]; simpl; congruence.
  - intros w command stdout stderr returncode w' Hrun.
    unfold execute_command. by rewrite Hrun, combine_output_joined.
Qed.

End Command.

(** ** The pairs of a conversation *)

Lemma pair_ind {A} (P : list A → Prop) :
  P [] → (∀ x, P [x]) → (∀ x y l, P l → P (x :: y :: l)) → ∀ l, P l.
Proof.
  intros Hnil Hone Hstep l.
  enough (P l ∧ ∀ x, P (x :: l)) by tauto.
  induction l as [|y l [IH1 IH2]]; split; auto.
Qed.

Lemma differs_from_false x s : differs_from x s = false → x = JStr s.
Proof.
  destruct x; simpl; try discriminate.
  intros H%negb_false_iff%bool_decide_eq_true. by subst.
Qed.

Lemma default_null_str (o : option json) s :
  default JNull o = JStr s → o = Some (JStr s).
Proof. destruct o; simpl; [by intros ->|discriminate]. Qed.

Section Pairs.

Context {World : Type} (run : World → json → Z → run_result * World).

Lemma pair_step_console timeout i h g rn (s : io World) g' rn' s' :
  pair_step run timeout i h g rn s = inr (g', rn', s') →
  ∃ evs, console s' = console s ++ evs.
Proof.
  unfold pair_step.
  destruct (py_get h (lit "from") JNull) as [e|hf]; [done|].
  destruct (differs_from hf (lit "human")).
  { intros [= <- <- <-]. by eexists. }
  destruct (py_get g (lit "from") JNull) as [e|gf]; [done|].
  destruct (differs_from gf (lit "gpt")).
  { intros [= <- <- <-]. by eexists. }
  destruct (py_get h (lit "value") (JStr [])) as [e|command]; [done|].
  destruct (execute_command run _ command timeout) as [output w].
  intros [= <- <- <-]. unfold print. cbn [console].
  rewrite <- app_assoc. by eexists.
Qed.

Lemma pair_step_invalid timeout i (h g : dict) rn (s : io World) :
  ¬ valid_pair h g →
  pair_step run timeout i (JObj h) (JObj g) rn s
  = inr (JObj g, rn, print (PrintWarning i) s).
Proof.
  intros Hinv. unfold pair_step, py_get.
  destruct (differs_from (default JNull (dict_lookup (lit "from") h)) _) eqn:Hh;
    [done|].
  destruct (differs_from (default JNull (dict_lookup (lit "from") g)) _) eqn:Hg;
    [done|].
  apply differs_from_false, default_null_str in Hh, Hg.
  by destruct Hinv.
Qed.

Lemma walk_pairs_even timeout (turns : list json) :
  ∀ i rn (s : io World) (j : nat),
    (final (walk_pairs run timeout i turns rn s)).1.1 !! (2 * j)%nat
    = turns !! (2 * j)%nat.
Proof.
  induction turns as [|x|h g rest IH] using pair_ind; intros i rn s j; try done.
  cbn [walk_pairs].
  destruct (pair_step run timeout i h g rn s) as [e|[[g' rn'] s']]; [done|].
  rewrite final_map_result.
  destruct (final (walk_pairs run timeout (i + 2) rest rn' s')) as [[ts x] y] eqn:Hf.
  destruct j as [|j]; [done|].
  replace (2 * S j)%nat with (S (S (2 * j))) by lia. simpl.
  specialize (IH (i + 2) rn' s' j). rewrite Hf in IH. apply IH.
Qed.

Lemma walk_pairs_console timeout (turns : list json) :
  ∀ i rn (s : io World),
    ∃ evs, console (final (walk_pairs run timeout i turns rn s)).2
           = console s ++ evs.
Proof.
  induction turns as [|x|h g rest IH] using pair_ind; intros i rn s;
    try (exists []; simpl; by rewrite app_nil_r).
  cbn [walk_pairs].
  destruct (pair_step run timeout i h g rn s) as [e|[[g' rn'] s']] eqn:Hstep;
    [exists []; simpl; by rewrite app_nil_r|].
  rewrite final_map_result.
  destruct (pair_step_console _ _ _ _ _ _ _ _ _ Hstep) as [evs1 Hevs1].
  destruct (IH (i + 2) rn' s') as [evs2 Hevs2].
  destruct (final (walk_pairs run timeout (i + 2) rest rn' s')) as [[ts x] y].
  simpl in *. exists (evs1 ++ evs2). by rewrite Hevs2, Hevs1, app_assoc.
Qed.

(** Every pair [(2j, 2j+1)] of a walk that finishes has been handled by
    [pair_step] at the index [i + 2j]. *)
Lemma walk_pairs_pairwise timeout (turns : list json) :
  ∀ i rn (s : io World) turns' rn' s' (j : nat) h g,
    walk_pairs run timeout i turns rn s = Normal (turns', rn', s') →
    turns !! (2 * j)%nat = Some h →
    turns !! (2 * j + 1)%nat = Some g →
    ∃ rn1 s1 g' rn2 s2 evs1 evs2,
      pair_step run timeout (i + 2 * Z.of_nat j) h g rn1 s1 = inr (g', rn2, s2)
      ∧ turns' !! (2 * j + 1)%nat = Some g'
      ∧ console s1 = console s ++ evs1
      ∧ console s' = console s2 ++ evs2.
Proof.
  induction turns as [|x|h0 g0 rest IH] using pair_ind;
    intros i rn s turns' rn' s' j h g Hwalk Hh Hg.
  - done.
  - destruct j; simpl in Hg; done.
  - cbn [walk_pairs] in Hwalk.
    destruct (pair_step run timeout i h0 g0 rn s) as [e|[[g0' rn0] s0]] eqn:Hstep;
      [done|].
    destruct (walk_pairs run timeout (i + 2) rest rn0 s0)
      as [[[ts x] y]|] eqn:Hrest; [|done].
    simpl in Hwalk. injection Hwalk as <- <- <-.
    destruct j as [|j].
    + simpl in Hh, Hg. injection Hh as <-. injection Hg as <-.
      destruct (walk_pairs_console timeout rest (i + 2) rn0 s0) as [evs2 Hevs2].
      rewrite Hrest in Hevs2. simpl in Hevs2.
      exists rn, s, g0', rn0, s0, [], evs2.
      rewrite Z.add_0_r, app_nil_r. done.
    + replace (2 * S j)%nat with (S (S (2 * j))) in Hh by lia.
      replace (2 * S j + 1)%nat with (S (S (2 * j + 1))) in * by lia.
      simpl in Hh, Hg.
      destruct (IH _ _ _ _ _ _ j h g Hrest Hh Hg)
        as (rn1 & s1 & g' & rn2 & s2 & evs1 & evs2 & Hs & Hl & Hc1 & Hc2).
      destruct (pair_step_console _ _ _ _ _ _ _ _ _ Hstep) as [evs0 Hevs0].
      exists rn1, s1, g', rn2, s2, (evs0 ++ evs1), evs2.
      replace (i + 2 * Z.of_nat (S j)) with (i + 2 + 2 * Z.of_nat j) by lia.
      repeat split; try done. by rewrite Hc1, Hevs0, app_assoc.
Qed.

Lemma walk_pairs_trailing timeout (turns : list json) t :
  ∀ i rn (s : io World),
    Nat.Even (length turns) →
    walk_pairs run timeout i (turns ++ [t]) rn s
    = map_result (λ r, (r.1.1 ++ [t], r.1.2, r.2))
        (walk_pairs run timeout i turns rn s).
Proof.
  induction turns as [|x|h g rest IH] using pair_ind; intros i rn s Heven.
  - done.
  - destruct Heven as [[|n] Hn]; simpl in Hn; lia.
  - cbn [app walk_pairs].
    destruct (pair_step run timeout i h g rn s) as [e|[[g' rn'] s']]; [done|].
    rewrite IH.
    + rewrite !map_result_compose. apply map_result_ext. by intros [[ts x] y].
    + destruct Heven as [n Hn]. exists (n - 1)%nat. simpl in Hn. lia.
Qed.

Lemma pair_step_dicts timeout i (h g : dict) rn (s : io World) :
  ∃ g' rn' s',
    pair_step run timeout i (JObj h) (JObj g) rn s = inr (g', rn', s')
    ∧ is_dict g' = true.
Proof.
  unfold pair_step, py_get.
  destruct (differs_from (default JNull (dict_lookup (lit "from") h)) _);
    [by eexists _, _, _|].
  destruct (differs_from (default JNull (dict_lookup (lit "from") g)) _);
    [by eexists _, _, _|].
  destruct (execute_command run _ _ timeout) as [output w].
  by eexists _, _, _.
Qed.

Lemma walk_pairs_dicts timeout (turns : list json) :
  ∀ i rn (s : io World),
    forallb is_dict turns = true →
    ∃ ts rn' s',
      walk_pairs run timeout i turns rn s = Normal (ts, rn', s')
      ∧ forallb is_dict ts = true.
Proof.
  induction turns as [|x|h g rest IH] using pair_ind; intros i rn s Hwf;
    try (by eexists _, _, _).
  cbn [forallb] in Hwf. apply andb_true_iff in Hwf as [Hh Hwf].
  apply andb_true_iff in Hwf as [Hg Hwf].
  destruct h as [| | | | |hd]; try discriminate Hh.
  destruct g as [| | | | |gd]; try discriminate Hg.
  cbn [walk_pairs].
  destruct (pair_step_dicts timeout i hd gd rn s) as (g' & rn' & s' & -> & Hg').
  destruct (IH (i + 2) rn' s' Hwf) as (ts & rn'' & s'' & -> & Hts).
  eexists _, _, _. split; [done|]. simpl. by rewrite Hg', Hts.
Qed.

Lemma walk_pairs_executed timeout (turns : list json) i rn (s : io World)
    turns' rn' s' (j : nat) (h g : dict) :
  walk_pairs run timeout i turns rn s = Normal (turns', rn', s') →
  turns !! (2 * j)%nat = Some (JObj h) →
  turns !! (2 * j + 1)%nat = Some (JObj g) →
  valid_pair h g →
  ∃ w output,
    output = (execute_command run w (command_of h) timeout).1
    ∧ turns' !! (2 * j + 1)%nat
      = Some (JObj (dict_set (lit "value") (JStr output) g)).
Proof.
  intros Hwalk Hh Hg [Hvh Hvg].
  destruct (walk_pairs_pairwise timeout turns _ _ _ _ _ _ j _ _ Hwalk Hh Hg)
    as (rn3 & s3 & g3 & rn4 & s4 & evs3 & evs4 & Hs3 & Hl3 & _).
  destruct (execute_command run (world s3) (command_of h) timeout)
    as [output w] eqn:Hexec.
  rewrite (pair_step_valid run _ _ _ _ _ _ _ _ Hvh Hvg Hexec) in Hs3.
  injection Hs3 as <- <- <-.
  exists (world s3), output. by rewrite Hexec.
Qed.

End Pairs.


(** ** Frames *)

Lemma turns_frame_length turns turns' :
  turns_frame turns turns' → length turns' = length turns.
Proof. induction 1; simpl; congruence. Qed.

Lemma turns_frame_invalid turns turns' :
  turns_frame turns turns' →
  ∀ (k : nat) (h g : dict),
    turns !! (2 * k)%nat = Some (JObj h) →
    turns !! (2 * k + 1)%nat = Some (JObj g) →
    ¬ valid_pair h g →
    turns' !! (2 * k + 1)%nat = Some (JObj g).
Proof.
  induction 1 as [turns|h0 g0 rest rest' _ IH|h0 g0 output rest rest' Hv _ IH];
    intros k h g Hh Hg Hinv; [done| |].
  - destruct k as [|k]; [done|].
    replace (2 * S k)%nat with (S (S (2 * k))) in Hh by lia.
    replace (2 * S k + 1)%nat with (S (S (2 * k + 1))) in * by lia.
    simpl in *. by eapply IH.
  - destruct k as [|k].
    + simpl in Hh, Hg. injection Hh as <-. injection Hg as <-. by destruct Hinv.
    + replace (2 * S k)%nat with (S (S (2 * k))) in Hh by lia.
      replace (2 * S k + 1)%nat with (S (S (2 * k + 1))) in * by lia.
      simpl in *. by eapply IH.
Qed.

Lemma turn_kept_set (g : dict) output :
  dict_lookup (lit "from") g = Some (JStr (lit "gpt")) →
  turn_kept g (dict_set (lit "value") (JStr output) g).
Proof.
  intros Hg. split; [|congruence].
  intros key Hkey. by apply dict_lookup_set_ne.
Qed.

Lemma turns_frame_kept turns turns' :
  turns_frame turns turns' → turns_kept turns turns'.
Proof.
  intros Hf. split; [by apply turns_frame_length|].
  induction Hf as [turns|h g rest rest' _ IH|h g output rest rest' [_ Hg] _ IH];
    intros j t Ht.
  - exists t. auto.
  - destruct j as [|[|j]]; simpl in *; eauto.
  - destruct j as [|[|j]]; simpl in *; eauto.
    injection Ht as <-. eexists. split; [done|]. right.
    eexists _, _. split; [done|]. split; [done|]. by apply turn_kept_set.
Qed.

Lemma conversation_frame_kept (convs convs' : list json) lo hi :
  dataset_frame lo hi convs convs' → fields_kept convs convs'.
Proof.
  intros [_ Hf] p c Hc. destruct (Hf p c Hc) as (c' & Hc' & Hin & Hout).
  exists c'. split; [done|].
  destruct (decide (lo <= Z.of_nat p < hi)) as [Hp|Hp]; [|left; auto].
  destruct (Hin Hp) as [->|(d & turns & turns' & -> & Hl & Ht & ->)]; [by left|].
  right. exists d, (dict_set (lit "conversations") (JArr turns') d), turns, turns'.
  repeat split; try done.
  - by apply dict_set_keys.
  - intros key Hkey. by apply dict_lookup_set_ne.
  - apply dict_lookup_set.
  - by apply turns_frame_length.
  - by apply turns_frame_kept.
Qed.

Lemma dataset_frame_refl lo hi convs : dataset_frame lo hi convs convs.
Proof. split; [done|]. intros p c Hc. exists c. repeat split; auto. by left. Qed.

Lemma dataset_frame_mono lo hi hi' convs convs' :
  hi <= hi' → dataset_frame lo hi convs convs' → dataset_frame lo hi' convs convs'.
Proof.
  intros Hle [Hlen Hf]. split; [done|]. intros p c Hc.
  destruct (Hf p c Hc) as (c' & Hc' & Hin & Hout). exists c'.
  split; [done|]. split.
  - intros Hp. destruct (decide (lo <= Z.of_nat p < hi)); [auto|].
    left. auto.
  - intros Hp. apply Hout. lia.
Qed.

Section Frames.

Context {World : Type} (run : World → json → Z → run_result * World).

Lemma pair_step_cases timeout i h g rn (s : io World) g' rn' s' :
  pair_step run timeout i h g rn s = inr (g', rn', s') →
  g' = g
  ∨ ∃ (hd gd : dict) output,
      h = JObj hd ∧ g = JObj gd ∧ valid_pair hd gd
      ∧ g' = JObj (dict_set (lit "value") (JStr output) gd).
Proof.
  unfold pair_step.
  destruct (py_get h (lit "from") JNull) as [e|hf] eqn:Hh; [done|].
  destruct (differs_from hf (lit "human")) eqn:Hhf.
  { intros [= <- <- <-]. by left. }
  destruct (py_get g (lit "from") JNull) as [e|gf] eqn:Hg; [done|].
  destruct (differs_from gf (lit "gpt")) eqn:Hgf.
  { intros [= <- <- <-]. by left. }
  destruct (py_get h (lit "value") (JStr [])) as [e|command]; [done|].
  destruct (execute_command run _ command timeout) as [output w].
  intros [= <- <- <-]. right.
  destruct h as [| | | | |hd]; try discriminate Hh.
  destruct g as [| | | | |gd]; try discriminate Hg.
  simpl in Hh, Hg. injection Hh as <-. injection Hg as <-.
  apply differs_from_false, default_null_str in Hhf, Hgf.
  by exists hd, gd, output.
Qed.

Lemma pair_step_error timeout i h g rn (s : io World) e :
  pair_step run timeout i h g rn s = inl e → e = AttributeError.
Proof.
  unfold pair_step, py_get.
  repeat case_match; intros; simplify_eq; done.
Qed.

Lemma walk_pairs_frame timeout (turns : list json) :
  ∀ i rn (s : io World),
    turns_frame turns (final (walk_pairs run timeout i turns rn s)).1.1.
Proof.
  induction turns as [|x|h g rest IH] using pair_ind; intros i rn s;
    try apply frame_same.
  cbn [walk_pairs].
  destruct (pair_step run timeout i h g rn s) as [e|[[g' rn'] s']] eqn:Hstep;
    [apply frame_same|].
  rewrite final_map_result. specialize (IH (i + 2) rn' s').
  destruct (final (walk_pairs run timeout (i + 2) rest rn' s')) as [[ts x] y].
  simpl in *.
  destruct (pair_step_cases _ _ _ _ _ _ _ _ _ Hstep)
    as [->|(hd & gd & output & -> & -> & Hv & ->)].
  - by apply frame_skip.
  - by apply frame_exec.
Qed.

Lemma walk_pairs_error timeout (turns : list json) :
  ∀ i rn (s : io World) e x,
    walk_pairs run timeout i turns rn s = Raised e x → e = AttributeError.
Proof.
  induction turns as [|x|h g rest IH] using pair_ind; intros i rn s e y; try done.
  cbn [walk_pairs].
  destruct (pair_step run timeout i h g rn s) as [e'|[[g' rn'] s']] eqn:Hstep.
  - intros [= <- _]. by eapply pair_step_error.
  - destruct (walk_pairs run timeout (i + 2) rest rn' s') eqn:Hrest; [done|].
    simpl. intros [= <- _]. by eapply IH.
Qed.

End Frames.

(** ** Writing the dataset *)

Lemma data_save {World} (st : state World) : data (final (save st)) = data st.
Proof. unfold save. by destruct (encodable (data st)). Qed.

Lemma run_io_save {World} (st : state World) :
  run_io (final (save st)) = run_io st.
Proof. unfold save. by destruct (encodable (data st)). Qed.

Lemma save_normal {World} (st st' : state World) :
  save st = Normal st' →
  encodable (data st) = true
  ∧ st' = {| data := data st; output_file := Some (Dumped (data st));
             run_io := run_io st |}.
Proof. unfold save. destruct (encodable (data st)); by intros [= <-]. Qed.

Lemma save_raised {World} (st st' : state World) err :
  save st = Raised err st' →
  err = UnicodeEncodeError
  ∧ encodable (data st) = false
  ∧ st' = {| data := data st; output_file := Some (Truncated (data st));
             run_io := run_io st |}.
Proof. unfold save. destruct (encodable (data st)); by intros [= <- <-]. Qed.

Lemma save_encodable {World} (st : state World) :
  encodable (data st) = true →
  save st = Normal {| data := data st; output_file := Some (Dumped (data st));
                      run_io := run_io st |}.
Proof. unfold save. by intros ->. Qed.

Lemma is_normal_save {World} (st : state World) :
  is_normal (save st) = encodable (data st).
Proof. unfold save. by destruct (encodable (data st)). Qed.

(** ** One conversation *)

Lemma json_obj_dec c : (∃ d, c = JObj d) ∨ (∀ d, c ≠ JObj d).
Proof. destruct c; eauto; by right. Qed.

Lemma json_arr_dec c : (∃ l, c = JArr l) ∨ (∀ l, c ≠ JArr l).
Proof. destruct c; eauto; by right. Qed.

Section Conversation.

Context {World : Type} (run : World → json → Z → run_result * World).

Lemma pair_body_not_array timeout i (st : turns_state World) :
  (∀ l, conversations_list st ≠ JArr l) →
  conversations_list (control_state (pair_body run timeout i st))
  = conversations_list st.
Proof.
  intros Hna. unfold pair_body. repeat case_match; simpl; try done.
  unfold store_value. destruct (conversations_list st); try done.
  by destruct (Hna items).
Qed.

(** On a value under [conversations] that has a length but is not a list
    ([str] or [dict]) the loop ends in its first iteration. *)
Lemma pair_loop_not_array timeout cl n (s : io World) :
  py_len cl = Some n →
  (∀ l, cl ≠ JArr l) →
  let st := {| conversations_list := cl; round_num := 0; turns_io := s |} in
  let r := pair_loop run timeout (py_range 0 n 2) st in
  r = Normal st ∨ r = Raised AttributeError st ∨ r = Raised KeyError st.
Proof.
  intros Hlen Hna st r. subst r.
  destruct (decide (n <= 0)) as [Hn|Hn].
  { rewrite py_range_nil by lia. by left. }
  rewrite py_range_cons by lia. cbn [pair_loop].
  unfold pair_body. cbn [st conversations_list]. rewrite Hlen.
  destruct (decide (0 + 1 >= n)); [by left|].
  destruct cl as [| | |str|l|d]; try discriminate Hlen.
  - injection Hlen as <-. right. left.
    destruct str as [|c0 [|c1 str]]; try (simpl in *; lia).
    unfold py_getitem. rewrite !norm_index_nonneg by (simpl length; lia).
    done.
  - by destruct (Hna l).
  - right. right. done.
Qed.

Lemma conversation_body_array timeout e conv_idx (st : state World)
    (convs : list json) p (d : dict) :
  data st = JArr convs →
  norm_index (Z.of_nat (length convs)) conv_idx = Some p →
  convs !! p = Some (JObj d) →
  conversation_body run timeout e conv_idx st
  = let cl := default (JArr []) (dict_lookup (lit "conversations") d) in
    let st1 := say (PrintConversation (conv_idx + 1) e) st in
    match py_len cl with
    | None => Raised TypeError st1
    | Some n =>
        let r := pair_loop run timeout (py_range 0 n 2)
                   {| conversations_list := cl; round_num := 0;
                      turns_io := run_io st1 |} in
        let st2 :=
          {| data :=
               match dict_lookup (lit "conversations") d with
               | Some _ =>
                   JArr (<[p := JObj (dict_set (lit "conversations")
                                        (conversations_list (final r)) d)]> convs)
               | None => JArr convs
               end;
             output_file := output_file st;
             run_io := turns_io (final r) |} in
        match r with
        | Raised err _ => Raised err st2
        | Normal _ =>
            if decide ((conv_idx + 1) `mod` 10 = 0)
            then save (say PrintAutoSave st2)
            else Normal st2
        end
    end.
Proof.
  intros Hdata Hp Hc. unfold conversation_body, py_getitem.
  rewrite Hdata, Hp. cbn [mbind option_bind]. rewrite Hc.
  cbn [py_get]. destruct (py_len _) as [n|]; [|done].
  unfold write_back. cbn [say data output_file run_io].
  rewrite Hdata, Hp, Hc. cbv zeta.
  by destruct (dict_lookup (lit "conversations") d).
Qed.

(** A conversation that is not reached. *)
Lemma conversation_body_stuck timeout e conv_idx (st : state World)
    (convs : list json) :
  data st = JArr convs →
  (∀ p (d : dict),
     norm_index (Z.of_nat (length convs)) conv_idx = Some p →
     convs !! p ≠ Some (JObj d)) →
  ∃ err, conversation_body run timeout e conv_idx st = Raised err st
         ∧ (err = IndexError
            → norm_index (Z.of_nat (length convs)) conv_idx = None).
Proof.
  intros Hdata Hno. unfold conversation_body, py_getitem. rewrite Hdata.
  destruct (norm_index _ conv_idx) as [p|] eqn:Hp; cbn [mbind option_bind].
  - destruct (convs !! p) as [c|] eqn:Hc.
    + destruct c as [| | | | |d]; try (by exists AttributeError).
      by destruct (Hno p d).
    + apply lookup_ge_None in Hc. unfold norm_index in Hp.
      repeat case_decide; simplify_eq; lia.
  - by exists IndexError.
Qed.

Lemma norm_index_lt n i p : norm_index n i = Some p → Z.of_nat p < n.
Proof. unfold norm_index. repeat case_decide; intros; simplify_eq; lia. Qed.

(** What one iteration of the loop over the dataset does to the data. *)
Lemma conversation_body_frame timeout e conv_idx (st : state World)
    (convs : list json) :
  data st = JArr convs →
  ∃ convs',
    data (final (conversation_body run timeout e conv_idx st)) = JArr convs'
    ∧ length convs' = length convs
    ∧ ∀ (p : nat) c, convs !! p = Some c →
        ∃ c', convs' !! p = Some c'
              ∧ (norm_index (Z.of_nat (length convs)) conv_idx = Some p
                 → conversation_frame c c')
              ∧ (norm_index (Z.of_nat (length convs)) conv_idx ≠ Some p
                 → c' = c).
Proof.
  intros Hdata.
  assert (Hsame : ∀ dat : json, dat = JArr convs →
    ∃ convs', dat = JArr convs' ∧ length convs' = length convs
      ∧ ∀ (p : nat) c, convs !! p = Some c →
          ∃ c', convs' !! p = Some c'
            ∧ (norm_index (Z.of_nat (length convs)) conv_idx = Some p
               → conversation_frame c c')
            ∧ (norm_index (Z.of_nat (length convs)) conv_idx ≠ Some p → c' = c)).
  { intros dat Hr. exists convs. repeat split; [done|]. intros p c Hc.
    exists c. repeat split; auto. by left. }
  destruct (norm_index (Z.of_nat (length convs)) conv_idx) as [p|] eqn:Hp.
  2:{ destruct (conversation_body_stuck timeout e conv_idx st convs Hdata)
        as (err & -> & _); [intros ? ?; by rewrite Hp|]. by apply Hsame. }
  destruct (convs !! p) as [c|] eqn:Hc.
  2:{ destruct (conversation_body_stuck timeout e conv_idx st convs Hdata)
        as (err & -> & _); [|by apply Hsame].
      intros p' d Hp'. rewrite Hp in Hp'. injection Hp' as <-. by rewrite Hc. }
  destruct (json_obj_dec c) as [[d ->]|Hnd].
  2:{ destruct (conversation_body_stuck timeout e conv_idx st convs Hdata)
        as (err & -> & _); [|by apply Hsame].
      intros p' d Hp'. rewrite Hp in Hp'. injection Hp' as <-. rewrite Hc.
      intros [= ->]. by destruct (Hnd d). }
  rewrite (conversation_body_array timeout e conv_idx st convs p d Hdata Hp Hc).
  cbv zeta.
  destruct (dict_lookup (lit "conversations") d) as [cl|] eqn:Hcl;
    cbn [default from_option id].
  2:{ apply Hsame. cbn [py_len length]. rewrite py_range_nil by lia.
      cbn [pair_loop]. destruct (decide _); by rewrite ?data_save. }
  destruct (py_len cl) as [n|] eqn:Hn; [|apply Hsame; simpl; by rewrite Hdata].
  set (s1 := run_io (say (PrintConversation (conv_idx + 1) e) st)).
  destruct (json_arr_dec cl) as [[turns ->]|Hna'].
  - injection Hn as <-. fold (turns_start turns s1).
    rewrite (pair_loop_whole run timeout turns s1).
    assert (Hgoal : ∀ ts (dat : json),
      turns_frame turns ts →
      dat
      = JArr (<[p := JObj (dict_set (lit "conversations") (JArr ts) d)]> convs) →
      ∃ convs', dat = JArr convs'
        ∧ length convs' = length convs
        ∧ ∀ (q : nat) c, convs !! q = Some c →
            ∃ c'', convs' !! q = Some c''
              ∧ (Some p = Some q → conversation_frame c c'')
              ∧ (Some p ≠ Some q → c'' = c)).
    { intros ts dat Hts Hr. eexists. split; [exact Hr|].
      split; [by rewrite length_insert|].
      intros q c Hq. destruct (decide (q = p)) as [->|Hqp].
      - rewrite list_lookup_insert_eq by (by eapply lookup_lt_Some).
        eexists. split; [done|]. split; [|congruence].
        intros _. rewrite Hc in Hq. injection Hq as <-.
        right. by exists d, turns, ts.
      - rewrite list_lookup_insert_ne by done.
        exists c. split; [done|]. split; [congruence|done]. }
    pose proof (walk_pairs_frame run timeout turns 0 0 s1) as Hframe.
    destruct (walk_pairs run timeout 0 turns 0 s1) as [[[ts x] y]|err [[ts x] y]];
      cbn [map_result with_prefix final conversations_list turns_io app] in *;
      apply (Hgoal ts); try done.
    destruct (decide _); by rewrite ?data_save.
  - apply Hsame.
    assert (Hid : JArr (<[p := JObj (dict_set (lit "conversations") cl d)]> convs)
                  = JArr convs).
    { by rewrite (dict_set_lookup_id _ _ _ Hcl), list_insert_id. }
    destruct (pair_loop_not_array timeout cl n s1 Hn Hna') as [Hr|[Hr|Hr]];
      cbv zeta in Hr; fold s1; rewrite Hr;
      cbn [final conversations_list turns_io data]; rewrite ?Hid; try done.
    destruct (decide _); rewrite ?data_save; cbn [say data]; by rewrite ?Hid.
Qed.

(** The iteration on a conversation that holds a list of turns, from the
    walk over the turns. *)
Lemma conversation_body_walk timeout e conv_idx (st : state World)
    (convs : list json) p (d : dict) turns :
  data st = JArr convs →
  norm_index (Z.of_nat (length convs)) conv_idx = Some p →
  convs !! p = Some (JObj d) →
  dict_lookup (lit "conversations") d = Some (JArr turns) →
  conversation_body run timeout e conv_idx st
  = after_turns e conv_idx st convs p d []
      (walk_pairs run timeout 0 turns 0
         (print (PrintConversation (conv_idx + 1) e) (run_io st))).
Proof.
  intros Hdata Hp Hc Hcl.
  rewrite (conversation_body_array timeout e conv_idx st convs p d Hdata Hp Hc).
  cbv zeta. rewrite Hcl. cbn [default from_option id py_len say run_io].
  set (s1 := print (PrintConversation (conv_idx + 1) e) (run_io st)).
  fold (turns_start turns s1). rewrite (pair_loop_whole run timeout turns s1).
  unfold after_turns.
  destruct (walk_pairs run timeout 0 turns 0 s1) as [[[ts x] y]|err [[ts x] y]];
    cbn [map_result with_prefix final conversations_list turns_io app];
    by rewrite app_nil_r.
Qed.

Lemma data_after_turns e conv_idx (st : state World) convs p d tail r :
  data (final (after_turns e conv_idx st convs p d tail r))
  = JArr (<[p := JObj (dict_set (lit "conversations")
                         (JArr ((final r).1.1 ++ tail)) d)]> convs).
Proof.
  unfold after_turns.
  destruct r as [[[ts x] y]|err [[ts x] y]]; cbn [final fst snd]; [|done].
  destruct (decide _); by rewrite ?data_save.
Qed.

Lemma run_io_after_turns e conv_idx (st : state World) convs p d tail r :
  run_io (final (after_turns e conv_idx st convs p d tail r))
  = if is_normal r && bool_decide ((conv_idx + 1) `mod` 10 = 0)
    then print PrintAutoSave (final r).2
    else (final r).2.
Proof.
  unfold after_turns.
  destruct r as [[[ts x] y]|err [[ts x] y]];
    cbn [final fst snd is_normal andb]; [|done].
  destruct (decide _).
  - by rewrite bool_decide_eq_true_2, run_io_save by done.
  - by rewrite bool_decide_eq_false_2 by done.
Qed.

Lemma turns_finished_after_turns timeout e conv_idx (st : state World)
    convs p d tail turns i rn s :
  turns_finished
    (after_turns e conv_idx st convs p d tail (walk_pairs run timeout i turns rn s))
  ↔ is_normal (walk_pairs run timeout i turns rn s) = true.
Proof.
  unfold after_turns.
  destruct (walk_pairs run timeout i turns rn s)
    as [[[ts x] y]|err [[ts x] y]] eqn:Hwalk; cbn [final is_normal].
  - split; [done|]. intros _. destruct (decide _); [|done].
    unfold save. by destruct (encodable _).
  - apply walk_pairs_error in Hwalk as ->. done.
Qed.

End Conversation.

(** ** The pairing of the turns *)

Section PairClaims.

Context {World : Type} (run : World → json → Z → run_result * World).

(** C3: in the iteration of the loop over the dataset on a conversation
    whose turns [2k] and [2k+1] are not tagged exactly human and gpt, the
    pair is skipped. However the iteration ends, both turns are in the
    dataset as they were and no turn at an even position has been
    written. The loop over the turns finishes when all turns are objects;
    when it has finished, the warning for index [2k] has been printed
    after the header of the conversation, and the pairing has not moved:
    every pair [(2j, 2j+1)] tagged human and gpt, before or after the one
    skipped, holds the output of its command in its gpt turn. *)
Theorem invalid_pair_is_skipped timeout end_index conv_idx (st : state World)
    (convs : list json) (p : nat) (d : dict) (turns : list json)
    (k : nat) (h g : dict) :
  data st = JArr convs →
  norm_index (Z.of_nat (length convs)) conv_idx = Some p →
  convs !! p = Some (JObj d) →
  dict_lookup (lit "conversations") d = Some (JArr turns) →
  turns !! (2 * k)%nat = Some (JObj h) →
  turns !! (2 * k + 1)%nat = Some (JObj g) →
  ¬ valid_pair h g →
  let r := conversation_body run timeout end_index conv_idx st in
  ∃ turns',
    data (final r)
    = JArr (<[p := JObj (dict_set (lit "conversations") (JArr turns') d)]> convs)
    ∧ turns' !! (2 * k)%nat = Some (JObj h)
    ∧ turns' !! (2 * k + 1)%nat = Some (JObj g)
    ∧ (∀ j : nat, turns' !! (2 * j)%nat = turns !! (2 * j)%nat)
    ∧ (forallb is_dict turns = true → turns_finished r)
    ∧ (turns_finished r →
         ∃ evs,
           console (run_io (final r))
           = console (run_io st)
             ++ PrintConversation (conv_idx + 1) end_index :: evs
             ++ (if decide ((conv_idx + 1) `mod` 10 = 0)
                 then [PrintAutoSave] else [])
           ∧ PrintWarning (2 * Z.of_nat k) ∈ evs
           ∧ ∀ (j : nat) (h2 g2 : dict),
               turns !! (2 * j)%nat = Some (JObj h2) →
               turns !! (2 * j + 1)%nat = Some (JObj g2) →
               valid_pair h2 g2 →
               ∃ w output,
                 output = (execute_command run w (command_of h2) timeout).1
                 ∧ turns' !! (2 * j + 1)%nat
                   = Some (JObj (dict_set (lit "value") (JStr output) g2))).
Proof.
  intros Hdata Hp Hc Hcl Hh Hg Hinv r. subst r.
  rewrite (conversation_body_walk run timeout end_index conv_idx st convs p d
             turns Hdata Hp Hc Hcl).
  set (s1 := print (PrintConversation (conv_idx + 1) end_index) (run_io st)).
  pose proof (walk_pairs_frame run timeout turns 0 0 s1) as Hframe.
  pose proof (walk_pairs_even run timeout turns 0 0 s1) as Heven.
  exists (final (walk_pairs run timeout 0 turns 0 s1)).1.1.
  split; [by rewrite data_after_turns, app_nil_r|].
  split; [by rewrite Heven|].
  split; [by eapply turns_frame_invalid|].
  split; [done|]. split.
  - intros Hwf. apply turns_finished_after_turns.
    destruct (walk_pairs_dicts run timeout turns 0 0 s1 Hwf)
      as (ts & rn' & s' & -> & _). done.
  - intros Hfin. apply turns_finished_after_turns in Hfin.
    rewrite run_io_after_turns, Hfin. cbn [andb].
    destruct (walk_pairs run timeout 0 turns 0 s1) as [[[ts rn'] s']|] eqn:Hwalk;
      [|done].
    cbn [final fst snd].
    destruct (walk_pairs_pairwise run timeout turns _ _ _ _ _ _ k _ _ Hwalk Hh Hg)
      as (rn1 & s2 & g' & rn2 & s3 & evs1 & evs2 & Hs & Hl & Hc1 & Hc2).
    rewrite pair_step_invalid in Hs by done. injection Hs as <- <- <-.
    exists (evs1 ++ PrintWarning (2 * Z.of_nat k) :: evs2).
    split; [|split].
    + assert (Hs' : console s'
                = console (run_io st)
                  ++ PrintConversation (conv_idx + 1) end_index
                  :: evs1 ++ PrintWarning (2 * Z.of_nat k) :: evs2).
      { rewrite Hc2. unfold print at 1. cbn [console]. rewrite Hc1.
        unfold s1, print. cbn [console]. rewrite Z.add_0_l.
        rewrite <- !app_assoc. done. }
      destruct (decide _).
      * rewrite bool_decide_eq_true_2 by done. unfold print. cbn [console].
        rewrite Hs', <- app_assoc. done.
      * rewrite bool_decide_eq_false_2 by done. rewrite Hs'.
        by rewrite app_nil_r.
    + apply elem_of_app. right. apply elem_of_cons. by left.
    + intros j h2 g2 Hh2 Hg2 Hv.
      by eapply walk_pairs_executed.
Qed.

(** C7: the iteration of the loop over the dataset on a conversation that
    holds a list of turns handles the turns two at a time from the front:
    it ends as the walk over the pairs [(0, 1)], [(2, 3)], ... does, with
    the turns that the walk leaves. A turn left alone at the end is
    ignored: the iteration is the one given by the walk over the list
    without that turn, which stays where it is, whatever it is, with
    nothing printed and nothing raised for it. A conversation without the
    field [conversations] gets its header and nothing else: no pair, no
    command, no change, and no exception but the one a checkpoint after
    this conversation raises when the dataset cannot be written. *)
Theorem pairs_are_walked timeout end_index conv_idx (st : state World)
    (convs : list json) (p : nat) (d : dict) :
  data st = JArr convs →
  norm_index (Z.of_nat (length convs)) conv_idx = Some p →
  convs !! p = Some (JObj d) →
  let s1 := print (PrintConversation (conv_idx + 1) end_index) (run_io st) in
  let r := conversation_body run timeout end_index conv_idx st in
  (∀ turns,
     dict_lookup (lit "conversations") d = Some (JArr turns) →
     r = after_turns end_index conv_idx st convs p d []
           (walk_pairs run timeout 0 turns 0 s1))
  ∧ (∀ turns t,
       dict_lookup (lit "conversations") d = Some (JArr (turns ++ [t])) →
       Nat.Even (length turns) →
       r = after_turns end_index conv_idx st convs p d [t]
             (walk_pairs run timeout 0 turns 0 s1))
  ∧ (dict_lookup (lit "conversations") d = None →
     r = (let st1 := say (PrintConversation (conv_idx + 1) end_index) st in
          if decide ((conv_idx + 1) `mod` 10 = 0)
          then save (say PrintAutoSave st1) else Normal st1)
     ∧ data (final r) = data st
     ∧ run_io (final r)
       = (if decide ((conv_idx + 1) `mod` 10 = 0)
          then print PrintAutoSave s1 else s1)
     ∧ is_normal r
       = (if decide ((conv_idx + 1) `mod` 10 = 0)
          then encodable (data st) else true)
     ∧ ∀ err st', r = Raised err st' → err = UnicodeEncodeError).
Proof.
  intros Hdata Hp Hc s1 r. subst r. split; [|split].
  - intros turns Hcl. by apply conversation_body_walk.
  - intros turns t Hcl Heven.
    rewrite (conversation_body_walk run timeout end_index conv_idx st convs p d
               (turns ++ [t]) Hdata Hp Hc Hcl).
    fold s1. rewrite walk_pairs_trailing by done.
    unfold after_turns.
    destruct (walk_pairs run timeout 0 turns 0 s1) as [[[ts x] y]|err [[ts x] y]];
      cbn [map_result final fst snd]; by rewrite app_nil_r.
  - intros Hmiss.
    rewrite (conversation_body_array run timeout end_index conv_idx st convs p d
               Hdata Hp Hc).
    cbv zeta. rewrite Hmiss. cbn [default from_option id py_len length].
    rewrite py_range_nil by lia.
    cbn [pair_loop final conversations_list turns_io]. rewrite <- Hdata.
    assert (Hst : {| data := data st; output_file := output_file st;
                     run_io := run_io
                                 (say (PrintConversation (conv_idx + 1) end_index)
                                    st) |}
                  = say (PrintConversation (conv_idx + 1) end_index) st) by done.
    rewrite Hst. split; [done|].
    destruct (decide ((conv_idx + 1) `mod` 10 = 0)).
    + rewrite data_save, run_io_save, is_normal_save. cbn [say data run_io].
      repeat split; try done.
      intros err st' Hr. by apply save_raised in Hr as [-> _].
    + cbn [final say data run_io is_normal]. repeat split; done.
Qed.

End PairClaims.

(** ** The loop over the dataset *)

Lemma py_range_1 start stop : py_range start stop 1 = seqZ start (stop - start).
Proof.
  unfold py_range. rewrite Z.div_1_r.
  replace (stop - start + 1 - 1) with (stop - start) by lia.
  replace (seqZ start (stop - start)) with (seqZ (start + 0) (stop - start))
    by (f_equal; lia).
  rewrite <- (fmap_add_seqZ start 0).
  apply list_fmap_ext. intros _ k _. lia.
Qed.

Lemma py_range_split a b c :
  a <= b <= c → py_range a c 1 = py_range a b 1 ++ py_range b c 1.
Proof.
  intros H. rewrite !py_range_1.
  replace (c - a) with ((b - a) + (c - b)) by lia.
  rewrite seqZ_app by lia. do 2 f_equal. lia.
Qed.

Lemma norm_index_of_nonneg n i p :
  0 <= i → norm_index n i = Some p → Z.of_nat p = i.
Proof. unfold norm_index. repeat case_decide; intros; simplify_eq; lia. Qed.

Section Dataset.

Context {World : Type} (run : World → json → Z → run_result * World).

Lemma conversation_loop_app timeout e l1 l2 (st : state World) :
  conversation_loop run timeout e (l1 ++ l2) st
  = match conversation_loop run timeout e l1 st with
    | Normal st' => conversation_loop run timeout e l2 st'
    | Raised err st' => Raised err st'
    end.
Proof.
  revert st. induction l1 as [|i l1 IH]; intros st; simpl; [done|].
  by destruct (conversation_body run timeout e i st).
Qed.

Lemma conversation_body_file timeout e conv_idx (st : state World) :
  let r := conversation_body run timeout e conv_idx st in
  output_file (final r) = output_file st
  ∨ (is_normal r = true
     ∧ output_file (final r) = Some (Dumped (data (final r))))
  ∨ (r = Raised UnicodeEncodeError (final r)
     ∧ output_file (final r) = Some (Truncated (data (final r)))).
Proof.
  unfold conversation_body, save. repeat case_match; simpl; auto.
Qed.

Lemma conversation_body_cadence timeout e conv_idx (st st' : state World) :
  conversation_body run timeout e conv_idx st = Normal st' →
  if decide ((conv_idx + 1) `mod` 10 = 0)
  then output_file st' = Some (Dumped (data st')) ∧ encodable (data st') = true
  else output_file st' = output_file st.
Proof.
  unfold conversation_body, save.
  repeat case_match; intros; simplify_eq; done.
Qed.

(** A checkpoint that cannot be written ends the run and leaves the
    beginning of the text on the output path. *)
Lemma conversation_body_encode_error timeout e conv_idx (st st' : state World) :
  conversation_body run timeout e conv_idx st = Raised UnicodeEncodeError st' →
  (conv_idx + 1) `mod` 10 = 0
  ∧ encodable (data st') = false
  ∧ output_file st' = Some (Truncated (data st')).
Proof.
  intros Hbody.
  assert (Hcases :
    (∃ st2, save (say PrintAutoSave st2) = Raised UnicodeEncodeError st'
            ∧ (conv_idx + 1) `mod` 10 = 0)
    ∨ (∃ l i s, pair_loop run timeout l s = Raised UnicodeEncodeError i)
    ∨ (∃ x i, py_getitem x i = inl UnicodeEncodeError)
    ∨ (∃ x k dflt, py_get x k dflt = inl UnicodeEncodeError)).
  { revert Hbody. unfold conversation_body.
    destruct (py_getitem (data st) conv_idx) as [err|c] eqn:Hget.
    { intros [= -> _]. right. right. left. eauto. }
    destruct (py_get c _ _) as [err|cl] eqn:Hcl.
    { intros [= -> _]. right. right. right. eauto. }
    destruct (py_len cl) as [n|]; [|done].
    destruct (pair_loop run timeout _ _) as [x|err x] eqn:Hloop; cbn [final].
    - destruct (decide _); [|done]. intros Hsave. left. eauto.
    - intros [= -> _]. right. left. eauto. }
  destruct Hcases as [(st2 & Hsave & Hmod)|[(l & i & s & Hloop)|[(x & i & Hget)|
                      (x & k & dflt & Hget)]]].
  - apply save_raised in Hsave as (_ & Henc & ->). done.
  - exfalso. revert s Hloop. induction l as [|j l IH]; intros s; [done|].
    cbn [pair_loop]. destruct (pair_body run timeout j s) as [x|x|err x] eqn:Hb;
      [by apply IH|done|].
    intros [= -> _]. revert Hb. unfold pair_body, py_getitem, py_get.
    repeat case_match; intros; simplify_eq.
  - exfalso. revert Hget. unfold py_getitem. repeat case_match; intros; simplify_eq.
  - exfalso. revert Hget. unfold py_get. repeat case_match; intros; simplify_eq.
Qed.

Lemma conversation_loop_frame timeout e start (convs : list json) (n : nat) :
  ∀ lo (st : state World) convs_a,
    0 <= lo → start <= lo →
    data st = JArr convs_a →
    dataset_frame start lo convs convs_a →
    let r := conversation_loop run timeout e (py_range lo (lo + Z.of_nat n) 1) st in
    ∃ convs_b,
      data (final r) = JArr convs_b
      ∧ dataset_frame start (lo + Z.of_nat n) convs convs_b
      ∧ (file_within start lo convs st →
         file_within start (lo + Z.of_nat n) convs (final r)).
Proof.
  induction n as [|n IH]; intros lo st convs_a Hlo Hstart Hdata Hframe.
  { rewrite py_range_nil by lia. simpl. rewrite Z.add_0_r. by exists convs_a. }
  rewrite py_range_cons by lia. cbn [conversation_loop].
  destruct (conversation_body_frame run timeout e lo st convs_a Hdata)
    as (convs_1 & Hdata1 & Hlen1 & Hpos1).
  pose proof (conversation_body_file timeout e lo st) as Hfile1.
  cbv zeta in Hfile1.
  assert (Hframe1 : dataset_frame start (lo + 1) convs convs_1).
  { destruct Hframe as [Hlen Hpos]. split; [congruence|].
    intros p c Hc. destruct (Hpos p c Hc) as (c_a & Hc_a & Hin & Hout).
    destruct (Hpos1 p c_a Hc_a) as (c1 & Hc1 & Hhit & Hmiss).
    exists c1. split; [done|].
    destruct (decide (Z.of_nat p = lo)) as [Hp|Hp].
    - rewrite (Hout ltac:(lia)) in *. split; [|lia]. intros _.
      destruct (decide (norm_index (Z.of_nat (length convs_a)) lo = Some p));
        [auto|]. left. auto.
    - assert (c1 = c_a) as ->.
      { apply Hmiss. intros Hn. apply norm_index_of_nonneg in Hn; lia. }
      split; intros; [apply Hin|apply Hout]; lia. }
  assert (Hfile1' : file_within start lo convs st →
            file_within start (lo + 1) convs
              (final (conversation_body run timeout e lo st))).
  { intros Hfile out Hout.
    destruct Hfile1 as [Heq|[[_ Heq]|[_ Heq]]]; rewrite Heq in Hout.
    - destruct (Hfile out Hout) as (convs_o & -> & Ho).
      exists convs_o. split; [done|]. eapply dataset_frame_mono; [|done]. lia.
    - injection Hout as <-. by exists convs_1.
    - done. }
  replace (lo + Z.of_nat (S n)) with (lo + 1 + Z.of_nat n) by lia.
  destruct (conversation_body run timeout e lo st) as [st1|err st1] eqn:Hbody;
    cbn [final] in *.
  - destruct (IH (lo + 1) st1 convs_1 ltac:(lia) ltac:(lia) Hdata1 Hframe1)
      as (convs_b & Hdata_b & Hframe_b & Hfile_b).
    exists convs_b. auto.
  - exists convs_1. split; [done|]. split.
    + eapply dataset_frame_mono; [|done]. lia.
    + intros Hfile out Hout.
      destruct (Hfile1' Hfile out Hout) as (convs_o & -> & Ho).
      exists convs_o. split; [done|]. eapply dataset_frame_mono; [|done]. lia.
Qed.

(** C5, amended: for a start index that is not negative, whatever a run
    writes to the output path is the input dataset in which nothing has
    changed but the value of gpt turns in pairs tagged human and gpt, in
    the conversations from the start index to the effective end index. The
    conversations outside that range are what they were, and so are all
    fields of a conversation but its list of turns and all turns that are
    not tagged gpt; every turn keeps its tag. *)
Theorem run_frame (convs : list json) timeout start_index end_index w out :
  0 <= start_index →
  output_file
    (final (process_conversations run (JArr convs) timeout start_index end_index w))
  = Some (Dumped out) →
  ∃ convs',
    out = JArr convs'
    ∧ dataset_frame start_index
        (effective_end (Z.of_nat (length convs)) end_index) convs convs'
    ∧ fields_kept convs convs'.
Proof.
  intros Hstart. unfold process_conversations. cbn [py_len].
  set (e := effective_end (Z.of_nat (length convs)) end_index).
  set (st0 := begin_run (JArr convs) (Z.of_nat (length convs)) start_index e w).
  assert (Hloop : ∃ convs_b,
    data (final (conversation_loop run timeout e (py_range start_index e 1) st0))
    = JArr convs_b
    ∧ dataset_frame start_index e convs convs_b
    ∧ file_within start_index e convs
        (final (conversation_loop run timeout e (py_range start_index e 1) st0))).
  { destruct (decide (e <= start_index)) as [He|He].
    - rewrite py_range_nil by lia. exists convs.
      split; [done|]. split; [apply dataset_frame_refl|]. by intros out'.
    - pose proof (conversation_loop_frame timeout e start_index convs
               (Z.to_nat (e - start_index)) start_index st0 convs) as H.
      replace (start_index + Z.of_nat (Z.to_nat (e - start_index))) with e in H
        by lia.
      destruct H as (convs_b & Hb1 & Hb2 & Hb3);
        [lia|lia|done|apply dataset_frame_refl|].
      exists convs_b. split; [done|]. split; [done|]. by apply Hb3. }
  destruct Hloop as (convs_b & Hdata & Hframe & Hfile).
  destruct (conversation_loop run timeout e (py_range start_index e 1) st0)
    as [st|err st]; cbn [final] in *.
  - unfold finish_run, save. cbn [say data]. rewrite Hdata.
    destruct (encodable (JArr convs_b)); cbn [final say output_file];
      intros [= <-].
    exists convs_b. split; [done|]. split; [done|].
    by eapply conversation_frame_kept.
  - intros Hout. destruct (Hfile out Hout) as (convs_o & -> & Ho).
    exists convs_o. split; [done|]. split; [done|].
    by eapply conversation_frame_kept.
Qed.

End Dataset.


(** ** Exceptions *)

Lemma norm_index_in_range n i : - n <= i < n → is_Some (norm_index n i).
Proof. intros H. unfold norm_index. repeat case_decide; eauto; lia. Qed.

Lemma forallb_Forall {A} (f : A → bool) l :
  forallb f l = true ↔ Forall (λ x, f x = true) l.
Proof.
  induction l as [|x l IH]; simpl.
  - split; [constructor|done].
  - rewrite andb_true_iff, IH, Forall_cons. done.
Qed.

(** ** Text that can be written *)

Lemma str_encodable_app s1 s2 :
  str_encodable (s1 ++ s2) = str_encodable s1 && str_encodable s2.
Proof. apply forallb_app. Qed.

Lemma str_encodable_lit s : str_encodable (lit s) = true.
Proof.
  unfold str_encodable, lit. induction (list_ascii_of_string s) as [|a l IH];
    [done|].
  cbn [fmap list_fmap forallb]. rewrite IH, andb_true_r.
  pose proof (N_ascii_bounded a) as Ha. unfold is_surrogate.
  apply negb_true_iff, andb_false_iff. left. apply N.leb_gt. lia.
Qed.

Lemma str_encodable_strip s : str_encodable s = true → str_encodable (strip s) = true.
Proof.
  intros H. destruct (strip_trimmed s) as (l & t & Hs & _).
  rewrite Hs, !str_encodable_app in H.
  apply andb_true_iff in H as [_ H]. by apply andb_true_iff in H as [H _].
Qed.

Lemma combine_output_encodable stdout stderr :
  str_encodable stdout = true → str_encodable stderr = true →
  str_encodable (combine_output stdout stderr) = true.
Proof.
  intros Ho He. unfold combine_output.
  destruct (truthy stderr), (truthy stdout); cbn [truthy app];
    repeat case_match; try done; apply str_encodable_strip;
    rewrite ?str_encodable_app, ?Ho, ?He; done.
Qed.

Lemma execute_command_encodable {World}
    (run : World → json → Z → run_result * World) w command timeout :
  outcome_encodable (run w command timeout).1 = true →
  str_encodable (execute_command run w command timeout).1 = true.
Proof.
  unfold execute_command.
  destruct (run w command timeout) as [[stdout stderr rc| |message] w'];
    cbn [outcome_encodable fst].
  - intros [Ho He]%andb_true_iff. by apply combine_output_encodable.
  - intros _. unfold timeout_marker, str_of_int.
    by rewrite !str_encodable_app, str_encodable_lit.
  - intros Hm. unfold error_marker. by rewrite !str_encodable_app, Hm.
Qed.

Lemma encodable_dict_set key v (d : dict) :
  str_encodable key = true → encodable v = true →
  encodable (JObj d) = true → encodable (JObj (dict_set key v d)) = true.
Proof.
  intros Hkey Hv. cbn [encodable].
  induction d as [|[k v'] d IH]; cbn [dict_set forallb].
  - intros _. by rewrite Hkey, Hv.
  - intros [Hkv Hd]%andb_true_iff. destruct (decide (k = key)) as [->|Hne];
      cbn [forallb].
    + by rewrite Hkey, Hv, Hd.
    + by rewrite Hkv, IH.
Qed.

Lemma encodable_dict_lookup key v (d : dict) :
  encodable (JObj d) = true → dict_lookup key d = Some v → encodable v = true.
Proof.
  cbn [encodable]. induction d as [|[k v'] d IH]; cbn [dict_lookup forallb];
    [done|].
  intros [Hkv Hd]%andb_true_iff. destruct (decide (k = key)).
  - intros [= <-]. by apply andb_true_iff in Hkv as [_ Hv'].
  - by apply IH.
Qed.

Lemma encodable_lookup (l : list json) i x :
  encodable (JArr l) = true → l !! i = Some x → encodable x = true.
Proof.
  cbn [encodable]. rewrite forallb_Forall. intros Hl Hx.
  by apply (Forall_lookup_1 _ _ _ _ Hl Hx).
Qed.

Lemma encodable_insert (l : list json) i x :
  encodable (JArr l) = true → encodable x = true →
  encodable (JArr (<[i := x]> l)) = true.
Proof.
  cbn [encodable]. rewrite !forallb_Forall. intros Hl Hx.
  by apply Forall_insert.
Qed.

Lemma store_value_encodable cl j output :
  encodable cl = true → str_encodable output = true →
  encodable (store_value cl j output) = true.
Proof.
  intros Hcl Hout. unfold store_value.
  destruct cl as [| | | |l|]; try done.
  destruct (l !! Z.to_nat j) as [[| | | | |g]|] eqn:Hg; try done.
  apply encodable_insert; [done|].
  apply encodable_dict_set; [apply str_encodable_lit|done|].
  by apply (encodable_lookup l (Z.to_nat j)).
Qed.

Lemma write_back_encodable d conv_idx cl :
  encodable d = true → encodable cl = true →
  encodable (write_back d conv_idx cl) = true.
Proof.
  intros Hd Hcl. unfold write_back.
  destruct d as [| | | |l|]; try done.
  destruct (norm_index _ conv_idx) as [p|]; [|done].
  destruct (l !! p) as [[| | | | |c]|] eqn:Hc; try done.
  destruct (dict_lookup (lit "conversations") c); [|done].
  apply encodable_insert; [done|].
  apply encodable_dict_set; [apply str_encodable_lit|done|].
  by apply (encodable_lookup l p).
Qed.

Section Encodable.

Context {World : Type} (run : World → json → Z → run_result * World).
Hypothesis run_encodable :
  ∀ w command timeout, outcome_encodable (run w command timeout).1 = true.

Lemma pair_body_encodable timeout i (st : turns_state World) :
  encodable (conversations_list st) = true →
  encodable (conversations_list (control_state (pair_body run timeout i st)))
  = true.
Proof.
  intros Hcl. unfold pair_body.
  destruct (py_len (conversations_list st)); [|done].
  destruct (decide _); [done|].
  destruct (py_getitem (conversations_list st) i); [done|].
  destruct (py_getitem (conversations_list st) (i + 1)); [done|].
  destruct (py_get _ (lit "from") JNull); [done|].
  destruct (differs_from _ (lit "human")); [done|].
  destruct (py_get _ (lit "from") JNull); [done|].
  destruct (differs_from _ (lit "gpt")); [done|].
  destruct (py_get _ (lit "value") (JStr [])) as [|command]; [done|].
  pose proof (execute_command_encodable run
                (world (print (PrintCommand (round_num st + 1) command)
                          (turns_io st))) command timeout
                (run_encodable _ _ _)) as Hout.
  destruct (execute_command run _ command timeout) as [output w].
  cbn [control_state conversations_list]. by apply store_value_encodable.
Qed.

Lemma pair_loop_encodable timeout indices :
  ∀ st : turns_state World,
    encodable (conversations_list st) = true →
    encodable (conversations_list (final (pair_loop run timeout indices st)))
    = true.
Proof.
  induction indices as [|i indices IH]; intros st Hcl; [done|].
  cbn [pair_loop]. pose proof (pair_body_encodable timeout i st Hcl) as Hb.
  destruct (pair_body run timeout i st); cbn [control_state] in Hb; auto.
Qed.

Lemma conversation_body_encodable timeout e conv_idx (st : state World) :
  encodable (data st) = true →
  encodable (data (final (conversation_body run timeout e conv_idx st))) = true.
Proof.
  intros Hd. unfold conversation_body.
  destruct (py_getitem (data st) conv_idx) as [|c] eqn:Hget; [done|].
  destruct (py_get c (lit "conversations") (JArr [])) as [|cl] eqn:Hcl; [done|].
  assert (Hcl' : encodable cl = true).
  { unfold py_get in Hcl. destruct c as [| | | | |d]; try done.
    injection Hcl as <-.
    destruct (dict_lookup (lit "conversations") d) as [v|] eqn:Hv; [|done].
    cbn [default from_option id].
    apply (encodable_dict_lookup (lit "conversations") v d); [|done].
    unfold py_getitem in Hget. destruct (data st) as [| | |str|l|]; try done.
    - destruct (norm_index _ conv_idx ≫= _); done.
    - destruct (norm_index _ conv_idx ≫= _) as [x|] eqn:Hx; [|done].
      injection Hget as ->.
      destruct (norm_index _ conv_idx) as [p|]; [|done].
      by apply (encodable_lookup l p). }
  destruct (py_len cl) as [n|]; [|done].
  cbn [say data output_file run_io].
  pose proof (pair_loop_encodable timeout (py_range 0 n 2)
    {| conversations_list := cl; round_num := 0;
       turns_io := print (PrintConversation (conv_idx + 1) e) (run_io st) |}
    Hcl') as Hloop.
  destruct (pair_loop run timeout (py_range 0 n 2) _) as [x|err x];
    cbn [final] in *.
  - destruct (decide _); rewrite ?data_save; cbn [say data final];
      by apply write_back_encodable.
  - by apply write_back_encodable.
Qed.

Lemma conversation_loop_encodable timeout e indices :
  ∀ st : state World,
    encodable (data st) = true →
    encodable (data (final (conversation_loop run timeout e indices st))) = true.
Proof.
  induction indices as [|i indices IH]; intros st Hd; [done|].
  cbn [conversation_loop].
  pose proof (conversation_body_encodable timeout e i st Hd) as Hb.
  destruct (conversation_body run timeout e i st); cbn [final] in Hb; auto.
Qed.

End Encodable.

Section Errors.

Context {World : Type} (run : World → json → Z → run_result * World).

Lemma conversation_body_index_error timeout e conv_idx (st : state World)
    (convs : list json) x :
  data st = JArr convs →
  conversation_body run timeout e conv_idx st = Raised IndexError x →
  norm_index (Z.of_nat (length convs)) conv_idx = None.
Proof.
  intros Hdata Hbody.
  destruct (norm_index (Z.of_nat (length convs)) conv_idx) as [p|] eqn:Hp; [|done].
  exfalso.
  assert (Hstuck : ¬ (∀ p (d : dict),
    norm_index (Z.of_nat (length convs)) conv_idx = Some p →
    convs !! p ≠ Some (JObj d))).
  { intros Hno.
    destruct (conversation_body_stuck run timeout e conv_idx st convs Hdata Hno)
      as (err & Herr & Hidx).
    rewrite Herr in Hbody. injection Hbody as -> _.
    rewrite Hp in Hidx. by specialize (Hidx eq_refl). }
  destruct (convs !! p) as [c|] eqn:Hc.
  2:{ apply Hstuck. intros p' d Hp'. rewrite Hp in Hp'. injection Hp' as <-.
      by rewrite Hc. }
  destruct (json_obj_dec c) as [[d ->]|Hnd].
  2:{ apply Hstuck. intros p' d Hp'. rewrite Hp in Hp'. injection Hp' as <-.
      rewrite Hc. intros [= ->]. by destruct (Hnd d). }
  rewrite (conversation_body_array run timeout e conv_idx st convs p d Hdata Hp Hc)
    in Hbody. cbv zeta in Hbody.
  destruct (dict_lookup (lit "conversations") d) as [cl|] eqn:Hcl;
    cbn [default from_option id] in Hbody.
  2:{ cbn [py_len length] in Hbody. rewrite py_range_nil in Hbody by lia.
      cbn [pair_loop] in Hbody.
      destruct (decide _); [|done]. by apply save_raised in Hbody as [? _]. }
  destruct (py_len cl) as [n|] eqn:Hn; [|done].
  set (s1 := run_io (say (PrintConversation (conv_idx + 1) e) st)) in *.
  destruct (json_arr_dec cl) as [[turns ->]|Hna].
  - injection Hn as <-. fold (turns_start turns s1) in Hbody.
    rewrite (pair_loop_whole run timeout turns s1) in Hbody.
    destruct (walk_pairs run timeout 0 turns 0 s1) as [?|err ?] eqn:Hwalk;
      cbn [map_result] in Hbody.
    + destruct (decide _); [|done]. by apply save_raised in Hbody as [? _].
    + apply walk_pairs_error in Hwalk. congruence.
  - destruct (pair_loop_not_array run timeout cl n s1 Hn Hna) as [Hr|[Hr|Hr]];
      cbv zeta in Hr; rewrite Hr in Hbody; try done.
    destruct (decide _); [|done]. by apply save_raised in Hbody as [? _].
Qed.

Lemma conversation_loop_index_error timeout e (n : nat) :
  ∀ lo (st : state World) (convs : list json) x,
    data st = JArr convs →
    - Z.of_nat (length convs) <= lo →
    lo + Z.of_nat n <= Z.of_nat (length convs) →
    conversation_loop run timeout e (py_range lo (lo + Z.of_nat n) 1) st
    ≠ Raised IndexError x.
Proof.
  induction n as [|n IH]; intros lo st convs x Hdata Hlo Hhi.
  { by rewrite py_range_nil by lia. }
  rewrite py_range_cons by lia. cbn [conversation_loop].
  destruct (conversation_body_frame run timeout e lo st convs Hdata)
    as (convs1 & Hdata1 & Hlen1 & _).
  destruct (conversation_body run timeout e lo st) as [st1|err st1] eqn:Hbody;
    cbn [final] in Hdata1.
  - replace (lo + Z.of_nat (S n)) with (lo + 1 + Z.of_nat n) by lia.
    apply (IH (lo + 1) st1 convs1); [done|lia|lia].
  - intros [= -> ->].
    apply (conversation_body_index_error _ _ _ _ _ _ Hdata) in Hbody.
    destruct (norm_index_in_range (Z.of_nat (length convs)) lo) as [p Hp]; [lia|].
    congruence.
Qed.

Lemma conversation_body_well_formed timeout e conv_idx (st : state World)
    (convs : list json) :
  data st = JArr convs →
  well_formed convs = true →
  is_Some (norm_index (Z.of_nat (length convs)) conv_idx) →
  let r := conversation_body run timeout e conv_idx st in
  ∃ convs',
    data (final r) = JArr convs'
    ∧ length convs' = length convs
    ∧ well_formed convs' = true
    ∧ is_normal r
      = (if decide ((conv_idx + 1) `mod` 10 = 0)
         then encodable (JArr convs') else true)
    ∧ ∀ err st', r = Raised err st' → err = UnicodeEncodeError.
Proof.
  intros Hdata Hwf [p Hp] r. subst r.
  destruct (convs !! p) as [c|] eqn:Hc.
  2:{ apply lookup_ge_None in Hc. apply norm_index_lt in Hp. lia. }
  unfold well_formed in *. pose proof Hwf as Hwfb.
  rewrite forallb_Forall in Hwf.
  pose proof (Forall_lookup_1 _ _ _ _ Hwf Hc) as Hwfc. cbv beta in Hwfc.
  destruct c as [| | | | |d]; try discriminate Hwfc.
  rewrite (conversation_body_array run timeout e conv_idx st convs p d Hdata Hp Hc).
  cbv zeta. simpl in Hwfc.
  assert (Hend : ∀ st2 : state World, ∀ convs2,
    data st2 = JArr convs2 →
    length convs2 = length convs →
    forallb well_formed_conversation convs2 = true →
    let r := if decide ((conv_idx + 1) `mod` 10 = 0)
             then save (say PrintAutoSave st2) else Normal st2 in
    ∃ convs',
      data (final r) = JArr convs'
      ∧ length convs' = length convs
      ∧ forallb well_formed_conversation convs' = true
      ∧ is_normal r
        = (if decide ((conv_idx + 1) `mod` 10 = 0)
           then encodable (JArr convs') else true)
      ∧ ∀ err st', r = Raised err st' → err = UnicodeEncodeError).
  { intros st2 convs2 Hd2 Hl2 Hw2 r. subst r. exists convs2.
    destruct (decide _).
    - rewrite data_save, is_normal_save. cbn [say data]. rewrite Hd2.
      repeat split; try done.
      intros err st' Hr. by apply save_raised in Hr as [-> _].
    - repeat split; done. }
  destruct (dict_lookup (lit "conversations") d) as [cl|] eqn:Hcl;
    cbn [default from_option id].
  - destruct cl as [| | | |turns|]; try discriminate Hwfc.
    cbn [py_len].
    set (s1 := run_io (say (PrintConversation (conv_idx + 1) e) st)).
    fold (turns_start turns s1).
    rewrite (pair_loop_whole run timeout turns s1).
    destruct (walk_pairs_dicts run timeout turns 0 0 s1 Hwfc)
      as (ts & rn' & s' & -> & Hts).
    cbn [map_result with_prefix final conversations_list turns_io app].
    eapply Hend; [reflexivity|by rewrite length_insert|].
    rewrite forallb_Forall. apply Forall_insert; [done|].
    simpl. by rewrite dict_lookup_set.
  - cbn [py_len length]. rewrite py_range_nil by lia. cbn [pair_loop final].
    by eapply Hend.
Qed.

(** On a dataset of the documented shape nothing is raised but the
    exception of a checkpoint that cannot be written. *)
Lemma conversation_loop_well_formed timeout e (n : nat) :
  ∀ lo (st : state World) (convs : list json) err st',
    data st = JArr convs →
    well_formed convs = true →
    - Z.of_nat (length convs) <= lo →
    lo + Z.of_nat n <= Z.of_nat (length convs) →
    conversation_loop run timeout e (py_range lo (lo + Z.of_nat n) 1) st
    = Raised err st' →
    err = UnicodeEncodeError ∧ encodable (data st') = false.
Proof.
  induction n as [|n IH]; intros lo st convs err st' Hdata Hwf Hlo Hhi.
  { by rewrite py_range_nil by lia. }
  rewrite py_range_cons by lia. cbn [conversation_loop].
  destruct (conversation_body_well_formed timeout e lo st convs Hdata Hwf)
    as (convs1 & Hdata1 & Hlen1 & Hwf1 & _ & Herr).
  { apply norm_index_in_range. lia. }
  destruct (conversation_body run timeout e lo st) as [st1|err1 st1] eqn:Hbody;
    cbn [final] in Hdata1.
  - replace (lo + Z.of_nat (S n)) with (lo + 1 + Z.of_nat n) by lia.
    apply (IH (lo + 1) st1 convs1); [done|done|lia|lia].
  - intros [= <- <-]. rewrite (Herr err1 st1 eq_refl) in *.
    split; [done|]. by apply conversation_body_encode_error in Hbody as (_ & ? & _).
Qed.

(** With texts that can all be written, it completes. *)
Lemma conversation_loop_completes timeout e (n : nat) :
  (∀ w command t, outcome_encodable (run w command t).1 = true) →
  ∀ lo (st : state World) (convs : list json),
    data st = JArr convs →
    well_formed convs = true →
    encodable (JArr convs) = true →
    - Z.of_nat (length convs) <= lo →
    lo + Z.of_nat n <= Z.of_nat (length convs) →
    is_normal (conversation_loop run timeout e (py_range lo (lo + Z.of_nat n) 1) st)
    = true.
Proof.
  intros Hrun. induction n as [|n IH]; intros lo st convs Hdata Hwf Henc Hlo Hhi.
  { by rewrite py_range_nil by lia. }
  rewrite py_range_cons by lia. cbn [conversation_loop].
  destruct (conversation_body_well_formed timeout e lo st convs Hdata Hwf)
    as (convs1 & Hdata1 & Hlen1 & Hwf1 & Hnormal & _).
  { apply norm_index_in_range. lia. }
  pose proof (conversation_body_encodable run Hrun timeout e lo st) as Henc1.
  rewrite Hdata, Hdata1 in Henc1. specialize (Henc1 Henc).
  rewrite Henc1 in Hnormal.
  destruct (conversation_body run timeout e lo st) as [st1|err1 st1];
    cbn [final] in Hdata1.
  - replace (lo + Z.of_nat (S n)) with (lo + 1 + Z.of_nat n) by lia.
    apply (IH (lo + 1) st1 convs1); [done|done|done|lia|lia].
  - by destruct (decide _).
Qed.

Lemma process_conversations_well_formed (convs : list json) timeout start_index
    end_index w err st :
  - Z.of_nat (length convs) <= start_index →
  well_formed convs = true →
  process_conversations run (JArr convs) timeout start_index end_index w
  = Raised err st →
  err = UnicodeEncodeError ∧ encodable (data st) = false.
Proof.
  intros Hstart Hwf. unfold process_conversations. cbn [py_len].
  set (total := Z.of_nat (length convs)).
  set (e := effective_end total end_index).
  assert (He : e <= total).
  { unfold e, effective_end. destruct end_index as [x|]; [|lia].
    destruct (decide _); lia. }
  destruct (conversation_loop run timeout e (py_range start_index e 1) _)
    as [st1|err1 st1] eqn:Hloop.
  - unfold finish_run. destruct (save _) as [st2|err2 st2] eqn:Hsave; [done|].
    intros [= <- <-]. by apply save_raised in Hsave as (-> & ? & ->).
  - intros [= <- <-]. revert Hloop.
    destruct (decide (e <= start_index)).
    { by rewrite py_range_nil by lia. }
    replace e with (start_index + Z.of_nat (Z.to_nat (e - start_index)))
      at 2 by lia.
    apply conversation_loop_well_formed with (convs := convs);
      [done|done|lia|lia].
Qed.

Lemma process_conversations_completes (convs : list json) timeout start_index
    end_index w :
  (∀ w command t, outcome_encodable (run w command t).1 = true) →
  - Z.of_nat (length convs) <= start_index →
  well_formed convs = true →
  encodable (JArr convs) = true →
  is_normal (process_conversations run (JArr convs) timeout start_index end_index w)
  = true.
Proof.
  intros Hrun Hstart Hwf Henc. unfold process_conversations. cbn [py_len].
  set (total := Z.of_nat (length convs)).
  set (e := effective_end total end_index).
  assert (He : e <= total).
  { unfold e, effective_end. destruct end_index as [x|]; [|lia].
    destruct (decide _); lia. }
  set (st0 := begin_run (JArr convs) total start_index e w).
  assert (Hn : is_normal
    (conversation_loop run timeout e (py_range start_index e 1) st0) = true).
  { destruct (decide (e <= start_index)).
    { by rewrite py_range_nil by lia. }
    replace e with (start_index + Z.of_nat (Z.to_nat (e - start_index)))
      at 2 by lia.
    apply conversation_loop_completes with (convs := convs);
      [done|done|done|done|lia|lia]. }
  pose proof (conversation_loop_encodable run Hrun timeout e
                (py_range start_index e 1) st0 Henc) as Hfinal.
  destruct (conversation_loop run timeout e _ st0) as [st1|]; [|done].
  cbn [final] in Hfinal. unfold finish_run.
  rewrite save_encodable by done. done.
Qed.

(** C8, amended: an end index past the length of the dataset, or none, is
    replaced by the length: the run is the run with the length as end
    index and no index the loop visits reaches the length. For a start
    index that is not below minus the length, no [IndexError] is raised,
    and on a dataset of the documented shape nothing is raised but the
    [UnicodeEncodeError] of a dataset that cannot be written; when
    besides every text of the dataset and of the command outputs can be
    encoded, the run raises nothing at all. *)
Theorem end_is_clamped (convs : list json) timeout start_index end_index w :
  let total := Z.of_nat (length convs) in
  (∀ e, end_index = Some e → total < e) →
  effective_end total end_index = total
  ∧ process_conversations run (JArr convs) timeout start_index end_index w
    = process_conversations run (JArr convs) timeout start_index (Some total) w
  ∧ (∀ conv_idx,
       conv_idx ∈ py_range start_index (effective_end total end_index) 1 →
       conv_idx < total)
  ∧ (- total <= start_index →
     ∀ st, process_conversations run (JArr convs) timeout start_index end_index w
           ≠ Raised IndexError st)
  ∧ (- total <= start_index →
     well_formed convs = true →
     ∀ err st,
       process_conversations run (JArr convs) timeout start_index end_index w
       = Raised err st →
       err = UnicodeEncodeError ∧ encodable (data st) = false)
  ∧ (- total <= start_index →
     well_formed convs = true →
     encodable (JArr convs) = true →
     (∀ w command t, outcome_encodable (run w command t).1 = true) →
     is_normal
       (process_conversations run (JArr convs) timeout start_index end_index w)
     = true).
Proof.
  intros total Hend.
  assert (He : effective_end total end_index = total).
  { unfold effective_end. destruct end_index as [e|]; [|done].
    specialize (Hend e eq_refl). rewrite decide_True; [done|lia]. }
  assert (He' : effective_end total (Some total) = total).
  { unfold effective_end. rewrite decide_False; [done|lia]. }
  split; [done|]. split; [|split; [|split; [|split]]].
  - unfold process_conversations. cbn [py_len]. fold total. by rewrite He, He'.
  - intros conv_idx Hin. rewrite He in Hin.
    apply elem_of_py_range_1 in Hin. lia.
  - intros Hstart st. unfold process_conversations. cbn [py_len]. fold total.
    rewrite He.
    destruct (conversation_loop run timeout total (py_range start_index total 1) _)
      as [st1|err st1] eqn:Hloop.
    { unfold finish_run. destruct (save _) as [st2|err2 st2] eqn:Hsave; [done|].
      by apply save_raised in Hsave as (-> & _). }
    intros [= -> ->]. revert Hloop.
    destruct (decide (total <= start_index)).
    { by rewrite py_range_nil by lia. }
    replace total with (start_index + Z.of_nat (Z.to_nat (total - start_index)))
      at 2 by lia.
    apply conversation_loop_index_error with (convs := convs); [done|lia|lia].
  - intros Hstart Hwf err st.
    by apply process_conversations_well_formed.
  - intros Hstart Hwf Henc Hrun.
    by apply process_conversations_completes.
Qed.

End Errors.

(** ** Conversations that have been through the loop *)

Section Executed.

Context {World : Type} (run : World → json → Z → run_result * World).

Lemma conversation_loop_app_normal timeout e l1 l2 (st st' : state World) :
  conversation_loop run timeout e (l1 ++ l2) st = Normal st' →
  ∃ st1, conversation_loop run timeout e l1 st = Normal st1
         ∧ conversation_loop run timeout e l2 st1 = Normal st'.
Proof.
  rewrite conversation_loop_app.
  destruct (conversation_loop run timeout e l1 st) as [st1|]; [|done].
  intros H. by exists st1.
Qed.

Lemma conversation_body_executed timeout e conv_idx (st st' : state World)
    (convs convs' : list json) p c c' :
  data st = JArr convs →
  data st' = JArr convs' →
  conversation_body run timeout e conv_idx st = Normal st' →
  norm_index (Z.of_nat (length convs)) conv_idx = Some p →
  convs !! p = Some c →
  convs' !! p = Some c' →
  pairs_executed run timeout c c'.
Proof.
  intros Hdata Hdata' Hbody Hp Hc Hc' d turns j h g -> Hcl Hh Hg Hv.
  rewrite (conversation_body_array run timeout e conv_idx st convs p d Hdata Hp Hc)
    in Hbody.
  cbv zeta in Hbody. rewrite Hcl in Hbody.
  cbn [default from_option id py_len] in Hbody.
  set (s1 := run_io (say (PrintConversation (conv_idx + 1) e) st)) in *.
  fold (turns_start turns s1) in Hbody.
  rewrite (pair_loop_whole run timeout turns s1) in Hbody.
  destruct (walk_pairs run timeout 0 turns 0 s1) as [[[ts rn'] s']|] eqn:Hwalk;
    [|done].
  cbn [map_result with_prefix final conversations_list turns_io app] in Hbody.
  assert (Hdata2 : data st'
    = JArr (<[p := JObj (dict_set (lit "conversations") (JArr ts) d)]> convs)).
  { destruct (decide _); [|by injection Hbody as <-].
    by apply save_normal in Hbody as [_ ->]. }
  rewrite Hdata' in Hdata2. injection Hdata2 as ->.
  rewrite list_lookup_insert_eq in Hc' by (by eapply lookup_lt_Some).
  injection Hc' as <-.
  destruct (walk_pairs_executed run timeout turns _ _ _ _ _ _ j h g Hwalk Hh Hg Hv)
    as (w & output & Hout & Hts).
  exists (dict_set (lit "conversations") (JArr ts) d), ts, w, output.
  split; [done|]. split; [apply dict_lookup_set|]. done.
Qed.

(** After a loop that has finished, every conversation of its range holds
    the results of its commands. *)
Lemma conversation_loop_executed timeout e (convs : list json) lo hi
    (st st' : state World) (convs' : list json) (p : nat) c c' :
  0 <= lo → lo <= Z.of_nat p < hi →
  data st = JArr convs →
  data st' = JArr convs' →
  conversation_loop run timeout e (py_range lo hi 1) st = Normal st' →
  convs !! p = Some c →
  convs' !! p = Some c' →
  pairs_executed run timeout c c'.
Proof.
  intros Hlo Hp Hdata Hdata' Hloop Hc Hc'.
  rewrite (py_range_split lo (Z.of_nat p) hi) in Hloop by lia.
  rewrite (py_range_cons (Z.of_nat p) hi) in Hloop by lia.
  apply conversation_loop_app_normal in Hloop as (st_a & Hbefore & Hrest).
  cbn [conversation_loop] in Hrest.
  destruct (conversation_body run timeout e (Z.of_nat p) st_a) as [st_b|]
    eqn:Hbody; [|done].
  pose proof (conversation_loop_frame run timeout e lo convs
                (Z.to_nat (Z.of_nat p - lo)) lo st convs) as Ha.
  replace (lo + Z.of_nat (Z.to_nat (Z.of_nat p - lo))) with (Z.of_nat p) in Ha
    by lia.
  specialize (Ha ltac:(lia) ltac:(lia) Hdata (dataset_frame_refl _ _ _)).
  cbv zeta in Ha. rewrite Hbefore in Ha. cbn [final] in Ha.
  destruct Ha as (convs_a & Hdata_a & [Hlen_a Hframe_a] & _).
  destruct (Hframe_a p c Hc) as (c_a & Hc_a & _ & Hsame_a).
  rewrite (Hsame_a ltac:(lia)) in Hc_a.
  destruct (conversation_body_frame run timeout e (Z.of_nat p) st_a convs_a Hdata_a)
    as (convs_b & Hdata_b & Hlen_b & Hframe_b).
  rewrite Hbody in Hdata_b. cbn [final] in Hdata_b.
  destruct (Hframe_b p c Hc_a) as (c_b & Hc_b & _).
  assert (Hexec : pairs_executed run timeout c c_b).
  { eapply (conversation_body_executed timeout e (Z.of_nat p) st_a st_b); eauto.
    rewrite norm_index_nonneg, Nat2Z.id; [done|].
    apply lookup_lt_Some in Hc_a. lia. }
  pose proof (conversation_loop_frame run timeout e (Z.of_nat p + 1) convs_b
                (Z.to_nat (hi - (Z.of_nat p + 1))) (Z.of_nat p + 1) st_b
                convs_b) as Hb.
  replace (Z.of_nat p + 1 + Z.of_nat (Z.to_nat (hi - (Z.of_nat p + 1))))
    with hi in Hb by lia.
  specialize (Hb ltac:(lia) ltac:(lia) Hdata_b (dataset_frame_refl _ _ _)).
  cbv zeta in Hb. rewrite Hrest in Hb. cbn [final] in Hb.
  destruct Hb as (convs_c & Hdata_c & [_ Hframe_c] & _).
  rewrite Hdata' in Hdata_c. injection Hdata_c as <-.
  destruct (Hframe_c p c_b Hc_b) as (c_c & Hc_c & _ & Hsame_c).
  rewrite (Hsame_c ltac:(lia)) in Hc_c.
  rewrite Hc' in Hc_c. by injection Hc_c as ->.
Qed.

End Executed.

(** ** Checkpoints and empty ranges *)

Section Checkpoint.

Context {World : Type} (run : World → json → Z → run_result * World).

Lemma data_finish_run start_index end_index (st : state World) :
  data (final (finish_run start_index end_index st)) = data st.
Proof. unfold finish_run, save. by destruct (encodable _). Qed.

Lemma data_and_finish start_index end_index (r : result (state World)) :
  data (final (and_finish start_index end_index r)) = data (final r).
Proof. destruct r; [apply data_finish_run|done]. Qed.

Lemma conversation_loop_last timeout e l i (st st' : state World) :
  conversation_loop run timeout e (l ++ [i]) st = Normal st' →
  ∃ st1, conversation_body run timeout e i st1 = Normal st'.
Proof.
  rewrite conversation_loop_app.
  destruct (conversation_loop run timeout e l st) as [st1|]; [|done].
  simpl. destruct (conversation_body run timeout e i st1) eqn:Hb; [|done].
  intros [= <-]. by exists st1.
Qed.

(** C4, amended: a checkpoint is attempted after a conversation exactly
    when its index plus one is a multiple of 10, whatever the start of the
    run; it writes the dataset in memory when all its texts can be
    encoded, and otherwise ends the run with [UnicodeEncodeError] and the
    beginning of the text on the output path. In a run with the default
    range, at the moment conversation [k] with [(k + 1) mod 10 = 0] is
    completed the output path holds the dataset in memory; in it the
    conversations after [k] are those of the input, the conversations up
    to [k] have been through the loop (every pair tagged human and gpt
    holds the output of its command), and they are the ones of the final
    dataset: the rest of the run changes conversations after [k] only. On
    a dataset of the documented shape nothing but a checkpoint that cannot
    be written keeps the run from completing conversation [k], and
    nothing does when all the texts of the dataset and of the command
    outputs can be encoded. *)
Theorem checkpoint_contents timeout :
  (∀ end_index conv_idx (st st' : state World),
     (conversation_body run timeout end_index conv_idx st = Normal st' →
      if decide ((conv_idx + 1) `mod` 10 = 0)
      then output_file st' = Some (Dumped (data st'))
           ∧ encodable (data st') = true
      else output_file st' = output_file st)
     ∧ (conversation_body run timeout end_index conv_idx st
        = Raised UnicodeEncodeError st' →
        (conv_idx + 1) `mod` 10 = 0
        ∧ encodable (data st') = false
        ∧ output_file st' = Some (Truncated (data st'))))
  ∧ (∀ (convs : list json) w k (st_k : state World),
       let total := Z.of_nat (length convs) in
       0 <= k < total →
       (k + 1) `mod` 10 = 0 →
       conversation_loop run timeout total (py_range 0 (k + 1) 1)
         (begin_run (JArr convs) total 0 total w) = Normal st_k →
       process_conversations run (JArr convs) timeout 0 None w
       = and_finish 0 total
           (conversation_loop run timeout total (py_range (k + 1) total 1) st_k)
       ∧ ∃ convs_k convs_f,
           data st_k = JArr convs_k
           ∧ output_file st_k = Some (Dumped (JArr convs_k))
           ∧ dataset_frame 0 (k + 1) convs convs_k
           ∧ (∀ (p : nat) c c',
                Z.of_nat p <= k →
                convs !! p = Some c → convs_k !! p = Some c' →
                pairs_executed run timeout c c')
           ∧ data (final (process_conversations run (JArr convs) timeout 0 None w))
             = JArr convs_f
           ∧ dataset_frame (k + 1) total convs_k convs_f)
  ∧ (∀ (convs : list json) w k,
       let total := Z.of_nat (length convs) in
       let r := conversation_loop run timeout total (py_range 0 (k + 1) 1)
                  (begin_run (JArr convs) total 0 total w) in
       0 <= k < total →
       well_formed convs = true →
       (∀ err st, r = Raised err st →
          err = UnicodeEncodeError ∧ encodable (data st) = false)
       ∧ (encodable (JArr convs) = true →
          (∀ w command t, outcome_encodable (run w command t).1 = true) →
          is_normal r = true)).
Proof.
  split.
  { intros end_index conv_idx st st'. split.
    - by apply conversation_body_cadence.
    - by apply conversation_body_encode_error. }
  split.
  2:{ intros convs w k total r Hk Hwf. subst r. split.
      - intros err st.
        pose proof (conversation_loop_well_formed run timeout total
                      (Z.to_nat (k + 1)) 0
                      (begin_run (JArr convs) total 0 total w) convs err st) as H.
        replace (0 + Z.of_nat (Z.to_nat (k + 1))) with (k + 1) in H by lia.
        apply H; [done|done|lia|lia].
      - intros Henc Hrun.
        pose proof (conversation_loop_completes run timeout total
                      (Z.to_nat (k + 1)) Hrun 0
                      (begin_run (JArr convs) total 0 total w) convs) as H.
        replace (0 + Z.of_nat (Z.to_nat (k + 1))) with (k + 1) in H by lia.
        apply H; [done|done|done|lia|lia]. }
  intros convs w k st_k total Hk Hmod Hloop.
  assert (Hrun : process_conversations run (JArr convs) timeout 0 None w
    = and_finish 0 total
        (conversation_loop run timeout total (py_range (k + 1) total 1) st_k)).
  { unfold process_conversations. cbn [py_len effective_end]. fold total.
    rewrite (py_range_split 0 (k + 1) total) by lia.
    by rewrite conversation_loop_app, Hloop. }
  split; [done|]. rewrite Hrun, data_and_finish.
  pose proof (conversation_loop_frame run timeout total 0 convs
                (Z.to_nat (k + 1)) 0 (begin_run (JArr convs) total 0 total w)
                convs) as Hk1.
  replace (0 + Z.of_nat (Z.to_nat (k + 1))) with (k + 1) in Hk1 by lia.
  specialize (Hk1 ltac:(lia) ltac:(lia) eq_refl (dataset_frame_refl _ _ _)).
  cbv zeta in Hk1. rewrite Hloop in Hk1. cbn [final] in Hk1.
  destruct Hk1 as (convs_k & Hdata_k & Hframe_k & _).
  assert (Hfile_k : output_file st_k = Some (Dumped (JArr convs_k))).
  { rewrite (py_range_split 0 k (k + 1)) in Hloop by lia.
    rewrite (py_range_cons k), (py_range_nil (k + 1) (k + 1)) in Hloop by lia.
    apply conversation_loop_last in Hloop as [st1 Hbody].
    apply conversation_body_cadence in Hbody.
    rewrite decide_True in Hbody by done. destruct Hbody. congruence. }
  pose proof (conversation_loop_frame run timeout total (k + 1) convs_k
                (Z.to_nat (total - (k + 1))) (k + 1) st_k convs_k) as Hf.
  replace (k + 1 + Z.of_nat (Z.to_nat (total - (k + 1)))) with total in Hf by lia.
  specialize (Hf ltac:(lia) ltac:(lia) Hdata_k (dataset_frame_refl _ _ _)).
  cbv zeta in Hf.
  destruct Hf as (convs_f & Hdata_f & Hframe_f & _).
  exists convs_k, convs_f. repeat split; try done.
  - apply Hframe_k.
  - apply Hframe_k.
  - intros p c c' Hp Hc Hc'.
    eapply (conversation_loop_executed run timeout total convs 0 (k + 1)
              (begin_run (JArr convs) total 0 total w) st_k convs_k p c c');
      [lia|lia|reflexivity|exact Hdata_k|exact Hloop|exact Hc|exact Hc'].
  - apply Hframe_f.
  - apply Hframe_f.
Qed.

(** C10, amended: when the range is empty, because the start index is at
    or past the effective end index, the run touches no conversation and
    runs no command, and the final save is made: when every text of the
    dataset can be encoded it writes the input dataset to the output path
    and the run completes; otherwise the run ends with
    [UnicodeEncodeError] before its last line and the output path holds
    the beginning of the text. *)
Theorem empty_range_copies input timeout start_index end_index w total :
  py_len input = Some total →
  effective_end total end_index <= start_index →
  let e := effective_end total end_index in
  let shown :=
    [PrintReading; PrintTotal total;
     PrintRange start_index (e - 1) (e - start_index);
     PrintRule; PrintFinished] in
  process_conversations run input timeout start_index end_index w
  = if encodable input
    then Normal
           {| data := input;
              output_file := Some (Dumped input);
              run_io :=
                {| world := w;
                   console := shown ++ [PrintProcessed (e - start_index)] |} |}
    else Raised UnicodeEncodeError
           {| data := input;
              output_file := Some (Truncated input);
              run_io := {| world := w; console := shown |} |}.
Proof.
  intros Hlen He e shown. unfold process_conversations. rewrite Hlen.
  fold e. rewrite py_range_nil by (unfold e; lia).
  cbn [conversation_loop]. unfold finish_run, save, begin_run.
  cbn [say data]. by destruct (encodable input).
Qed.

End Checkpoint.

(** ** Determinism *)

Section Pure.

Context {World : Type} (run : World → json → Z → run_result * World).
Context (f : json → Z → run_result).
Hypothesis run_pure : ∀ w command timeout, (run w command timeout).1 = f command timeout.

Lemma execute_command_pure w command timeout :
  (execute_command run w command timeout).1
  = (execute_command (pure_run f) tt command timeout).1.
Proof.
  unfold execute_command, pure_run. rewrite <- (run_pure w command timeout).
  destruct (run w command timeout) as [[o e rc| |m] w']; done.
Qed.

Lemma pair_body_pure timeout i (st : turns_state World) :
  map_control forget_turns (pair_body run timeout i st)
  = pair_body (pure_run f) timeout i (forget_turns st).
Proof.
  unfold pair_body. cbn [forget_turns conversations_list round_num turns_io].
  destruct (py_len (conversations_list st)); [|done].
  destruct (decide _); [done|].
  destruct (py_getitem (conversations_list st) i); [done|].
  destruct (py_getitem (conversations_list st) (i + 1)); [done|].
  destruct (py_get _ (lit "from") JNull); [done|].
  destruct (differs_from _ (lit "human")); [done|].
  destruct (py_get _ (lit "from") JNull); [done|].
  destruct (differs_from _ (lit "gpt")); [done|].
  destruct (py_get _ (lit "value") (JStr [])) as [|command]; [done|].
  pose proof (execute_command_pure
                (world (print (PrintCommand (round_num st + 1) command)
                          (turns_io st))) command timeout) as Hexec.
  cbn [forget_io print world console].
  destruct (execute_command run _ command timeout) as [o1 w1].
  destruct (execute_command (pure_run f) tt command timeout) as [o2 []].
  simpl in Hexec. subst o2. done.
Qed.

Lemma pair_loop_pure timeout indices :
  ∀ st : turns_state World,
    map_result forget_turns (pair_loop run timeout indices st)
    = pair_loop (pure_run f) timeout indices (forget_turns st).
Proof.
  induction indices as [|i indices IH]; intros st; [done|].
  cbn [pair_loop]. rewrite <- pair_body_pure.
  destruct (pair_body run timeout i st); simpl; auto.
Qed.

Lemma conversation_body_pure timeout e conv_idx (st : state World) :
  map_result forget_state (conversation_body run timeout e conv_idx st)
  = conversation_body (pure_run f) timeout e conv_idx (forget_state st).
Proof.
  unfold conversation_body. cbn [forget_state data].
  destruct (py_getitem (data st) conv_idx) as [|c]; [done|].
  destruct (py_get c (lit "conversations") (JArr [])) as [|cl]; [done|].
  destruct (py_len cl) as [n|]; [|done].
  cbn [say data output_file run_io].
  pose proof (pair_loop_pure timeout (py_range 0 n 2)
    {| conversations_list := cl; round_num := 0;
       turns_io := print (PrintConversation (conv_idx + 1) e) (run_io st) |})
    as Hloop.
  unfold forget_turns in Hloop at 2.
  cbn [conversations_list round_num turns_io] in Hloop.
  change (forget_io (print ?ev ?s)) with (print ev (forget_io s)) in Hloop.
  change (run_io (forget_state st)) with (forget_io (run_io st)).
  change (data (forget_state st)) with (data st).
  change (output_file (forget_state st)) with (output_file st).
  rewrite <- Hloop.
  destruct (pair_loop run timeout (py_range 0 n 2) _) as [st'|err st'];
    cbn [map_result final forget_turns conversations_list turns_io]; [|done].
  destruct (decide _); [|done].
  unfold save. cbn [say data]. by destruct (encodable _).
Qed.

Lemma conversation_loop_pure timeout e indices :
  ∀ st : state World,
    map_result forget_state (conversation_loop run timeout e indices st)
    = conversation_loop (pure_run f) timeout e indices (forget_state st).
Proof.
  induction indices as [|i indices IH]; intros st; [done|].
  cbn [conversation_loop]. rewrite <- conversation_body_pure.
  destruct (conversation_body run timeout e i st); simpl; auto.
Qed.

Lemma process_conversations_pure input timeout start_index end_index w :
  map_result forget_state
    (process_conversations run input timeout start_index end_index w)
  = process_conversations (pure_run f) input timeout start_index end_index tt.
Proof.
  unfold process_conversations. destruct (py_len input) as [total|]; [|done].
  change (begin_run input total start_index ?e tt)
    with (forget_state (begin_run input total start_index e w)).
  rewrite <- conversation_loop_pure.
  destruct (conversation_loop run timeout _ _ _) as [st|err st]; [|done].
  cbn [map_result]. unfold finish_run, save. cbn [say data forget_state].
  by destruct (encodable _).
Qed.

End Pure.

Lemma observation_forget {World} (r : result (state World)) :
  observation (map_result forget_state r) = observation r.
Proof. by destruct r. Qed.

(** C9: the run is a function of the input dataset, the range, the
    timeout and what the commands give: in two environments, whatever
    their worlds are, in which every command gives what one and the same
    function of the command says, the runs end alike, with the same
    dataset in memory, the same dataset on the output path and the same
    console. *)
Theorem runs_agree {World1 World2 : Type}
    (run1 : World1 → json → Z → run_result * World1)
    (run2 : World2 → json → Z → run_result * World2)
    (f : json → Z → run_result)
    input timeout start_index end_index w1 w2 :
  (∀ w command t, (run1 w command t).1 = f command t) →
  (∀ w command t, (run2 w command t).1 = f command t) →
  observation (process_conversations run1 input timeout start_index end_index w1)
  = observation (process_conversations run2 input timeout start_index end_index w2).
Proof.
  intros H1 H2.
  rewrite <- (observation_forget (process_conversations run1 _ _ _ _ _)).
  rewrite <- (observation_forget (process_conversations run2 _ _ _ _ _)).
  by rewrite (process_conversations_pure run1 f H1),
             (process_conversations_pure run2 f H2).
Qed.

(** * The scenarios of the specification and the instances of the theorems *)

Example scenario_echo :
  data (final (process_conversations demo_run
                 (JArr [JObj [(lit "conversations",
                               JArr [turn "human" "echo hi"; turn "gpt" ""])]])
                 30 0 None 0%nat))
  = JArr [JObj [(lit "conversations",
                 JArr [turn "human" "echo hi"; turn "gpt" "hi"])]].
Proof. reflexivity. Qed.

Example scenario_timeout :
  data (final (process_conversations demo_run
                 (JArr [JObj [(lit "conversations",
                               JArr [turn "human" "sleep 5"; turn "gpt" ""])]])
                 1 0 None 0%nat))
  = JArr [JObj [(lit "conversations",
                 JArr [turn "human" "sleep 5";
                       JObj [(lit "from", JStr (lit "gpt"));
                             (lit "value", JStr (timeout_marker 1))]])]].
Proof. reflexivity. Qed.

Example scenario_range :
  output_file (final (process_conversations demo_run (JArr demo_dataset)
                        30 1 (Some 2) 0%nat))
  = Some (Dumped (JArr
      [conversation [turn "human" "echo hi"; turn "gpt" ""];
       conversation [turn "human" "false"; turn "gpt" "";
                     turn "gpt" "x"; turn "human" "echo hi";
                     turn "human" "echo hi"];
       conversation [turn "human" "echo hi"; turn "gpt" "old"]])).
Proof. reflexivity. Qed.

Lemma execute_command_completed_witness :
  demo_run 0%nat (JStr (lit "ls x")) 30
  = (Completed [] (lit "sh: 1: ls x: not found" ++ [10]%N) 127, 1%nat)
  ∧ ∃ r, execute_command demo_run 0%nat (JStr (lit "ls x")) 30 = (r, 1%nat)
         ∧ trimmed_of (joined_streams [] (lit "sh: 1: ls x: not found" ++ [10]%N)) r
         ∧ (Forall is_space (joined_streams [] (lit "sh: 1: ls x: not found" ++ [10]%N))
            → r = []).
Proof.
  split; [reflexivity|].
  apply (execute_command_completed demo_run 0%nat (JStr (lit "ls x")) 30
           [] (lit "sh: 1: ls x: not found" ++ [10]%N) 127 1%nat).
  reflexivity.
Defined.


Lemma failure_is_reported_witness :
  demo_run 0%nat JNull 30 = (OtherException (lit "expected str"), 0%nat)
  ∧ execute_command demo_run 0%nat JNull 30
    = ([91; 21629; 20196; 25191; 34892; 38169; 35823; 58; 32;
        101; 120; 112; 101; 99; 116; 101; 100; 32; 115; 116; 114; 93]%N,
       0%nat).
Proof.
  split; [reflexivity|].
  apply (proj1 (failure_is_reported demo_run 30) 0%nat JNull (lit "expected str") 0%nat).
  reflexivity.
Defined.

Lemma invalid_pair_is_skipped_witness :
  ¬ valid_pair (turn_fields "gpt" "x") (turn_fields "human" "echo hi")
  ∧ ∃ st',
      conversation_body demo_run 30 3 1 (begin_run (JArr demo_dataset) 3 0 3 0%nat)
      = Normal st'
      ∧ data st'
        = JArr [conversation [turn "human" "echo hi"; turn "gpt" ""];
                conversation [turn "human" "false"; turn "gpt" "";
                              turn "gpt" "x"; turn "human" "echo hi";
                              turn "human" "echo hi"];
                conversation [turn "human" "echo hi"; turn "gpt" "old"]]
      ∧ PrintWarning 2 ∈ console (run_io st').
Proof.
  assert (Hinv : ¬ valid_pair (turn_fields "gpt" "x") (turn_fields "human" "echo hi")).
  { intros [H _]. vm_compute in H. discriminate H. }
  split; [exact Hinv|].
  destruct (invalid_pair_is_skipped demo_run 30 3 1
              (begin_run (JArr demo_dataset) 3 0 3 0%nat) demo_dataset 1%nat
              [(lit "id", JNumber (lit "7"));
               (lit "conversations",
                JArr [turn "human" "false"; turn "gpt" "old";
                      turn "gpt" "x"; turn "human" "echo hi";
                      turn "human" "echo hi"])]
              [turn "human" "false"; turn "gpt" "old";
               turn "gpt" "x"; turn "human" "echo hi"; turn "human" "echo hi"]
              1%nat (turn_fields "gpt" "x") (turn_fields "human" "echo hi")
              eq_refl eq_refl eq_refl eq_refl eq_refl eq_refl Hinv)
    as (turns' & _ & _ & _ & _ & Hfin & Hdone).
  specialize (Hfin eq_refl).
  destruct (Hdone Hfin) as (evs & Hconsole & Hwarn & _).
  eexists. split; [vm_compute; reflexivity|]. split; [reflexivity|].
  cbn [final] in Hconsole.
  match goal with
  | H : console (run_io (final ?r)) = _ |- _ ∈ console (run_io ?x) =>
      change (console (run_io x)) with (console (run_io (final r)))
  end.
  rewrite Hconsole. apply elem_of_app. right.
  apply elem_of_cons. right. apply elem_of_app. left. exact Hwarn.
Defined.

Lemma pairs_are_walked_witness :
  Nat.Even (length [turn "human" "echo hi"; turn "gpt" ""])
  ∧ conversation_body demo_run 30 1 0
      (begin_run
         (JArr [conversation [turn "human" "echo hi"; turn "gpt" "";
                              JNumber (lit "1")]]) 1 0 1 0%nat)
    = after_turns 1 0
        (begin_run
           (JArr [conversation [turn "human" "echo hi"; turn "gpt" "";
                                JNumber (lit "1")]]) 1 0 1 0%nat)
        [conversation [turn "human" "echo hi"; turn "gpt" ""; JNumber (lit "1")]]
        0%nat
        [(lit "id", JNumber (lit "7"));
         (lit "conversations",
          JArr [turn "human" "echo hi"; turn "gpt" ""; JNumber (lit "1")])]
        [JNumber (lit "1")]
        (walk_pairs demo_run 30 0 [turn "human" "echo hi"; turn "gpt" ""] 0
           (print (PrintConversation (0 + 1) 1)
              (run_io
                 (begin_run
                    (JArr [conversation [turn "human" "echo hi"; turn "gpt" "";
                                         JNumber (lit "1")]]) 1 0 1 0%nat)))).
Proof.
  assert (Heven : Nat.Even (length [turn "human" "echo hi"; turn "gpt" ""])).
  { exists 1%nat. reflexivity. }
  split; [exact Heven|].
  apply (proj1 (proj2 (pairs_are_walked demo_run 30 1 0
                         (begin_run
                            (JArr [conversation [turn "human" "echo hi";
                                                 turn "gpt" "";
                                                 JNumber (lit "1")]])
                            1 0 1 0%nat)
                         [conversation [turn "human" "echo hi"; turn "gpt" "";
                                        JNumber (lit "1")]]
                         0%nat
                         [(lit "id", JNumber (lit "7"));
                          (lit "conversations",
                           JArr [turn "human" "echo hi"; turn "gpt" "";
                                 JNumber (lit "1")])]
                         eq_refl eq_refl eq_refl))
           [turn "human" "echo hi"; turn "gpt" ""] (JNumber (lit "1"))
           eq_refl Heven).
Defined.

Lemma run_frame_witness :
  0 <= 1
  ∧ ∃ convs',
      output_file (final (process_conversations demo_run (JArr demo_dataset)
                            30 1 (Some 2) 0%nat))
      = Some (Dumped (JArr convs'))
      ∧ dataset_frame 1 2 demo_dataset convs'.
Proof.
  split; [lia|].
  destruct (run_frame demo_run demo_dataset 30 1 (Some 2) 0%nat _
              ltac:(lia) eq_refl) as (convs' & Hout & Hframe & _).
  exists convs'. split; [by rewrite <- Hout|exact Hframe].
Defined.

(** With a negative start index Python counts from the end of the list:
    the run from -1 to 0 executes the last conversation, which is not in
    the range. *)
Lemma run_frame_negative_start :
  ∃ convs',
    output_file (final (process_conversations demo_run (JArr demo_dataset)
                          30 (-1) (Some 0) 0%nat))
    = Some (Dumped (JArr convs'))
    ∧ ¬ dataset_frame (-1) (effective_end 3 (Some 0)) demo_dataset convs'.
Proof.
  eexists. split; [vm_compute; reflexivity|].
  intros [_ H].
  destruct (H 2%nat _ eq_refl) as (c' & Hc' & _ & Hout).
  vm_compute in Hc'. injection Hc' as <-.
  assert (Hp : ¬ -1 <= Z.of_nat 2 < effective_end 3 (Some 0))
    by (vm_compute; intros [_ Hlt]; discriminate Hlt).
  specialize (Hout Hp). vm_compute in Hout. discriminate Hout.
Qed.

Lemma checkpoint_contents_witness :
  0 <= 9 < Z.of_nat (length demo_long)
  ∧ (9 + 1) `mod` 10 = 0
  ∧ ∃ st_k convs_k,
      conversation_loop demo_run 30 11 (py_range 0 (9 + 1) 1)
        (begin_run (JArr demo_long) 11 0 11 0%nat) = Normal st_k
      ∧ output_file st_k = Some (Dumped (JArr convs_k))
      ∧ dataset_frame 0 (9 + 1) demo_long convs_k.
Proof.
  split; [vm_compute; split; [discriminate|reflexivity]|].
  split; [reflexivity|].
  assert (Hloop :
    conversation_loop demo_run 30 11 (py_range 0 (9 + 1) 1)
      (begin_run (JArr demo_long) 11 0 11 0%nat)
    = Normal (final (conversation_loop demo_run 30 11 (py_range 0 (9 + 1) 1)
                       (begin_run (JArr demo_long) 11 0 11 0%nat))))
    by (vm_compute; reflexivity).
  destruct (proj1 (proj2 (checkpoint_contents demo_run 30)) demo_long 0%nat 9 _
              ltac:(vm_compute; split; [discriminate|reflexivity])
              eq_refl Hloop)
    as (_ & convs_k & convs_f & _ & Hfile & Hframe & _).
  eexists _, convs_k. split; [exact Hloop|]. split; [exact Hfile|exact Hframe].
Defined.

(** Ten conversations of the documented shape, one of them with a lone
    surrogate in a field that the loop never touches: conversation 9 is
    completed, all ten commands have been run, and the checkpoint after it
    ends the run; the output path holds the beginning of a text and not
    the dataset. *)
Lemma checkpoint_not_written :
  well_formed demo_surrogate = true
  ∧ ∃ st,
      process_conversations demo_run (JArr demo_surrogate) 30 0 None 0%nat
      = Raised UnicodeEncodeError st
      ∧ world (run_io st) = 10%nat
      ∧ last (console (run_io st)) = Some PrintAutoSave
      ∧ output_file st = Some (Truncated (data st))
      ∧ ∀ out, output_file st ≠ Some (Dumped out).
Proof.
  split; [reflexivity|]. eexists. split; [vm_compute; reflexivity|].
  split; [reflexivity|]. split; [reflexivity|]. split; [reflexivity|].
  intros out H. discriminate H.
Qed.

Lemma end_is_clamped_witness :
  (∀ e, Some 100 = Some e → Z.of_nat (length demo_dataset) < e)
  ∧ effective_end (Z.of_nat (length demo_dataset)) (Some 100) = 3
  ∧ process_conversations demo_run (JArr demo_dataset) 30 0 (Some 100) 0%nat
    = process_conversations demo_run (JArr demo_dataset) 30 0 (Some 3) 0%nat.
Proof.
  assert (Hend : ∀ e, Some 100 = Some e → Z.of_nat (length demo_dataset) < e)
    by (intros e [= <-]; reflexivity).
  split; [exact Hend|].
  destruct (end_is_clamped demo_run demo_dataset 30 0 (Some 100) 0%nat Hend)
    as (He & Hrun & _).
  split; [exact He|exact Hrun].
Defined.

(** With an end index past the length, a start index below minus the
    length is an access out of bounds, and a dataset with a lone
    surrogate ends the run at its final save. *)
Lemma end_is_clamped_still_raises :
  process_conversations demo_run (JArr demo_dataset) 30 (-5) (Some 100) 0%nat
  = Raised IndexError (begin_run (JArr demo_dataset) 3 (-5) 3 0%nat)
  ∧ well_formed [surrogate_conversation] = true
  ∧ ∃ st,
      process_conversations demo_run (JArr [surrogate_conversation]) 30 0
        (Some 100) 0%nat
      = Raised UnicodeEncodeError st.
Proof.
  split; [vm_compute; reflexivity|]. split; [reflexivity|].
  eexists. vm_compute. reflexivity.
Qed.

Lemma demo_run_pure w command timeout :
  (demo_run w command timeout).1 = demo_outcome command timeout.
Proof.
  unfold demo_outcome, demo_run. destruct command; try reflexivity.
  repeat case_decide; reflexivity.
Qed.

Lemma runs_agree_witness :
  (∀ w command t, (demo_run w command t).1 = demo_outcome command t)
  ∧ (∀ w command t, (pure_run demo_outcome w command t).1 = demo_outcome command t)
  ∧ observation (process_conversations demo_run (JArr demo_dataset)
                   30 0 None 5%nat)
    = observation (process_conversations (pure_run demo_outcome)
                     (JArr demo_dataset) 30 0 None tt).
Proof.
  split; [exact demo_run_pure|]. split; [reflexivity|].
  apply (runs_agree demo_run (pure_run demo_outcome) demo_outcome
           (JArr demo_dataset) 30 0 None 5%nat tt demo_run_pure).
  reflexivity.
Defined.

Lemma empty_range_copies_witness :
  py_len (JArr demo_dataset) = Some 3
  ∧ effective_end 3 (Some 1) <= 2
  ∧ output_file (final (process_conversations demo_run (JArr demo_dataset)
                          30 2 (Some 1) 0%nat))
    = Some (Dumped (JArr demo_dataset)).
Proof.
  split; [reflexivity|].
  assert (He : effective_end 3 (Some 1) <= 2) by (vm_compute; discriminate).
  split; [exact He|].
  by rewrite (empty_range_copies demo_run (JArr demo_dataset) 30 2 (Some 1)
                0%nat 3 eq_refl He).
Defined.

(** An empty range on a dataset with a lone surrogate: the final save is
    made and raises, and the output path does not hold the input. *)
Lemma empty_range_not_copied :
  effective_end 1 None <= 1
  ∧ ∃ st,
      process_conversations demo_run (JArr [surrogate_conversation]) 30 1 None
        0%nat
      = Raised UnicodeEncodeError st
      ∧ data st = JArr [surrogate_conversation]
      ∧ output_file st ≠ Some (Dumped (JArr [surrogate_conversation])).
Proof.
  split; [vm_compute; discriminate|].
  eexists. split; [vm_compute; reflexivity|]. split; [reflexivity|].
  intros H. discriminate H.
Qed.

(** * Further properties of the code *)

(** ** The text that [execute_command] returns *)

Lemma lit_inj s1 s2 : lit s1 = lit s2 → s1 = s2.
Proof.
  unfold lit. intros H.
  rewrite <- (string_of_list_ascii_of_string s1),
          <- (string_of_list_ascii_of_string s2).
  f_equal. revert H.
  generalize (list_ascii_of_string s1) (list_ascii_of_string s2).
  induction l as [|a l IH]; intros [|b l']; simpl; try done.
  intros [= Hab Hl]. f_equal; [|by apply IH].
  by rewrite <- (ascii_N_embedding a), <- (ascii_N_embedding b), Hab.
Qed.

Lemma str_of_int_inj n1 n2 : str_of_int n1 = str_of_int n2 → n1 = n2.
Proof. unfold str_of_int. intros H%lit_inj. by apply (inj pretty). Qed.

Section Text.

Context {World : Type} (run : World → json → Z → run_result * World).

(** Whatever the subprocess does, the text that [execute_command] returns
    has no whitespace at its ends: the output of a completed process is
    stripped, and the two markers begin and end with a bracket. *)
Theorem execute_command_trimmed w command timeout :
  trimmed (execute_command run w command timeout).1.
Proof.
  unfold execute_command.
  destruct (run w command timeout) as [[stdout stderr rc| |message] w']; simpl.
  - rewrite combine_output_joined.
    destruct (strip_trimmed (joined_streams stdout stderr))
      as (l & t & _ & _ & _ & Hh & Hl).
    by split.
  - split.
    + intros c [= <-]. by intros [=].
    + intros c. unfold timeout_marker.
      rewrite app_assoc, (last_app _ [31186; 93]%N). simpl.
      intros [= <-]. by intros [=].
  - split.
    + intros c [= <-]. by intros [=].
    + intros c. unfold error_marker.
      rewrite app_assoc, last_snoc. intros [= <-]. by intros [=].
Qed.

End Text.

(** The markers can be told apart: two timeouts give two timeout markers,
    two descriptions give two error markers, and no timeout marker is an
    error marker. *)
Theorem markers_distinct :
  (∀ t1 t2, timeout_marker t1 = timeout_marker t2 → t1 = t2)
  ∧ (∀ m1 m2, error_marker m1 = error_marker m2 → m1 = m2)
  ∧ (∀ t m, timeout_marker t ≠ error_marker m).
Proof.
  split; [|split].
  - intros t1 t2 H. unfold timeout_marker in H.
    apply app_inv_head, app_inv_tail in H. by apply str_of_int_inj.
  - intros m1 m2 H. unfold error_marker in H.
    by apply app_inv_head, app_inv_tail in H.
  - intros t m H. unfold timeout_marker, error_marker in H. simpl in H.
    discriminate H.
Qed.

(** ** The preview of an output *)

Lemma escape_newlines_length s : (length (escape_newlines s) <= 2 * length s)%nat.
Proof.
  unfold escape_newlines. induction s as [|c s IH]; [simpl; lia|].
  rewrite bind_cons, length_app. simpl length at 3.
  destruct (c =? 10)%N; simpl length at 1; lia.
Qed.

Lemma escape_newlines_free s : 10%N ∉ escape_newlines s.
Proof.
  unfold escape_newlines. intros (c & Hin & _)%list_elem_of_bind.
  destruct (c =? 10)%N eqn:Hc.
  - apply elem_of_cons in Hin as [?|Hin]; [done|].
    apply elem_of_cons in Hin as [?|Hin]; [done|]. by apply elem_of_nil in Hin.
  - apply elem_of_cons in Hin as [<-|Hin]; [|by apply elem_of_nil in Hin].
    by rewrite N.eqb_refl in Hc.
Qed.

Lemma escape_newlines_id s : 10%N ∉ s → escape_newlines s = s.
Proof.
  unfold escape_newlines. induction s as [|c s IH]; [done|].
  intros Hs. apply not_elem_of_cons in Hs as [Hc Hs].
  rewrite bind_cons. destruct (c =? 10)%N eqn:Hc'.
  - apply N.eqb_eq in Hc'. by subst.
  - simpl. by rewrite IH.
Qed.

Lemma escape_newlines_app s1 s2 :
  escape_newlines (s1 ++ s2) = escape_newlines s1 ++ escape_newlines s2.
Proof. unfold escape_newlines. apply bind_app. Qed.


(** ** What the loop over the turns does pair by pair *)

Lemma tagged_valid (h g : dict) :
  tagged h "human" && tagged g "gpt" = true ↔ valid_pair h g.
Proof.
  unfold tagged, valid_pair. rewrite andb_true_iff, !negb_true_iff. split.
  - intros [Hh Hg]. by apply differs_from_false, default_null_str in Hh, Hg.
  - intros [-> ->]. cbn [default from_option id differs_from].
    by rewrite !bool_decide_eq_true_2.
Qed.

Lemma is_normal_map_result {A B} (f : A → B) (r : result A) :
  is_normal (map_result f r) = is_normal r.
Proof. by destruct r. Qed.

Section PairSteps.

Context {World : Type} (run : World → json → Z → run_result * World).

(** A step that succeeds has skipped the pair with a warning, or has run
    its command. *)
Lemma pair_step_inr timeout i h g rn (s : io World) g' rn' s' :
  pair_step run timeout i h g rn s = inr (g', rn', s') →
  (pair_command h g = None ∧ g' = g ∧ rn' = rn
   ∧ s' = print (PrintWarning i) s)
  ∨ (∃ c, pair_command h g = Some c ∧ rn' = rn + 1
          ∧ g' = set_value g (execute_command run (world s) c timeout).1
          ∧ s' = {| world := (execute_command run (world s) c timeout).2;
                    console :=
                      console s
                      ++ [PrintCommand (rn + 1) c;
                          PrintPreview (rn + 1)
                            (preview_of
                               (execute_command run (world s) c timeout).1)] |}).
Proof.
  unfold pair_step, pair_command, tagged.
  destruct h as [| | | | |hd]; try done. cbn [py_get].
  destruct (differs_from (default JNull (dict_lookup (lit "from") hd)) _).
  { intros [= <- <- <-]. left. by destruct g. }
  destruct g as [| | | | |gd]; try done. cbn [py_get].
  destruct (differs_from (default JNull (dict_lookup (lit "from") gd)) _).
  { intros [= <- <- <-]. by left. }
  fold (command_of hd). unfold print. cbn [world console negb andb].
  destruct (execute_command run (world s) (command_of hd) timeout)
    as [output w] eqn:Hexec.
  intros [= <- <- <-]. right. exists (command_of hd).
  by rewrite Hexec, <- app_assoc.
Qed.

Lemma pair_step_inl timeout i h g rn (s : io World) :
  is_error (pair_step run timeout i h g rn s) = negb (pair_safe h g).
Proof.
  unfold pair_step, pair_safe, tagged.
  destruct h as [| | | | |hd]; try done. cbn [py_get].
  destruct (differs_from (default JNull (dict_lookup (lit "from") hd)) _);
    [done|].
  destruct g as [| | | | |gd]; try done. cbn [py_get negb is_dict].
  destruct (differs_from (default JNull (dict_lookup (lit "from") gd)) _);
    [done|].
  by destruct (execute_command run _ _ timeout).
Qed.

Lemma walk_pairs_safe timeout (turns : list json) :
  ∀ i rn (s : io World),
    is_normal (walk_pairs run timeout i turns rn s) = pairs_safe turns.
Proof.
  induction turns as [|x|h g rest IH] using pair_ind; intros i rn s; try done.
  cbn [walk_pairs pairs_safe].
  pose proof (pair_step_inl timeout i h g rn s) as Hinl.
  destruct (pair_step run timeout i h g rn s) as [e|[[g' rn'] s']];
    simpl in Hinl.
  - symmetry in Hinl. apply negb_true_iff in Hinl. by rewrite Hinl.
  - symmetry in Hinl. apply negb_false_iff in Hinl. rewrite Hinl.
    by rewrite is_normal_map_result, IH.
Qed.


End PairSteps.

(** ** Rounds, warnings and the commands that are run *)

Lemma count_events_app p evs1 evs2 :
  count_events p (evs1 ++ evs2) = (count_events p evs1 + count_events p evs2)%nat.
Proof. unfold count_events. by rewrite List.filter_app, length_app. Qed.

Lemma half_SS n : (S (S n) / 2 = S (n / 2))%nat.
Proof.
  replace (S (S n)) with (n + 1 * 2)%nat by lia.
  rewrite Nat.div_add by lia. lia.
Qed.

Lemma execute_command_traced {World}
    (run : World → json → Z → run_result * World) w calls command timeout :
  execute_command (traced run) (w, calls) command timeout
  = ((execute_command run w command timeout).1,
     ((execute_command run w command timeout).2,
      calls ++ [(command, timeout)])).
Proof.
  unfold execute_command, traced.
  by destruct (run w command timeout) as [[o e rc| |m] w'].
Qed.

Section Rounds.

Context {World : Type} (run : World → json → Z → run_result * World).

Lemma walk_pairs_account timeout (turns : list json) :
  ∀ i rn (s : io World) ts rn' s',
    walk_pairs run timeout i turns rn s = Normal (ts, rn', s') →
    ∃ evs,
      console s' = console s ++ evs
      ∧ (count_events is_warning evs + count_events is_command evs
         = length turns / 2)%nat
      ∧ List.filter is_command evs = command_lines rn (commands_of turns)
      ∧ count_events is_preview evs = count_events is_command evs
      ∧ (length evs
         = count_events is_warning evs + 2 * count_events is_command evs)%nat
      ∧ rn' = rn + Z.of_nat (length (commands_of turns)).
Proof.
  induction turns as [|x|h g rest IH] using pair_ind;
    intros i rn s ts rn' s' Hwalk.
  - injection Hwalk as <- <- <-. exists []. rewrite app_nil_r, Z.add_0_r. done.
  - injection Hwalk as <- <- <-. exists []. rewrite app_nil_r, Z.add_0_r. done.
  - cbn [walk_pairs] in Hwalk.
    destruct (pair_step run timeout i h g rn s) as [e|[[g' rn1] s1]] eqn:Hstep;
      [done|].
    destruct (walk_pairs run timeout (i + 2) rest rn1 s1)
      as [[[ts1 rn2] s2]|] eqn:Hrest; [|done].
    simpl in Hwalk. injection Hwalk as <- <- <-.
    destruct (IH _ _ _ _ _ _ Hrest)
      as (evs & Hc & Hcount & Hcmds & Hprev & Hlen & Hrn).
    cbn [commands_of length]. rewrite half_SS.
    apply pair_step_inr in Hstep
      as [(Hnone & _ & -> & ->)|(c & Hsome & -> & _ & ->)].
    + rewrite Hnone. exists (PrintWarning i :: evs).
      unfold print in Hc. cbn [console] in Hc. rewrite <- app_assoc in Hc.
      split; [done|]. unfold count_events in *.
      cbn [List.filter is_warning is_command is_preview length].
      repeat split; try done; lia.
    + rewrite Hsome. cbn [console] in Hc. rewrite <- app_assoc in Hc.
      exists (PrintCommand (rn + 1) c
              :: PrintPreview (rn + 1)
                   (preview_of (execute_command run (world s) c timeout).1)
              :: evs).
      split; [done|]. unfold count_events in *.
      cbn [List.filter is_warning is_command is_preview command_lines length].
      split; [lia|]. split; [by rewrite Hcmds|]. repeat split; lia.
Qed.

Lemma walk_pairs_traced timeout (turns : list json) :
  ∀ i rn (s : io (World * list (json * Z))) ts rn' s',
    walk_pairs (traced run) timeout i turns rn s = Normal (ts, rn', s') →
    (world s').2 = (world s).2 ++ ((λ c, (c, timeout)) <$> commands_of turns).
Proof.
  induction turns as [|x|h g rest IH] using pair_ind;
    intros i rn s ts rn' s' Hwalk.
  - injection Hwalk as <- <- <-. by rewrite app_nil_r.
  - injection Hwalk as <- <- <-. by rewrite app_nil_r.
  - cbn [walk_pairs] in Hwalk.
    destruct (pair_step (traced run) timeout i h g rn s)
      as [e|[[g' rn1] s1]] eqn:Hstep; [done|].
    destruct (walk_pairs (traced run) timeout (i + 2) rest rn1 s1)
      as [[[ts1 rn2] s2]|] eqn:Hrest; [|done].
    simpl in Hwalk. injection Hwalk as <- <- <-.
    rewrite (IH _ _ _ _ _ _ Hrest). cbn [commands_of].
    apply pair_step_inr in Hstep
      as [(Hnone & _ & -> & ->)|(c & Hsome & -> & _ & ->)].
    + by rewrite Hnone.
    + rewrite Hsome. cbn [world]. destruct (world s) as [w calls].
      rewrite execute_command_traced. cbn [snd fmap list_fmap].
      by rewrite <- app_assoc.
Qed.


End Rounds.

(** ** Environments that answer alike *)

Section Simulation.

Context {W1 W2 : Type}.
Context (run1 : W1 → json → Z → run_result * W1).
Context (run2 : W2 → json → Z → run_result * W2).
Context (R : W1 → W2 → Prop).
Hypothesis run_alike : ∀ w1 w2 command timeout,
  R w1 w2 →
  (run1 w1 command timeout).1 = (run2 w2 command timeout).1
  ∧ R (run1 w1 command timeout).2 (run2 w2 command timeout).2.

Lemma execute_command_alike w1 w2 command timeout :
  R w1 w2 →
  (execute_command run1 w1 command timeout).1
  = (execute_command run2 w2 command timeout).1
  ∧ R (execute_command run1 w1 command timeout).2
      (execute_command run2 w2 command timeout).2.
Proof.
  intros HR. destruct (run_alike w1 w2 command timeout HR) as [Hr Hw].
  unfold execute_command.
  destruct (run1 w1 command timeout) as [r1 w1'],
           (run2 w2 command timeout) as [r2 w2'].
  simpl in Hr, Hw. subst r2. by destruct r1.
Qed.

Lemma pair_body_alike timeout i st1 st2 :
  turns_alike R st1 st2 →
  control_alike (turns_alike R)
    (pair_body run1 timeout i st1) (pair_body run2 timeout i st2).
Proof.
  intros Hst. pose proof Hst as (Hcl & Hrn & Hcons & Hw).
  unfold pair_body. rewrite <- Hcl, <- Hrn.
  destruct (py_len (conversations_list st1)); [|done].
  destruct (decide _); [done|].
  destruct (py_getitem (conversations_list st1) i); [done|].
  destruct (py_getitem (conversations_list st1) (i + 1)); [done|].
  destruct (py_get _ (lit "from") JNull); [done|].
  destruct (differs_from _ (lit "human")).
  { unfold print. simpl. by rewrite Hcons. }
  destruct (py_get _ (lit "from") JNull); [done|].
  destruct (differs_from _ (lit "gpt")).
  { unfold print. simpl. by rewrite Hcons. }
  destruct (py_get _ (lit "value") (JStr [])) as [|command]; [done|].
  unfold print. cbn [world console].
  destruct (execute_command_alike (world (turns_io st1)) (world (turns_io st2))
              command timeout Hw) as [Hout HR].
  destruct (execute_command run1 _ command timeout) as [o1 w1'],
           (execute_command run2 _ command timeout) as [o2 w2'].
  simpl in Hout, HR. subst o2. simpl. by rewrite Hcons.
Qed.

Lemma pair_loop_alike timeout indices :
  ∀ st1 st2,
    turns_alike R st1 st2 →
    result_alike (turns_alike R)
      (pair_loop run1 timeout indices st1) (pair_loop run2 timeout indices st2).
Proof.
  induction indices as [|i indices IH]; intros st1 st2 Hst; [done|].
  cbn [pair_loop]. pose proof (pair_body_alike timeout i st1 st2 Hst) as Hb.
  destruct (pair_body run1 timeout i st1), (pair_body run2 timeout i st2);
    simpl in Hb; try done. by apply IH.
Qed.

Lemma save_alike (st1 : state W1) (st2 : state W2) :
  state_alike R st1 st2 →
  result_alike (state_alike R) (save st1) (save st2).
Proof.
  intros (Hd & Hf & Hc & Hw). unfold save. rewrite <- Hd.
  destruct (encodable (data st1)); repeat split; done.
Qed.

Lemma finish_run_alike start_index end_index (st1 : state W1) (st2 : state W2) :
  state_alike R st1 st2 →
  result_alike (state_alike R)
    (finish_run start_index end_index st1) (finish_run start_index end_index st2).
Proof.
  intros (Hd & Hf & Hc & Hw). unfold finish_run, save. cbn [say data].
  rewrite <- Hd.
  destruct (encodable (data st1)); unfold say, print;
    repeat split; simpl; rewrite ?Hc; done.
Qed.

Lemma conversation_body_alike timeout e conv_idx st1 st2 :
  state_alike R st1 st2 →
  result_alike (state_alike R)
    (conversation_body run1 timeout e conv_idx st1)
    (conversation_body run2 timeout e conv_idx st2).
Proof.
  intros Hst. pose proof Hst as (Hdata & Hfile & Hcons & Hw).
  unfold conversation_body. rewrite <- Hdata.
  destruct (py_getitem (data st1) conv_idx) as [|c]; [done|].
  destruct (py_get c (lit "conversations") (JArr [])) as [|cl]; [done|].
  destruct (py_len cl) as [n|].
  2:{ unfold say, print. simpl. by rewrite Hcons. }
  cbn [say data output_file run_io]. rewrite <- Hdata, <- Hfile.
  pose proof (pair_loop_alike timeout (py_range 0 n 2)
    {| conversations_list := cl; round_num := 0;
       turns_io := print (PrintConversation (conv_idx + 1) e) (run_io st1) |}
    {| conversations_list := cl; round_num := 0;
       turns_io := print (PrintConversation (conv_idx + 1) e) (run_io st2) |})
    as Hloop.
  destruct (pair_loop run1 timeout (py_range 0 n 2) _) as [a|e1 a],
           (pair_loop run2 timeout (py_range 0 n 2) _) as [b|e2 b];
    simpl in Hloop.
  - destruct Hloop as (Hcl & _ & Hc' & Hw').
    { unfold print. simpl. by rewrite Hcons. }
    cbn [final]. rewrite <- Hcl.
    destruct (decide _); [apply save_alike|]; unfold say, print;
      repeat split; simpl; rewrite ?Hc'; done.
  - destruct Hloop. unfold print. simpl. by rewrite Hcons.
  - destruct Hloop. unfold print. simpl. by rewrite Hcons.
  - destruct Hloop as (-> & Hcl & _ & Hc' & Hw').
    { unfold print. simpl. by rewrite Hcons. }
    cbn [final]. rewrite <- Hcl. simpl. done.
Qed.

Lemma conversation_loop_alike timeout e indices :
  ∀ st1 st2,
    state_alike R st1 st2 →
    result_alike (state_alike R)
      (conversation_loop run1 timeout e indices st1)
      (conversation_loop run2 timeout e indices st2).
Proof.
  induction indices as [|i indices IH]; intros st1 st2 Hst; [done|].
  cbn [conversation_loop].
  pose proof (conversation_body_alike timeout e i st1 st2 Hst) as Hb.
  destruct (conversation_body run1 timeout e i st1),
           (conversation_body run2 timeout e i st2); simpl in Hb; try done.
  by apply IH.
Qed.

Lemma process_conversations_alike input timeout start_index end_index w1 w2 :
  R w1 w2 →
  result_alike (state_alike R)
    (process_conversations run1 input timeout start_index end_index w1)
    (process_conversations run2 input timeout start_index end_index w2).
Proof.
  intros HR. unfold process_conversations.
  destruct (py_len input) as [total|]; [|done].
  pose proof (conversation_loop_alike timeout
    (effective_end total end_index)
    (py_range start_index (effective_end total end_index) 1)
    (begin_run input total start_index (effective_end total end_index) w1)
    (begin_run input total start_index (effective_end total end_index) w2))
    as Hloop.
  specialize (Hloop ltac:(done)).
  destruct (conversation_loop run1 _ _ _ _) as [a|e1 a],
           (conversation_loop run2 _ _ _ _) as [b|e2 b]; simpl in Hloop;
    try done.
  by apply finish_run_alike.
Qed.


End Simulation.

(** ** The calls that the environment receives *)

Lemma turns_frame_commands turns turns' :
  turns_frame turns turns' → commands_of turns' = commands_of turns.
Proof.
  induction 1 as [turns|h g rest rest' _ IH|h g output rest rest' [Hh Hg] _ IH];
    [done| |].
  - cbn [commands_of]. by rewrite IH.
  - cbn [commands_of pair_command]. rewrite IH.
    replace (tagged (dict_set (lit "value") (JStr output) g) "gpt")
      with (tagged g "gpt"); [done|].
    unfold tagged. by rewrite dict_lookup_set_ne.
Qed.

Lemma conversation_frame_commands c c' :
  conversation_frame c c' → conversation_commands c' = conversation_commands c.
Proof.
  intros [->|(d & turns & turns' & -> & Hl & Hf & ->)]; [done|].
  cbn [conversation_commands]. rewrite dict_lookup_set, Hl.
  by apply turns_frame_commands.
Qed.

Lemma same_commands_at convs convs' conv_idx :
  same_commands convs convs' →
  match conversation_at convs' conv_idx with
  | Some c => conversation_commands c
  | None => []
  end
  = match conversation_at convs conv_idx with
    | Some c => conversation_commands c
    | None => []
    end.
Proof.
  intros [Hlen Hpos]. unfold conversation_at. rewrite Hlen.
  destruct (norm_index (Z.of_nat (length convs)) conv_idx) as [p|] eqn:Hp;
    [|done].
  cbn [mbind option_bind].
  destruct (convs !! p) as [c|] eqn:Hc.
  - by destruct (Hpos p c Hc) as (c' & -> & ->).
  - apply lookup_ge_None in Hc. rewrite <- Hlen in Hc.
    apply lookup_ge_None in Hc. by rewrite Hc.
Qed.

Section Calls.

Context {World : Type} (run : World → json → Z → run_result * World).

Lemma conversation_body_traced timeout e conv_idx
    (st st' : state (World * list (json * Z))) (convs : list json) :
  data st = JArr convs →
  conversation_body (traced run) timeout e conv_idx st = Normal st' →
  (world (run_io st')).2
  = (world (run_io st)).2
    ++ ((λ c, (c, timeout)) <$>
          match conversation_at convs conv_idx with
          | Some c => conversation_commands c
          | None => []
          end).
Proof.
  intros Hdata Hbody. unfold conversation_at.
  destruct (norm_index (Z.of_nat (length convs)) conv_idx) as [p|] eqn:Hp.
  2:{ destruct (conversation_body_stuck (traced run) timeout e conv_idx st convs
                  Hdata) as (err & Herr & _); [intros ? ?; by rewrite Hp|].
      by rewrite Herr in Hbody. }
  cbn [mbind option_bind].
  destruct (convs !! p) as [c|] eqn:Hc.
  2:{ destruct (conversation_body_stuck (traced run) timeout e conv_idx st convs
                  Hdata) as (err & Herr & _); [|by rewrite Herr in Hbody].
      intros p' d Hp'. rewrite Hp in Hp'. injection Hp' as <-. by rewrite Hc. }
  destruct (json_obj_dec c) as [[d ->]|Hnd].
  2:{ destruct (conversation_body_stuck (traced run) timeout e conv_idx st convs
                  Hdata) as (err & Herr & _); [|by rewrite Herr in Hbody].
      intros p' d Hp'. rewrite Hp in Hp'. injection Hp' as <-. rewrite Hc.
      intros [= ->]. by destruct (Hnd d). }
  rewrite (conversation_body_array (traced run) timeout e conv_idx st convs p d
             Hdata Hp Hc) in Hbody.
  cbv zeta in Hbody. cbn [conversation_commands].
  assert (Hworld : ∀ x : state (World * list (json * Z)),
    (if decide ((conv_idx + 1) `mod` 10 = 0)
     then save (say PrintAutoSave x) else Normal x) = Normal st' →
    world (run_io st') = world (run_io x)).
  { intros x Hx. destruct (decide _); [|by injection Hx as <-].
    by apply save_normal in Hx as [_ ->]. }
  destruct (dict_lookup (lit "conversations") d) as [cl|] eqn:Hcl;
    cbn [default from_option id] in Hbody.
  2:{ cbn [py_len length] in Hbody. rewrite py_range_nil in Hbody by lia.
      cbn [pair_loop final] in Hbody.
      rewrite (Hworld _ Hbody). cbn [run_io turns_io]. by rewrite app_nil_r. }
  destruct (py_len cl) as [n|] eqn:Hn; [|done].
  set (s1 := run_io (say (PrintConversation (conv_idx + 1) e) st)) in *.
  destruct (json_arr_dec cl) as [[turns ->]|Hna].
  - injection Hn as <-. fold (turns_start turns s1) in Hbody.
    rewrite (pair_loop_whole (traced run) timeout turns s1) in Hbody.
    destruct (walk_pairs (traced run) timeout 0 turns 0 s1)
      as [[[ts rn'] s']|] eqn:Hwalk; [|done].
    cbn [map_result with_prefix final turns_io] in Hbody.
    rewrite (Hworld _ Hbody). cbn [run_io].
    by rewrite (walk_pairs_traced run timeout turns _ _ _ _ _ _ Hwalk).
  - assert ((λ c : json, (c, timeout)) <$>
              match cl with JArr turns => commands_of turns | _ => [] end = [])
      as -> by (destruct cl; try done; by destruct (Hna items)).
    rewrite app_nil_r.
    destruct (pair_loop_not_array (traced run) timeout cl n s1 Hn Hna)
      as [Hr|[Hr|Hr]]; cbv zeta in Hr; rewrite Hr in Hbody; try done.
    cbn [final turns_io] in Hbody. by rewrite (Hworld _ Hbody).
Qed.

Lemma conversation_body_same_commands timeout e conv_idx
    (st : state (World * list (json * Z))) (convs convs_a : list json) :
  data st = JArr convs_a →
  same_commands convs convs_a →
  ∃ convs_b,
    data (final (conversation_body (traced run) timeout e conv_idx st))
    = JArr convs_b
    ∧ same_commands convs convs_b.
Proof.
  intros Hdata [Hlen Hpos].
  destruct (conversation_body_frame (traced run) timeout e conv_idx st convs_a
              Hdata) as (convs_b & Hdata_b & Hlen_b & Hpos_b).
  exists convs_b. split; [done|]. split; [congruence|].
  intros p c Hc. destruct (Hpos p c Hc) as (c_a & Hc_a & Hcmd).
  destruct (Hpos_b p c_a Hc_a) as (c_b & Hc_b & Hhit & Hmiss).
  exists c_b. split; [done|]. rewrite <- Hcmd.
  destruct (decide (norm_index (Z.of_nat (length convs_a)) conv_idx = Some p))
    as [Hn|Hn].
  - by apply conversation_frame_commands, Hhit.
  - by rewrite (Hmiss Hn).
Qed.

Lemma conversation_loop_traced timeout e (convs : list json) indices :
  ∀ (st st' : state (World * list (json * Z))) convs_a,
    data st = JArr convs_a →
    same_commands convs convs_a →
    conversation_loop (traced run) timeout e indices st = Normal st' →
    (world (run_io st')).2
    = (world (run_io st)).2
      ++ ((λ c, (c, timeout)) <$> expected_commands convs indices).
Proof.
  induction indices as [|i indices IH]; intros st st' convs_a Hdata Hsame Hloop.
  { injection Hloop as <-. by rewrite app_nil_r. }
  cbn [conversation_loop] in Hloop.
  destruct (conversation_body_same_commands timeout e i st convs convs_a
              Hdata Hsame) as (convs_b & Hdata_b & Hsame_b).
  destruct (conversation_body (traced run) timeout e i st) as [st1|] eqn:Hbody;
    [|done].
  cbn [final] in Hdata_b.
  rewrite (IH st1 st' convs_b Hdata_b Hsame_b Hloop).
  rewrite (conversation_body_traced timeout e i st st1 convs_a Hdata Hbody).
  rewrite (same_commands_at convs convs_a i Hsame).
  unfold expected_commands. rewrite bind_cons, fmap_app, app_assoc. done.
Qed.

Lemma process_conversations_calls (convs : list json) timeout start_index
    end_index w st :
  process_conversations (traced run) (JArr convs) timeout start_index end_index
    (w, []) = Normal st →
  (world (run_io st)).2
  = ((λ c, (c, timeout)) <$>
       expected_commands convs
         (py_range start_index
            (effective_end (Z.of_nat (length convs)) end_index) 1)).
Proof.
  unfold process_conversations. cbn [py_len].
  set (e := effective_end (Z.of_nat (length convs)) end_index).
  destruct (conversation_loop (traced run) timeout e _ _) as [st1|] eqn:Hloop;
    [|done].
  unfold finish_run. destruct (save _) as [st2|] eqn:Hsave; [|done].
  intros [= <-]. apply save_normal in Hsave as [_ ->].
  apply (conversation_loop_traced timeout e convs _ _ _ convs) in Hloop;
    [|done|].
  - unfold say, print. cbn [run_io world]. by rewrite Hloop.
  - split; [done|]. intros p c Hc. by exists c.
Qed.

(** The calls that the environment receives in a run that finishes are
    the commands of the conversations that the indices of the range
    denote, conversation by conversation in the order of the indices and
    pair by pair inside each, every one with the timeout of the run: the
    values of the turns tagged human in front of a turn tagged gpt, as
    they are in the input. Recording the calls changes nothing in the
    run. *)
Theorem calls_received (convs : list json) timeout start_index end_index w st :
  process_conversations (traced run) (JArr convs) timeout start_index end_index
    (w, []) = Normal st →
  (world (run_io st)).2
  = ((λ c, (c, timeout)) <$>
       expected_commands convs
         (py_range start_index
            (effective_end (Z.of_nat (length convs)) end_index) 1))
  ∧ result_alike (state_alike (λ w1 w2, w1 = w2.1))
      (process_conversations run (JArr convs) timeout start_index end_index w)
      (Normal st).
Proof.
  intros Hrun. split.
  - by apply (process_conversations_calls convs timeout start_index end_index w).
  - rewrite <- Hrun.
    apply (process_conversations_alike run (traced run) (λ w1 w2, w1 = w2.1));
      [|done].
    intros w1 [w2 calls] command t ->. unfold traced. simpl.
    by destruct (run w2 command t).
Qed.

End Calls.

Lemma expected_commands_app convs l1 l2 :
  expected_commands convs (l1 ++ l2)
  = expected_commands convs l1 ++ expected_commands convs l2.
Proof. unfold expected_commands. apply bind_app. Qed.

Lemma expected_commands_forward (convs : list json) (n : nat) :
  ∀ a, 0 <= a → a + Z.of_nat n <= Z.of_nat (length convs) →
    expected_commands convs (py_range a (a + Z.of_nat n) 1)
    = take n (drop (Z.to_nat a) convs) ≫= conversation_commands.
Proof.
  induction n as [|n IH]; intros a Ha Hn.
  { by rewrite py_range_nil by lia. }
  rewrite py_range_cons by lia.
  replace (a + Z.of_nat (S n)) with (a + 1 + Z.of_nat n) by lia.
  change (expected_commands convs (a :: ?l))
    with (expected_commands convs ([a] ++ l)).
  rewrite expected_commands_app, IH by lia.
  destruct (convs !! Z.to_nat a) as [c|] eqn:Hc.
  2:{ apply lookup_ge_None in Hc. lia. }
  rewrite (drop_S _ _ _ Hc). cbn [take]. rewrite bind_cons.
  replace (Z.to_nat (a + 1)) with (S (Z.to_nat a)) by lia.
  f_equal. unfold expected_commands, conversation_at.
  rewrite bind_cons, norm_index_nonneg by lia. cbn [mbind option_bind].
  rewrite Hc. apply app_nil_r.
Qed.

Lemma conversation_at_negative (convs : list json) a :
  - Z.of_nat (length convs) <= a < 0 →
  conversation_at convs a = conversation_at convs (Z.of_nat (length convs) + a).
Proof.
  intros Ha. unfold conversation_at, norm_index.
  repeat case_decide; try lia. done.
Qed.

Lemma expected_commands_backward (convs : list json) (n : nat) :
  ∀ a, - Z.of_nat (length convs) <= a → a + Z.of_nat n <= 0 →
    expected_commands convs (py_range a (a + Z.of_nat n) 1)
    = expected_commands convs
        (py_range (Z.of_nat (length convs) + a)
           (Z.of_nat (length convs) + a + Z.of_nat n) 1).
Proof.
  induction n as [|n IH]; intros a Ha Hn.
  { by rewrite !py_range_nil by lia. }
  rewrite (py_range_cons a), (py_range_cons (Z.of_nat (length convs) + a))
    by lia.
  replace (a + Z.of_nat (S n)) with (a + 1 + Z.of_nat n) by lia.
  replace (Z.of_nat (length convs) + a + Z.of_nat (S n))
    with (Z.of_nat (length convs) + (a + 1) + Z.of_nat n) by lia.
  replace (Z.of_nat (length convs) + a + 1)
    with (Z.of_nat (length convs) + (a + 1)) by lia.
  change (expected_commands convs (?x :: ?l))
    with (expected_commands convs ([x] ++ l)).
  rewrite !expected_commands_app, IH by lia. f_equal.
  unfold expected_commands. rewrite !bind_cons.
  by rewrite conversation_at_negative by lia.
Qed.

Section Ranges.

Context {World : Type} (run : World → json → Z → run_result * World).

(** Which conversations are executed. With a start index that is not
    negative, the calls of a run that finishes are the commands of the
    conversations from the start index to the effective end index, each
    conversation once. With a negative start index that Python resolves
    and the default end, they are the commands of the last conversations,
    counted from the end of the list, and then those of the whole
    dataset: the last conversations are executed twice. *)
Theorem calls_by_range (convs : list json) timeout start_index end_index w st :
  let total := Z.of_nat (length convs) in
  let e := effective_end total end_index in
  process_conversations (traced run) (JArr convs) timeout start_index end_index
    (w, []) = Normal st →
  (0 <= start_index <= e →
   (world (run_io st)).2
   = (λ c, (c, timeout)) <$>
       (take (Z.to_nat (e - start_index)) (drop (Z.to_nat start_index) convs)
          ≫= conversation_commands))
  ∧ (- total <= start_index < 0 → end_index = None →
     (world (run_io st)).2
     = (λ c, (c, timeout)) <$>
         ((drop (Z.to_nat (total + start_index)) convs ≫= conversation_commands)
          ++ (convs ≫= conversation_commands))).
Proof.
  intros total e Hrun.
  pose proof (process_conversations_calls run convs timeout start_index
                end_index w st Hrun) as Hcalls.
  fold total e in Hcalls. rewrite Hcalls.
  assert (He : e <= total).
  { unfold e, effective_end. destruct end_index; [|lia]. case_decide; lia. }
  split.
  - intros Hs. f_equal.
    replace e with (start_index + Z.of_nat (Z.to_nat (e - start_index))) at 1
      by lia.
    apply expected_commands_forward; lia.
  - intros Hs ->. f_equal. unfold e, effective_end. fold total.
    rewrite (py_range_split start_index 0 total) by lia.
    rewrite expected_commands_app. f_equal.
    + replace 0 with (start_index + Z.of_nat (Z.to_nat (- start_index))) at 1
        by lia.
      rewrite expected_commands_backward by lia. fold total.
      rewrite expected_commands_forward by lia.
      rewrite take_ge; [done|]. rewrite length_drop. lia.
    + replace total with (0 + Z.of_nat (length convs)) at 1 by lia.
      rewrite expected_commands_forward by lia.
      by rewrite drop_0, firstn_all.
Qed.

End Ranges.

(** ** Running the tool on its own output *)

Lemma dict_set_set key v d : dict_set key v (dict_set key v d) = dict_set key v d.
Proof. apply dict_set_lookup_id, dict_lookup_set. Qed.

Lemma set_value_set_value g output :
  set_value (set_value g output) output = set_value g output.
Proof. destruct g; try done. simpl. by rewrite dict_set_set. Qed.

Lemma pair_command_set_value h g output :
  pair_command h (set_value g output) = pair_command h g.
Proof.
  destruct h as [| | | | |hd]; try done.
  destruct g as [| | | | |gd]; try done.
  cbn [set_value pair_command].
  replace (tagged (dict_set (lit "value") (JStr output) gd) "gpt")
    with (tagged gd "gpt"); [done|].
  unfold tagged. by rewrite dict_lookup_set_ne.
Qed.

Lemma pair_safe_set_value h g output :
  pair_safe h (set_value g output) = pair_safe h g.
Proof. destruct h; try done. simpl. by destruct g. Qed.

Section Rerun.

Context {World : Type} (run : World → json → Z → run_result * World).
Context (f : json → Z → run_result).
Hypothesis run_pure : ∀ w command timeout, (run w command timeout).1 = f command timeout.

Lemma execute_command_answer w command timeout :
  (execute_command run w command timeout).1 = answer f command timeout.
Proof. apply (execute_command_pure run f run_pure). Qed.

Lemma pair_step_safe timeout i h g rn (s : io World) g' rn' s' :
  pair_step run timeout i h g rn s = inr (g', rn', s') → pair_safe h g = true.
Proof.
  intros Hstep. pose proof (pair_step_inl run timeout i h g rn s) as H.
  rewrite Hstep in H. simpl in H. symmetry in H. by apply negb_false_iff in H.
Qed.

Lemma walk_pairs_settles timeout (turns : list json) :
  ∀ i rn (s : io World) ts rn' s',
    walk_pairs run timeout i turns rn s = Normal (ts, rn', s') →
    turns_settled f timeout ts.
Proof.
  induction turns as [|x|h g rest IH] using pair_ind;
    intros i rn s ts rn' s' Hwalk.
  - by injection Hwalk as <- <- <-.
  - by injection Hwalk as <- <- <-.
  - cbn [walk_pairs] in Hwalk.
    destruct (pair_step run timeout i h g rn s) as [e|[[g' rn1] s1]] eqn:Hstep;
      [done|].
    destruct (walk_pairs run timeout (i + 2) rest rn1 s1)
      as [[[ts1 rn2] s2]|] eqn:Hrest; [|done].
    simpl in Hwalk. injection Hwalk as <- <- <-.
    cbn [turns_settled]. split; [|split; [|by eapply IH]].
    + pose proof (pair_step_safe _ _ _ _ _ _ _ _ _ Hstep) as Hsafe.
      apply pair_step_inr in Hstep as [(_ & -> & _)|(c & _ & _ & -> & _)];
        [done|]. by rewrite pair_safe_set_value.
    + apply pair_step_inr in Hstep
        as [(Hnone & -> & _)|(c & Hsome & _ & -> & _)].
      * intros c Hc. congruence.
      * intros c'. rewrite pair_command_set_value, Hsome. intros [= <-].
        rewrite execute_command_answer. apply set_value_set_value.
Qed.

Lemma walk_pairs_settled timeout (turns : list json) :
  ∀ i rn (s : io World),
    turns_settled f timeout turns →
    ∃ rn' s', walk_pairs run timeout i turns rn s = Normal (turns, rn', s').
Proof.
  induction turns as [|x|h g rest IH] using pair_ind; intros i rn s Hset;
    try (by eexists _, _).
  destruct Hset as (Hsafe & Hans & Hrest). cbn [walk_pairs].
  pose proof (pair_step_inl run timeout i h g rn s) as Hinl.
  rewrite Hsafe in Hinl.
  destruct (pair_step run timeout i h g rn s) as [e|[[g' rn1] s1]] eqn:Hstep;
    [done|].
  assert (g' = g) as ->.
  { apply pair_step_inr in Hstep as [(_ & -> & _)|(c & Hsome & _ & -> & _)];
      [done|]. rewrite execute_command_answer. by apply Hans. }
  destruct (IH (i + 2) rn1 s1 Hrest) as (rn' & s' & ->). by eexists _, _.
Qed.

Lemma pair_loop_small timeout cl n (s : io World) :
  py_len cl = Some n →
  (∀ l, cl ≠ JArr l) →
  let st := {| conversations_list := cl; round_num := 0; turns_io := s |} in
  let r := pair_loop run timeout (py_range 0 n 2) st in
  (n < 2 → r = Normal st) ∧ (2 <= n → is_normal r = false).
Proof.
  intros Hlen Hna st r. subst r.
  destruct (decide (n <= 0)) as [Hn|Hn].
  { rewrite py_range_nil by lia. split; [done|lia]. }
  rewrite py_range_cons by lia. cbn [pair_loop].
  destruct (pair_loop_not_array run timeout cl n s Hlen Hna) as [Hr|[Hr|Hr]];
    cbv zeta in Hr; rewrite py_range_cons in Hr by lia; cbn [pair_loop] in Hr;
    fold st in Hr.
  - split; [done|]. intros Hn2. exfalso. revert Hr.
    unfold pair_body. cbn [st conversations_list]. rewrite Hlen.
    rewrite decide_False by lia.
    destruct cl as [| | |str|l|d]; try discriminate Hlen.
    + injection Hlen as <-.
      destruct str as [|c0 [|c1 str]]; try (simpl in *; lia).
      unfold py_getitem. rewrite !norm_index_nonneg by (simpl length; lia).
      done.
    + by destruct (Hna l).
    + done.
  - split; [|by rewrite Hr]. intros Hn2. exfalso. revert Hr.
    unfold pair_body. cbn [st conversations_list]. rewrite Hlen.
    by rewrite decide_True by lia.
  - split; [|by rewrite Hr]. intros Hn2. exfalso. revert Hr.
    unfold pair_body. cbn [st conversations_list]. rewrite Hlen.
    by rewrite decide_True by lia.
Qed.

End Rerun.

Section RerunDataset.

Context {World : Type} (run : World → json → Z → run_result * World).
Context (f : json → Z → run_result).
Hypothesis run_pure : ∀ w command timeout, (run w command timeout).1 = f command timeout.

(** A conversation that has been through the loop is settled. *)
Lemma conversation_body_settles timeout e conv_idx (st st' : state World)
    (convs : list json) :
  data st = JArr convs →
  conversation_body run timeout e conv_idx st = Normal st' →
  ∃ convs',
    data st' = JArr convs'
    ∧ length convs' = length convs
    ∧ settled_at f timeout convs' conv_idx
    ∧ ∀ p c, norm_index (Z.of_nat (length convs)) conv_idx ≠ Some p →
             convs !! p = Some c → convs' !! p = Some c.
Proof.
  intros Hdata Hbody.
  destruct (conversation_body_frame run timeout e conv_idx st convs Hdata)
    as (convs' & Hdata' & Hlen' & Hpos').
  rewrite Hbody in Hdata'. cbn [final] in Hdata'.
  exists convs'. split; [done|]. split; [done|]. split.
  2:{ intros p c Hp Hc. destruct (Hpos' p c Hc) as (c' & Hc' & _ & Hmiss).
      by rewrite (Hmiss Hp) in Hc'. }
  unfold settled_at. rewrite Hlen'.
  destruct (norm_index (Z.of_nat (length convs)) conv_idx) as [p|] eqn:Hp.
  2:{ destruct (conversation_body_stuck run timeout e conv_idx st convs Hdata)
        as (err & Herr & _); [intros ? ?; by rewrite Hp|].
      by rewrite Herr in Hbody. }
  destruct (convs !! p) as [c|] eqn:Hc.
  2:{ apply lookup_ge_None in Hc. apply norm_index_lt in Hp. lia. }
  destruct (json_obj_dec c) as [[d ->]|Hnd].
  2:{ destruct (conversation_body_stuck run timeout e conv_idx st convs Hdata)
        as (err & Herr & _); [|by rewrite Herr in Hbody].
      intros p' d Hp'. rewrite Hp in Hp'. injection Hp' as <-. rewrite Hc.
      intros [= ->]. by destruct (Hnd d). }
  rewrite (conversation_body_array run timeout e conv_idx st convs p d Hdata Hp Hc)
    in Hbody.
  cbv zeta in Hbody.
  assert (Hdata2 : ∀ x : state World,
    (if decide ((conv_idx + 1) `mod` 10 = 0)
     then save (say PrintAutoSave x) else Normal x) = Normal st' →
    JArr convs' = data x).
  { intros x Hx. rewrite <- Hdata'.
    destruct (decide _); [|by injection Hx as <-].
    by apply save_normal in Hx as [_ ->]. }
  destruct (dict_lookup (lit "conversations") d) as [cl|] eqn:Hcl;
    cbn [default from_option id] in Hbody.
  2:{ cbn [py_len length] in Hbody. rewrite py_range_nil in Hbody by lia.
      cbn [pair_loop final] in Hbody.
      apply Hdata2 in Hbody. cbn [data] in Hbody. injection Hbody as ->.
      exists p, (JObj d). split; [done|]. split; [done|]. simpl. by rewrite Hcl. }
  destruct (py_len cl) as [n|] eqn:Hn; [|done].
  set (s1 := run_io (say (PrintConversation (conv_idx + 1) e) st)) in *.
  destruct (json_arr_dec cl) as [[turns ->]|Hna].
  - injection Hn as <-. fold (turns_start turns s1) in Hbody.
    rewrite (pair_loop_whole run timeout turns s1) in Hbody.
    destruct (walk_pairs run timeout 0 turns 0 s1) as [[[ts rn'] s']|] eqn:Hwalk;
      [|done].
    cbn [map_result with_prefix final conversations_list turns_io app] in Hbody.
    apply Hdata2 in Hbody. cbn [data] in Hbody. injection Hbody as ->.
    eexists p, _. split; [done|]. split.
    + apply list_lookup_insert_eq. by eapply lookup_lt_Some.
    + simpl. rewrite dict_lookup_set.
      by eapply (walk_pairs_settles run f run_pure).
  - destruct (pair_loop_small run timeout cl n s1 Hn Hna) as [Hsmall Hbig].
    cbv zeta in Hsmall, Hbig.
    destruct (decide (n < 2)) as [Hn2|Hn2].
    + rewrite (Hsmall Hn2) in Hbody. cbn [final conversations_list] in Hbody.
      apply Hdata2 in Hbody. cbn [data] in Hbody.
      rewrite (dict_set_lookup_id _ _ _ Hcl), list_insert_id in Hbody by done.
      injection Hbody as ->.
      exists p, (JObj d). split; [done|]. split; [done|]. simpl. rewrite Hcl.
      destruct cl; try done; [by rewrite Hn..|by destruct (Hna items)|by rewrite Hn].
    + specialize (Hbig ltac:(lia)).
      by destruct (pair_loop run timeout (py_range 0 n 2) _).
Qed.

(** On a settled conversation the loop finishes and changes nothing. *)
Lemma conversation_body_settled timeout e conv_idx (st : state World)
    (convs : list json) :
  data st = JArr convs →
  encodable (JArr convs) = true →
  settled_at f timeout convs conv_idx →
  ∃ st', conversation_body run timeout e conv_idx st = Normal st'
         ∧ data st' = JArr convs.
Proof.
  intros Hdata Henc (p & c & Hp & Hc & Hset).
  destruct c as [| | | | |d]; try done.
  rewrite (conversation_body_array run timeout e conv_idx st convs p d Hdata Hp Hc).
  cbv zeta. simpl in Hset.
  assert (Hfin : ∀ x : state World, data x = JArr convs →
    ∃ st', (if decide ((conv_idx + 1) `mod` 10 = 0)
            then save (say PrintAutoSave x) else Normal x) = Normal st'
           ∧ data st' = JArr convs).
  { intros x Hx. destruct (decide _); [|eexists; split; done].
    rewrite save_encodable by (cbn [say data]; by rewrite Hx).
    eexists. split; done. }
  destruct (dict_lookup (lit "conversations") d) as [cl|] eqn:Hcl;
    cbn [default from_option id].
  2:{ cbn [py_len length]. rewrite py_range_nil by lia. cbn [pair_loop final].
      by apply Hfin. }
  set (s1 := run_io (say (PrintConversation (conv_idx + 1) e) st)).
  destruct (json_arr_dec cl) as [[turns ->]|Hna].
  - cbn [py_len]. fold (turns_start turns s1).
    rewrite (pair_loop_whole run timeout turns s1).
    destruct (walk_pairs_settled run f run_pure timeout turns 0 0 s1 Hset)
      as (rn' & s' & ->).
    cbn [map_result with_prefix final conversations_list turns_io app].
    apply Hfin. cbn [data].
    by rewrite (dict_set_lookup_id _ _ _ Hcl), list_insert_id.
  - assert (∃ n, py_len cl = Some n ∧ n < 2) as (n & Hn & Hn2).
    { destruct cl; try done; simpl in *; eauto. by destruct (Hna items). }
    rewrite Hn.
    destruct (pair_loop_small run timeout cl n s1 Hn Hna) as [Hsmall _].
    cbv zeta in Hsmall. rewrite (Hsmall Hn2).
    cbn [final conversations_list turns_io]. apply Hfin. cbn [data].
    by rewrite (dict_set_lookup_id _ _ _ Hcl), list_insert_id.
Qed.

Lemma settled_at_kept timeout (convs convs' : list json) conv_idx q :
  length convs' = length convs →
  (∀ p c, norm_index (Z.of_nat (length convs)) conv_idx ≠ Some p →
          convs !! p = Some c → convs' !! p = Some c) →
  settled_at f timeout convs' conv_idx →
  settled_at f timeout convs q →
  settled_at f timeout convs' q.
Proof.
  intros Hlen Hkeep Hnew (p & c & Hp & Hc & Hset).
  destruct (decide (norm_index (Z.of_nat (length convs)) conv_idx = Some p))
    as [Hhit|Hmiss].
  - destruct Hnew as (p' & c' & Hp' & Hc' & Hset').
    rewrite Hlen, Hhit in Hp'. injection Hp' as <-.
    exists p, c'. by rewrite Hlen.
  - exists p, c. rewrite Hlen. split; [done|]. split; [|done].
    by apply Hkeep.
Qed.

Lemma conversation_loop_settles timeout e indices :
  ∀ (st st' : state World) (convs : list json),
    data st = JArr convs →
    conversation_loop run timeout e indices st = Normal st' →
    ∃ convs',
      data st' = JArr convs'
      ∧ length convs' = length convs
      ∧ (∀ q, settled_at f timeout convs q → settled_at f timeout convs' q)
      ∧ ∀ conv_idx, conv_idx ∈ indices → settled_at f timeout convs' conv_idx.
Proof.
  induction indices as [|i indices IH]; intros st st' convs Hdata Hloop.
  { injection Hloop as <-. exists convs. repeat split; try done.
    intros conv_idx Hin. by apply elem_of_nil in Hin. }
  cbn [conversation_loop] in Hloop.
  destruct (conversation_body run timeout e i st) as [st1|] eqn:Hbody; [|done].
  destruct (conversation_body_settles timeout e i st st1 convs Hdata Hbody)
    as (convs1 & Hdata1 & Hlen1 & Hset1 & Hkeep1).
  destruct (IH st1 st' convs1 Hdata1 Hloop)
    as (convs' & Hdata' & Hlen' & Hkeep' & Hall').
  exists convs'. split; [done|]. split; [congruence|]. split.
  - intros q Hq. apply Hkeep'. by eapply settled_at_kept.
  - intros conv_idx [->|Hin]%elem_of_cons; [by apply Hkeep'|by apply Hall'].
Qed.

Lemma conversation_loop_settled timeout e indices :
  ∀ (st : state World) (convs : list json),
    data st = JArr convs →
    encodable (JArr convs) = true →
    (∀ conv_idx, conv_idx ∈ indices → settled_at f timeout convs conv_idx) →
    ∃ st', conversation_loop run timeout e indices st = Normal st'
           ∧ data st' = JArr convs.
Proof.
  induction indices as [|i indices IH]; intros st convs Hdata Henc Hall.
  { by exists st. }
  cbn [conversation_loop].
  destruct (conversation_body_settled timeout e i st convs Hdata Henc)
    as (st1 & -> & Hdata1); [apply Hall; by left|].
  apply (IH st1 convs Hdata1 Henc). intros conv_idx Hin. apply Hall. by right.
Qed.

(** In an environment where what a command gives depends on the command
    and the timeout only, running the tool again on the dataset that a
    finished run has produced, with the same range and timeout, changes
    nothing: the second run finishes too, and it writes the dataset it
    was given. This holds for every start index, also a negative one. *)
Theorem rerun_changes_nothing (convs : list json) timeout start_index end_index
    w w' st1 :
  process_conversations run (JArr convs) timeout start_index end_index w
  = Normal st1 →
  ∃ st2,
    process_conversations run (data st1) timeout start_index end_index w'
    = Normal st2
    ∧ data st2 = data st1
    ∧ output_file st2 = Some (Dumped (data st1)).
Proof.
  unfold process_conversations at 1. cbn [py_len].
  set (e := effective_end (Z.of_nat (length convs)) end_index).
  destruct (conversation_loop run timeout e _ _) as [st|] eqn:Hloop; [|done].
  unfold finish_run at 1.
  destruct (save (say PrintFinished st)) as [st_s|] eqn:Hsave; [|done].
  intros [= <-]. apply save_normal in Hsave as [Henc ->].
  cbn [say data] in *.
  destruct (conversation_loop_settles timeout e (py_range start_index e 1)
              (begin_run (JArr convs) (Z.of_nat (length convs)) start_index e w)
              st convs eq_refl Hloop)
    as (convs' & Hdata' & Hlen' & _ & Hall').
  rewrite Hdata' in *.
  unfold process_conversations. cbn [py_len]. rewrite Hlen'. fold e.
  destruct (conversation_loop_settled timeout e (py_range start_index e 1)
              (begin_run (JArr convs') (Z.of_nat (length convs)) start_index e w')
              convs' eq_refl Henc Hall') as (st2 & -> & Hdata2).
  unfold finish_run.
  rewrite save_encodable by (cbn [say data]; by rewrite Hdata2).
  eexists. split; [done|]. cbn [say data output_file].
  by rewrite Hdata2.
Qed.

End RerunDataset.

(** ** The output path after a failure *)

Section Failures.

Context {World : Type} (run : World → json → Z → run_result * World).

Lemma conversation_body_no_save timeout e conv_idx (st : state World) :
  (conv_idx + 1) `mod` 10 ≠ 0 →
  output_file (final (conversation_body run timeout e conv_idx st))
  = output_file st.
Proof.
  intros Hmod. unfold conversation_body. repeat case_match; simpl; done.
Qed.

Lemma conversation_loop_no_save timeout e indices :
  ∀ st : state World,
    (∀ i, i ∈ indices → (i + 1) `mod` 10 ≠ 0) →
    let r := conversation_loop run timeout e indices st in
    output_file (final r) = output_file st
    ∧ ∀ st', r ≠ Raised UnicodeEncodeError st'.
Proof.
  induction indices as [|i indices IH]; intros st Hmod; [done|].
  cbn [conversation_loop].
  pose proof (conversation_body_no_save timeout e i st (Hmod i ltac:(by left)))
    as Hb.
  destruct (conversation_body run timeout e i st) as [st1|err st1] eqn:Hbody;
    cbn [final] in *.
  - rewrite <- Hb. apply IH. intros j Hj. apply Hmod. by right.
  - split; [done|]. intros st' [= -> ->].
    apply conversation_body_encode_error in Hbody as [Hbody _].
    by apply (Hmod i ltac:(by left)).
Qed.

Lemma process_conversations_saves input timeout start_index end_index w :
  let r := process_conversations run input timeout start_index end_index w in
  is_normal r = true →
  output_file (final r) = Some (Dumped (data (final r)))
  ∧ encodable (data (final r)) = true.
Proof.
  intros r. subst r. unfold process_conversations.
  destruct (py_len input) as [total|]; [|done].
  destruct (conversation_loop run timeout _ _ _) as [st|]; [|done].
  unfold finish_run. destruct (save _) as [st1|] eqn:Hsave; [|done].
  by apply save_normal in Hsave as [? ->].
Qed.

(** A run that finishes leaves the dataset it holds on the output path,
    and every text of that dataset can be encoded. A run that raises
    leaves no dataset there when no index of its range is one less than a
    multiple of 10, as in every dataset of less than 10 conversations:
    the path has not been opened, or, when the exception is the
    [UnicodeEncodeError] of the final save, it holds the beginning of the
    text of the dataset in memory. All the outputs obtained so far are
    lost. *)
Theorem output_all_or_nothing input timeout start_index end_index w :
  let r := process_conversations run input timeout start_index end_index w in
  (is_normal r = true →
   output_file (final r) = Some (Dumped (data (final r)))
   ∧ encodable (data (final r)) = true)
  ∧ ((∀ total i, py_len input = Some total →
        start_index <= i < effective_end total end_index →
        (i + 1) `mod` 10 ≠ 0) →
     ∀ err st, r = Raised err st →
       (err = UnicodeEncodeError
        ∧ output_file st = Some (Truncated (data st))
        ∧ encodable (data st) = false)
       ∨ (err ≠ UnicodeEncodeError ∧ output_file st = None)).
Proof.
  intros r. subst r. split; [apply process_conversations_saves|].
  unfold process_conversations.
  destruct (py_len input) as [total|].
  2:{ intros _ err st [= <- <-]. by right. }
  set (e := effective_end total end_index).
  intros Hmod.
  destruct (conversation_loop_no_save timeout e
              (py_range start_index e 1)
              (begin_run input total start_index e w)) as [Hfile Herr].
  { intros i Hi%elem_of_py_range_1. by apply (Hmod total). }
  destruct (conversation_loop run timeout e _ _) as [st1|err1 st1];
    cbn [final] in *.
  - intros err st. unfold finish_run.
    destruct (save _) as [st2|err2 st2] eqn:Hsave; [done|].
    intros [= <- <-]. apply save_raised in Hsave as (-> & Henc & ->).
    left. done.
  - intros err st [= <- <-]. right. split; [|done].
    intros ->. by apply (Herr st1).
Qed.

(** A start index below minus the length of the dataset cannot be
    resolved: when the range is not empty the run raises [IndexError] at
    its first conversation, before any command is run and before
    anything is written. *)
Theorem start_out_of_range (convs : list json) timeout start_index end_index w :
  let total := Z.of_nat (length convs) in
  let e := effective_end total end_index in
  start_index < - total →
  start_index < e →
  process_conversations run (JArr convs) timeout start_index end_index w
  = Raised IndexError (begin_run (JArr convs) total start_index e w).
Proof.
  intros total e Hlow Hne. unfold process_conversations. cbn [py_len].
  fold total e. rewrite py_range_cons by lia. cbn [conversation_loop].
  unfold conversation_body, py_getitem, begin_run, say. cbn [data].
  fold total. unfold norm_index.
  rewrite decide_False, decide_False by lia. done.
Qed.

End Failures.

(** ** The command line *)

Section Main.

Context {World : Type} (run : World → json → Z → run_result * World).
Context (py_lower : pystr → pystr).



End Main.

(** ** What no run changes *)

Lemma turn_kept_trans (t t' t'' : dict) :
  turn_kept t t' → turn_kept t' t'' → turn_kept t t''.
Proof.
  intros [H1 H1'] [H2 H2']. split.
  - intros key Hkey. by rewrite H2, H1.
  - intros Hfrom. rewrite H2', (H1' Hfrom); [done|].
    by rewrite (H1' Hfrom).
Qed.

Lemma turns_kept_trans turns turns' turns'' :
  turns_kept turns turns' → turns_kept turns' turns'' → turns_kept turns turns''.
Proof.
  intros [Hlen1 H1] [Hlen2 H2]. split; [congruence|].
  intros j t Ht. destruct (H1 j t Ht) as (t' & Ht' & Hk1).
  destruct (H2 j t' Ht') as (t'' & Ht'' & Hk2).
  exists t''. split; [done|].
  destruct Hk1 as [->|(td & td' & -> & -> & Hk1)]; [done|].
  destruct Hk2 as [->|(td1 & td'' & [= <-] & -> & Hk2)].
  - right. by exists td, td'.
  - right. exists td, td''. split; [done|]. split; [done|].
    by eapply turn_kept_trans.
Qed.

Lemma fields_kept_refl convs : fields_kept convs convs.
Proof. intros p c Hc. exists c. split; [done|]. by left. Qed.

Lemma fields_kept_trans convs convs' convs'' :
  fields_kept convs convs' → fields_kept convs' convs'' →
  fields_kept convs convs''.
Proof.
  intros H1 H2 p c Hc. destruct (H1 p c Hc) as (c' & Hc' & Hk1).
  destruct (H2 p c' Hc') as (c'' & Hc'' & Hk2).
  exists c''. split; [done|].
  destruct Hk1 as [->|(d & d' & turns & turns' & -> & -> & Hkeys1 & Hother1
                        & Hl1 & Hl1' & Ht1)]; [done|].
  destruct Hk2 as [->|(d1 & d'' & turns1 & turns'' & [= <-] & -> & Hkeys2
                        & Hother2 & Hl2 & Hl2' & Ht2)].
  - right. by exists d, d', turns, turns'.
  - rewrite Hl1' in Hl2. injection Hl2 as <-.
    right. exists d, d'', turns, turns''.
    repeat split; try done.
    + congruence.
    + intros key Hkey. by rewrite Hother2, Hother1.
    + destruct Ht1, Ht2. congruence.
    + by apply (turns_kept_trans turns turns' turns'').
Qed.

Section Kept.

Context {World : Type} (run : World → json → Z → run_result * World).

Lemma conversation_body_kept timeout e conv_idx (st : state World)
    (convs : list json) :
  data st = JArr convs →
  kept convs (data (final (conversation_body run timeout e conv_idx st))).
Proof.
  intros Hdata.
  destruct (conversation_body_frame run timeout e conv_idx st convs Hdata)
    as (convs' & Hdata' & Hlen' & Hpos').
  exists convs'. split; [done|]. split; [done|].
  destruct (norm_index (Z.of_nat (length convs)) conv_idx) as [q|] eqn:Hq.
  - apply (conversation_frame_kept convs convs' (Z.of_nat q) (Z.of_nat q + 1)).
    split; [done|]. intros p c Hc.
    destruct (Hpos' p c Hc) as (c' & Hc' & Hhit & Hmiss).
    exists c'. split; [done|]. split.
    + intros Hp. apply Hhit. f_equal. lia.
    + intros Hp. apply Hmiss. intros [= ->]. lia.
  - intros p c Hc. destruct (Hpos' p c Hc) as (c' & Hc' & _ & Hmiss).
    exists c'. split; [done|]. left. by apply Hmiss.
Qed.

Lemma conversation_loop_kept timeout e indices :
  ∀ (st : state World) (convs : list json),
    data st = JArr convs →
    let r := conversation_loop run timeout e indices st in
    kept convs (data (final r))
    ∧ ∀ out, output_file (final r) = Some (Dumped out) →
             output_file st = Some (Dumped out) ∨ kept convs out.
Proof.
  induction indices as [|i indices IH]; intros st convs Hdata.
  { simpl. split; [|by left]. exists convs. rewrite Hdata.
    split; [done|]. split; [done|apply fields_kept_refl]. }
  cbn [conversation_loop].
  pose proof (conversation_body_kept timeout e i st convs Hdata) as Hk.
  pose proof (conversation_body_file run timeout e i st) as Hf.
  cbv zeta in Hf.
  assert (Hfile : ∀ out,
    output_file (final (conversation_body run timeout e i st))
    = Some (Dumped out) →
    output_file st = Some (Dumped out) ∨ kept convs out).
  { intros out Hout. destruct Hf as [Hf|[[_ Hf]|[_ Hf]]]; rewrite Hf in Hout.
    - by left.
    - injection Hout as <-. by right.
    - done. }
  destruct (conversation_body run timeout e i st) as [st1|err st1];
    cbn [final] in Hk, Hfile; [|done].
  destruct Hk as (convs1 & Hdata1 & Hlen1 & Hkept1).
  destruct (IH st1 convs1 Hdata1) as [Hk' Hf'].
  assert (Hlift : ∀ x, kept convs1 x → kept convs x).
  { intros x (convs2 & -> & Hlen2 & Hkept2). exists convs2.
    split; [done|]. split; [congruence|].
    by apply (fields_kept_trans convs convs1 convs2). }
  split; [by apply Hlift|].
  intros out Hout. destruct (Hf' out Hout) as [Hst1|Hkout].
  - by apply Hfile.
  - right. by apply Hlift.
Qed.

(** Whatever the range, also with a negative start index, and however
    the run ends, the dataset in memory and every dataset written to the
    output path have the conversations of the input in their order, each
    with its keys in their order and all its fields but [conversations],
    with as many turns as before; every turn keeps all its fields but
    [value], and a turn that is not tagged gpt is what it was. *)
Theorem nothing_else_changes (convs : list json) timeout start_index end_index w :
  let r := process_conversations run (JArr convs) timeout start_index end_index w in
  kept convs (data (final r))
  ∧ ∀ out, output_file (final r) = Some (Dumped out) → kept convs out.
Proof.
  intros r. subst r. unfold process_conversations. cbn [py_len].
  set (e := effective_end (Z.of_nat (length convs)) end_index).
  destruct (conversation_loop_kept timeout e (py_range start_index e 1)
              (begin_run (JArr convs) (Z.of_nat (length convs)) start_index e w)
              convs eq_refl) as [Hk Hf].
  destruct (conversation_loop run timeout e _ _) as [st|err st];
    cbn [final] in *.
  - rewrite data_finish_run. split; [done|].
    unfold finish_run, save. cbn [say data].
    destruct (encodable (data st)); cbn [final say output_file];
      by intros out [= <-].
  - split; [done|]. intros out Hout.
    by destruct (Hf out Hout) as [Hnone|Hkout].
Qed.

End Kept.

(** ** Texts that stay within UTF-8 *)

Section Texts.

Context {World : Type} (run : World → json → Z → run_result * World).
Hypothesis run_encodable :
  ∀ w command timeout, outcome_encodable (run w command timeout).1 = true.

Lemma conversation_loop_writes timeout e indices :
  ∀ st : state World,
    encodable (data st) = true →
    (∀ d, output_file st ≠ Some (Truncated d)) →
    let r := conversation_loop run timeout e indices st in
    (∀ st', r ≠ Raised UnicodeEncodeError st')
    ∧ ∀ d, output_file (final r) ≠ Some (Truncated d).
Proof.
  induction indices as [|i indices IH]; intros st Henc Hfile; [done|].
  cbn [conversation_loop].
  pose proof (conversation_body_encodable run run_encodable timeout e i st Henc)
    as Henc1.
  pose proof (conversation_body_file run timeout e i st) as Hf. cbv zeta in Hf.
  assert (Hok : ∀ st', conversation_body run timeout e i st
                       ≠ Raised UnicodeEncodeError st').
  { intros st' Hbody. rewrite Hbody in Henc1. cbn [final] in Henc1.
    apply conversation_body_encode_error in Hbody as (_ & Hbody & _).
    congruence. }
  assert (Hfile1 : ∀ d,
    output_file (final (conversation_body run timeout e i st))
    ≠ Some (Truncated d)).
  { intros d Hd. destruct Hf as [Hf|[[_ Hf]|[Hf _]]].
    - rewrite Hf in Hd. by apply (Hfile d).
    - by rewrite Hf in Hd.
    - by apply (Hok _ Hf). }
  destruct (conversation_body run timeout e i st) as [st1|err st1];
    cbn [final] in *.
  - by apply IH.
  - split; [|done]. intros st' [= -> ->]. by apply (Hok st').
Qed.

(** When every text of the input dataset and every text that the
    environment returns can be encoded, so can every text of the dataset
    throughout the run, whatever the shape of the dataset and the range:
    no checkpoint and no final save fails, and the output path never
    holds a text cut short. *)
Theorem texts_stay_encodable input timeout start_index end_index w :
  encodable input = true →
  let r := process_conversations run input timeout start_index end_index w in
  encodable (data (final r)) = true
  ∧ (∀ st, r ≠ Raised UnicodeEncodeError st)
  ∧ (∀ d, output_file (final r) ≠ Some (Truncated d)).
Proof.
  intros Henc r. subst r. unfold process_conversations.
  destruct (py_len input) as [total|]; [|done].
  set (e := effective_end total end_index).
  set (st0 := begin_run input total start_index e w).
  pose proof (conversation_loop_encodable run run_encodable timeout e
                (py_range start_index e 1) st0 Henc) as Hdata.
  destruct (conversation_loop_writes timeout e (py_range start_index e 1) st0
              Henc ltac:(done)) as [Hok Hfile].
  destruct (conversation_loop run timeout e _ st0) as [st1|err st1];
    cbn [final] in *; [|done].
  unfold finish_run. rewrite save_encodable by done. done.
Qed.

End Texts.

(** * Instances of the further properties *)

Lemma markers_distinct_witness :
  timeout_marker 30 = timeout_marker (15 + 15) ∧ 30 = 15 + 15.
Proof.
  assert (H : timeout_marker 30 = timeout_marker (15 + 15)) by reflexivity.
  split; [exact H|]. exact (proj1 markers_distinct 30 (15 + 15) H).
Defined.




Lemma calls_received_witness :
  ∃ st,
    process_conversations (traced demo_run) (JArr demo_dataset) 30 0 None
      (0%nat, []) = Normal st
    ∧ (world (run_io st)).2
      = [(JStr (lit "echo hi"), 30); (JStr (lit "false"), 30);
         (JStr (lit "echo hi"), 30)].
Proof.
  assert (Hrun :
    process_conversations (traced demo_run) (JArr demo_dataset) 30 0 None
      (0%nat, [])
    = Normal (final (process_conversations (traced demo_run) (JArr demo_dataset)
                       30 0 None (0%nat, []))))
    by (vm_compute; reflexivity).
  eexists. split; [exact Hrun|].
  by rewrite (proj1 (calls_received demo_run demo_dataset 30 0 None 0%nat _ Hrun)).
Defined.

Lemma calls_by_range_witness :
  ∃ st,
    process_conversations (traced demo_run) (JArr demo_dataset) 30 (-1) None
      (0%nat, []) = Normal st
    ∧ (world (run_io st)).2
      = [(JStr (lit "echo hi"), 30);
         (JStr (lit "echo hi"), 30); (JStr (lit "false"), 30);
         (JStr (lit "echo hi"), 30)].
Proof.
  assert (Hrun :
    process_conversations (traced demo_run) (JArr demo_dataset) 30 (-1) None
      (0%nat, [])
    = Normal (final (process_conversations (traced demo_run) (JArr demo_dataset)
                       30 (-1) None (0%nat, []))))
    by (vm_compute; reflexivity).
  eexists. split; [exact Hrun|].
  rewrite (proj2 (calls_by_range demo_run demo_dataset 30 (-1) None 0%nat _ Hrun)
             ltac:(simpl; lia) eq_refl).
  reflexivity.
Defined.

Lemma rerun_changes_nothing_witness :
  ∃ st1 st2,
    process_conversations demo_run (JArr demo_dataset) 30 0 None 0%nat
    = Normal st1
    ∧ process_conversations demo_run (data st1) 30 0 None 7%nat = Normal st2
    ∧ data st2 = data st1.
Proof.
  assert (Hrun :
    process_conversations demo_run (JArr demo_dataset) 30 0 None 0%nat
    = Normal (final (process_conversations demo_run (JArr demo_dataset)
                       30 0 None 0%nat)))
    by (vm_compute; reflexivity).
  destruct (rerun_changes_nothing demo_run demo_outcome demo_run_pure
              demo_dataset 30 0 None 0%nat 7%nat _ Hrun)
    as (st2 & Hrun2 & Hdata & _).
  eexists _, st2. split; [exact Hrun|]. split; [exact Hrun2|exact Hdata].
Defined.

Lemma output_all_or_nothing_witness :
  ∃ st,
    process_conversations demo_run (JArr demo_broken) 30 0 None 0%nat
    = Raised AttributeError st
    ∧ output_file st = None.
Proof.
  eexists. split; [vm_compute; reflexivity|].
  destruct (proj2 (output_all_or_nothing demo_run (JArr demo_broken) 30 0 None
                     0%nat)) with (err := AttributeError)
    (st := final (process_conversations demo_run (JArr demo_broken) 30 0 None
                    0%nat)) as [[Herr _]|[_ Hfile]].
  - intros total i [= <-] Hi. unfold effective_end in Hi. simpl in Hi.
    assert (i = 0 ∨ i = 1) as [->| ->] by lia;
      intros H; vm_compute in H; discriminate H.
  - vm_compute. reflexivity.
  - discriminate Herr.
  - exact Hfile.
Defined.

Lemma start_out_of_range_witness :
  -5 < - Z.of_nat (length demo_dataset)
  ∧ -5 < effective_end (Z.of_nat (length demo_dataset)) None
  ∧ process_conversations demo_run (JArr demo_dataset) 30 (-5) None 0%nat
    = Raised IndexError (begin_run (JArr demo_dataset) 3 (-5) 3 0%nat).
Proof.
  assert (H1 : -5 < - Z.of_nat (length demo_dataset)) by reflexivity.
  assert (H2 : -5 < effective_end (Z.of_nat (length demo_dataset)) None)
    by reflexivity.
  split; [exact H1|]. split; [exact H2|].
  exact (start_out_of_range demo_run demo_dataset 30 (-5) None 0%nat H1 H2).
Defined.



Lemma nothing_else_changes_witness :
  ∃ out,
    output_file
      (final (process_conversations demo_run (JArr demo_dataset) 30 (-1) None
                0%nat)) = Some (Dumped out)
    ∧ kept demo_dataset out.
Proof.
  eexists. split; [vm_compute; reflexivity|].
  apply (proj2 (nothing_else_changes demo_run demo_dataset 30 (-1) None 0%nat)).
  vm_compute. reflexivity.
Defined.

Lemma texts_stay_encodable_witness :
  encodable (JArr demo_dataset) = true
  ∧ encodable
      (data (final (process_conversations demo_ok (JArr demo_dataset) 30 0 None
                      0%nat))) = true.
Proof.
  assert (Henc : encodable (JArr demo_dataset) = true) by reflexivity.
  split; [exact Henc|].
  exact (proj1 (texts_stay_encodable demo_ok (λ _ _ _, eq_refl)
                  (JArr demo_dataset) 30 0 None 0%nat Henc)).
Defined.
